(** * Cost-Estimation: the catalog fetch, the requirement parser, the
    instance matcher, the cost functions and the handler of
    [CostEstimationLambda.py], and the parser, the matcher and the handler of
    its reduced variant [EC2CostEstimation-Lambda.py], embedded in Rocq.

    Conventions of the embedding.
    - A Python [str] is a Rocq [string]; a character is read as the code point
      of the same number (U+0000 .. U+00FF).  The functions that walk a string
      ([re.search], [split], [strip], [upper], [int]) work on its list of
      characters.
    - A Python [int] is a [Z]; a Python [float] is a binary64 [float], with
      the IEEE operations of the kernel.  [int(s)] is taken without the
      interpreter's configurable limit on the number of digits of [s], except
      in the module [Raw], which has the default limit of 4300 digits.
    - A Python exception is a value of [exn]; code that can raise returns a
      [result].
    - The fields of a row of the requirements sheet are strings, as the data
      model of the specification has them, except in the module [Raw], where
      a row is a dict with whatever keys and cells the sheet has.
    - The four AWS collaborators ([fetch_ec2_instance_types],
      [fetch_requirements_from_s3], [get_instance_price],
      [store_results_in_s3_csv]) are the fields of an environment [Env]: each
      of them already turns its own failures into a return value ([{}], [[]],
      [None], [False]), which is all the handler sees of them. *)

From Stdlib Require Import ZArith Floats Ascii String.
From stdpp Require Import gmap strings list.

Set Warnings "-inexact-float".
Local Open Scope Z_scope.

(** ** Exceptions and results *)

Inductive exn : Type :=
| OverflowError   (* int too large to convert to float *)
| TypeError       (* unsupported operand types, or a search in what is no str *)
| KeyError        (* a dict has no such key *)
| ValueError      (* a string of digits beyond the limit of int() *).

Inductive result (A : Type) : Type :=
| Ok (a : A)
| Raise (e : exn).
Arguments Ok {A} a.
Arguments Raise {A} e.

#[global] Instance result_ret : MRet result := fun A a => Ok a.
#[global] Instance result_bind : MBind result := fun A B f m =>
  match m with
  | Ok a => f a
  | Raise e => Raise e
  end.

(** ** Python numbers *)

Module Py.

(** The values that the cost columns of a record hold. *)
Inductive val : Type :=
| Int (z : Z)
| Float (x : float)
| Str (s : string).

(** [float(z)] for an [int]: the nearest binary64 value, ties to even;
    [OverflowError] when that would be infinite. *)
Definition float_of_int (z : Z) : result float :=
  let x := SF2Prim (binary_normalize prec emax z 0 false) in
  if is_infinity x then Raise OverflowError else Ok x.

(** Round half to even of [m * 2^e] to an integer, [m] positive. *)
Definition rne_scaled (m e : Z) : Z :=
  if 0 <=? e then m * 2 ^ e
  else
    let d := 2 ^ (- e) in
    let q := m / d in
    let r := m mod d in
    match 2 * r ?= d with
    | Lt => q
    | Gt => q + 1
    | Eq => if Z.even q then q else q + 1
    end.

(** [round(x, 2)] for a [float].  CPython prints [x] exactly rounded (half to
    even) to two decimals and reads the decimal back: with [k] the integer
    nearest to [100 * x], the result is the binary64 value nearest to
    [k / 100].  Infinities, NaN and zeros round to themselves. *)
Definition round_float2 (x : float) : float :=
  match Prim2SF x with
  | S754_finite sgn m e =>
      match rne_scaled (100 * Z.pos m) e with
      | Z.pos k =>
          SF2Prim (SFdiv prec emax (S754_finite sgn k 0) (S754_finite false 100 0))
      | _ => if sgn then PrimFloat.neg_zero else PrimFloat.zero
      end
  | _ => x
  end.

(** [round(v, 2)]: an [int] is returned as it is, a [str] has no
    [__round__]. *)
Definition round2 (v : val) : result val :=
  match v with
  | Int z => Ok (Int z)
  | Float x => Ok (Float (round_float2 x))
  | Str _ => Raise TypeError
  end.

(** [a + b]. *)
Definition add (a b : val) : result val :=
  match a, b with
  | Int x, Int y => Ok (Int (x + y))
  | Int x, Float y => fx ← float_of_int x ; Ok (Float (fx + y))
  | Float x, Int y => fy ← float_of_int y ; Ok (Float (x + fy))
  | Float x, Float y => Ok (Float (x + y))
  | Str x, Str y => Ok (Str (String.append x y))
  | Str _, _ | _, Str _ => Raise TypeError
  end.

(** [a * b] for the operands the program multiplies: numbers. *)
Definition mul (a b : val) : result val :=
  match a, b with
  | Int x, Int y => Ok (Int (x * y))
  | Int x, Float y => fx ← float_of_int x ; Ok (Float (fx * y))
  | Float x, Int y => fy ← float_of_int y ; Ok (Float (x * fy))
  | Float x, Float y => Ok (Float (x * y))
  | _, _ => Raise TypeError
  end.

(** [a == b] on numbers: an [int] and a [float] are compared by value. *)
Definition eqb (a b : val) : bool :=
  match a, b with
  | Int x, Int y => x =? y
  | Float x, Float y => (x =? y)%float
  | Int x, Float y | Float y, Int x =>
      match Prim2SF y with
      | S754_zero _ => x =? 0
      | S754_finite sgn m e =>
          if 0 <=? e then x =? (if sgn then - (Z.pos m * 2 ^ e) else Z.pos m * 2 ^ e)
          else (x * 2 ^ (- e) =? (if sgn then Z.neg m else Z.pos m))
      | _ => false
      end
  | Str x, Str y => bool_decide (x = y)
  | _, _ => false
  end.

End Py.

(** ** Python strings *)

Abbreviation chars := (list ascii).

Definition code (c : ascii) : nat := nat_of_ascii c.

(** [\d]: a decimal digit. *)
Definition is_digit (c : ascii) : bool :=
  (48 <=? code c)%nat && (code c <=? 57)%nat.

(** [\s], and what [str.strip] removes: the characters [str.isspace] accepts. *)
Definition is_space (c : ascii) : bool :=
  ((9 <=? code c)%nat && (code c <=? 13)%nat)
  || ((28 <=? code c)%nat && (code c <=? 32)%nat)
  || (code c =? 133)%nat || (code c =? 160)%nat.

Definition lower (c : ascii) : ascii :=
  if (65 <=? code c)%nat && (code c <=? 90)%nat then ascii_of_nat (code c + 32) else c.

(** [str.upper] on the text of a matched group, which holds letters of
    [A-Za-z] only. *)
Definition upper_char (c : ascii) : ascii :=
  if (97 <=? code c)%nat && (code c <=? 122)%nat then ascii_of_nat (code c - 32) else c.

Definition upper (s : chars) : chars := map upper_char s.

Definition digit_value (c : ascii) : Z := Z.of_nat (code c) - 48.

(** [int(s)] for a run of decimal digits. *)
Definition int_of_digits (s : chars) : Z :=
  fold_left (fun acc c => 10 * acc + digit_value c) s 0.

Fixpoint take_while (p : ascii → bool) (s : chars) : chars :=
  match s with
  | c :: s' => if p c then c :: take_while p s' else []
  | [] => []
  end.

Fixpoint drop_while (p : ascii → bool) (s : chars) : chars :=
  match s with
  | c :: s' => if p c then drop_while p s' else s
  | [] => []
  end.

(** [s.strip()]. *)
Definition strip (s : chars) : chars :=
  rev (drop_while is_space (rev (drop_while is_space s))).

(** [s.split("+")]: the pieces between the plus signs, at least one. *)
Fixpoint split_plus (s : chars) : list chars :=
  match s with
  | [] => [[]]
  | c :: s' =>
      if Ascii.eqb c "+" then [] :: split_plus s'
      else match split_plus s' with
           | piece :: pieces => (c :: piece) :: pieces
           | [] => [[c]]
           end
  end.

(** ** Regular expressions: the fragment of [re] the program uses *)

Module Re.

Inductive regex : Type :=
| Eps
| Class (p : ascii → bool)          (* one character of a class *)
| Seq (r1 r2 : regex)
| Alt (r1 r2 : regex)               (* r1|r2, r1 tried first *)
| Plus (p : ascii → bool)           (* c+ for a class c, greedy *)
| Group (n : nat) (r : regex).      (* the n-th capturing group *)

(** One literal character, under [re.IGNORECASE] when [ic]. *)
Definition chr (ic : bool) (c : ascii) : ascii → bool :=
  fun x => if ic then Ascii.eqb (lower x) (lower c) else Ascii.eqb x c.

Fixpoint lit_chars (ic : bool) (s : chars) : regex :=
  match s with
  | [] => Eps
  | c :: s' => Seq (Class (chr ic c)) (lit_chars ic s')
  end.

Definition lit (ic : bool) (s : string) : regex :=
  lit_chars ic (list_ascii_of_string s).

(** The text of the groups matched so far. *)
Abbreviation groups := (gmap nat chars).

Section Matcher.
Context {A : Type}.

(** [c+], longest first: after one character of the class, first try to
    take more, and only when that fails go on with the rest. *)
Fixpoint plus_greedy (p : ascii → bool) (s : chars) (k : chars → option A)
  : option A :=
  match s with
  | c :: s' =>
      if p c then
        match plus_greedy p s' k with
        | Some a => Some a
        | None => k s'
        end
      else None
  | [] => None
  end.

(** Backtracking match of [r] at the head of [s]; [k] is what has to match
    after it, and gets the rest of the input and the groups. *)
Fixpoint match_here (r : regex) (s : chars) (g : groups)
    (k : chars → groups → option A) : option A :=
  match r with
  | Eps => k s g
  | Class p =>
      match s with
      | c :: s' => if p c then k s' g else None
      | [] => None
      end
  | Seq r1 r2 => match_here r1 s g (fun s' g' => match_here r2 s' g' k)
  | Alt r1 r2 =>
      match match_here r1 s g k with
      | Some a => Some a
      | None => match_here r2 s g k
      end
  | Plus p => plus_greedy p s (fun s' => k s' g)
  | Group n r1 =>
      match_here r1 s g
        (fun s' g' => k s' (<[n := take (length s - length s') s]> g'))
  end.
End Matcher.

(** [re.search(r, s)]: the match at the leftmost position that has one, as the
    groups of that match. *)
Fixpoint search_chars (r : regex) (s : chars) : option groups :=
  match match_here r s ∅ (fun _ g => Some g) with
  | Some g => Some g
  | None =>
      match s with
      | [] => None
      | _ :: s' => search_chars r s'
      end
  end.

Definition search (r : regex) (s : string) : option groups :=
  search_chars r (list_ascii_of_string s).

(** [m.group(n)]. *)
Definition group (m : groups) (n : nat) : chars := default [] (m !! n).

End Re.

(** ** The data of the program *)

(** A row of the requirements sheet, as [fetch_requirements_from_s3] hands it
    over: a dict with these keys. *)
Record RawRequirement : Type := {
  raw_Server_Name : string;
  raw_IP_Address : string;
  raw_CPU : string;
  raw_RAM : string;
  raw_Storage : string;
  raw_Database : string;
}.

(** An entry of [extract_cpu_ram]'s output. *)
Record Requirement : Type := {
  req_Server_Name : string;
  req_IP_Address : string;
  req_Storage : string;
  req_Database : string;
  req_CPU : Z;
  req_RAM : Z;
}.

(** A value of the catalog dict: capacity of an instance type. *)
Record Instance : Type := {
  vCPUs : Z;
  MemoryMiB : Z;
}.

(** The catalog: a dict from the instance type's name to its capacity, as the
    list of its items in iteration order. *)
Abbreviation Catalog := (list (string * Instance)).

(** The running [best_match] dict of the matcher. *)
Record BestMatch : Type := {
  bm_InstanceType : string;
  bm_vCPUs : Z;
  bm_MemoryMiB : Z;
}.

(** An entry of [find_best_match]'s output. *)
Record MatchedInstance : Type := {
  mi_Server_Name : string;
  mi_IP_Address : string;
  mi_CPU : Z;
  mi_RAM : Z;
  mi_InstanceType : string;
  mi_Storage : string;
  mi_Database : string;
}.

(** A matched entry after the handler has added its four cost columns. *)
Record PricedInstance : Type := {
  pi_matched : MatchedInstance;
  pi_Monthly_Cost : Py.val;
  pi_Monthly_Storage_Cost : Py.val;
  pi_Monthly_Database_Cost : Py.val;
  pi_Total_Pricing : Py.val;
}.

(** ** Effects: what the program does besides returning *)

Inductive event : Type :=
| FetchInstanceTypes
| FetchRequirements
| GetPrice (instance_type : string)
| Print (line : string)
| StoreResults (data : list PricedInstance)
| LogError (e : exn).

(** A computation that leaves a trace of events and returns or raises. *)
Record io (A : Type) : Type := IO {
  trace : list event;
  outcome : result A;
}.
Arguments IO {A} trace outcome.
Arguments trace {A} i.
Arguments outcome {A} i.

#[global] Instance io_ret : MRet io := fun A a => IO [] (Ok a).
#[global] Instance io_bind : MBind io := fun A B f m =>
  match outcome m with
  | Ok a => IO (trace m ++ trace (f a)) (outcome (f a))
  | Raise e => IO (trace m) (Raise e)
  end.

Definition emit (e : event) : io unit := IO [e] (Ok tt).
Definition lift {A : Type} (r : result A) : io A := IO [] r.

(** [for x in xs: st = body(st, x)], stopped by the first exception. *)
Fixpoint for_each {S X : Type} (body : S → X → io S) (xs : list X) (st : S) : io S :=
  match xs with
  | [] => mret st
  | x :: xs' => st' ← body st x; for_each body xs' st'
  end.

(** ** CostEstimationLambda.py *)

Module CostEstimationLambda.

(** [r'(\d+)\s+Cores'] *)
Definition cpu_pattern : Re.regex :=
  Re.Seq (Re.Group 1 (Re.Plus is_digit))
    (Re.Seq (Re.Plus is_space) (Re.lit false "Cores")).

(** [r'(\d+)GB'] *)
Definition ram_pattern : Re.regex :=
  Re.Seq (Re.Group 1 (Re.Plus is_digit)) (Re.lit false "GB").

(** [r'(\d+)(TB|GB)'] with [re.IGNORECASE] *)
Definition size_pattern : Re.regex :=
  Re.Seq (Re.Group 1 (Re.Plus is_digit))
    (Re.Group 2 (Re.Alt (Re.lit true "TB") (Re.lit true "GB"))).

(** [r'(SSD|HDD|NVMe)'] with [re.IGNORECASE] *)
Definition type_pattern : Re.regex :=
  Re.Group 1 (Re.Alt (Re.lit true "SSD") (Re.Alt (Re.lit true "HDD") (Re.lit true "NVMe"))).

(** The body of the loop of [extract_cpu_ram]: the entry appended for [req],
    if any. *)
Definition parse (req : RawRequirement) : option Requirement :=
  let cpu_match := Re.search cpu_pattern (raw_CPU req) in
  let ram_match := Re.search ram_pattern (raw_RAM req) in
  match cpu_match, ram_match with
  | Some cpu_match, Some ram_match =>
      Some {| req_Server_Name := raw_Server_Name req;
              req_IP_Address := raw_IP_Address req;
              req_Storage := raw_Storage req;
              req_Database := raw_Database req;
              req_CPU := int_of_digits (Re.group cpu_match 1);
              req_RAM := int_of_digits (Re.group ram_match 1) |}
  | _, _ => None
  end.

Definition extract_cpu_ram (requirements : list RawRequirement) : list Requirement :=
  fold_left
    (fun filtered_requirements req =>
       match parse req with
       | Some r => filtered_requirements ++ [r]
       | None => filtered_requirements
       end)
    requirements [].

(** The body of the inner loop of [find_best_match]: [best_match] after the
    catalog item [(instance_name, instance)]. *)
Definition consider (req : Requirement) (best_match : option BestMatch)
    (item : string * Instance) : option BestMatch :=
  let '(instance_name, instance) := item in
  if (vCPUs instance >=? req_CPU req) && (MemoryMiB instance >=? req_RAM req) then
    if match best_match with
       | None => true
       | Some best =>
           (vCPUs instance <? bm_vCPUs best) || (MemoryMiB instance <? bm_MemoryMiB best)
       end
    then Some {| bm_InstanceType := instance_name;
                 bm_vCPUs := vCPUs instance;
                 bm_MemoryMiB := MemoryMiB instance |}
    else best_match
  else best_match.

(** The inner loop: [best_match] for one requirement. *)
Definition best_match_for (req : Requirement) (ec2_instances : Catalog) : option BestMatch :=
  fold_left (consider req) ec2_instances None.

Definition find_best_match (filtered_data : list Requirement) (ec2_instances : Catalog)
  : list MatchedInstance :=
  fold_left
    (fun matched_instances req =>
       match best_match_for req ec2_instances with
       | Some best_match =>
           matched_instances ++
             [ {| mi_Server_Name := req_Server_Name req;
                  mi_IP_Address := req_IP_Address req;
                  mi_CPU := bm_vCPUs best_match;
                  mi_RAM := bm_MemoryMiB best_match;
                  mi_InstanceType := bm_InstanceType best_match;
                  mi_Storage := req_Storage req;
                  mi_Database := req_Database req |} ]
       | None => matched_instances
       end)
    filtered_data [].

Definition storage_cost_per_gb : gmap string float :=
  {[ "SSD" := 0.08%float; "HDD" := 0.045%float; "NVME" := 0.10%float ]}.

(** [size_value * 1024 if size_unit == "TB" else size_value] *)
Definition size_in_gb (size_value : Z) (size_unit : string) : Z :=
  if bool_decide (size_unit = "TB") then size_value * 1024 else size_value.

(** The body of the loop of [calculate_storage_cost]: [total_cost] after the
    item [storage]. *)
Definition storage_item (total_cost : Py.val) (storage : chars) : io Py.val :=
  let storage := strip storage in
  let size_match := Re.search_chars size_pattern storage in
  let type_match := Re.search_chars type_pattern storage in
  match size_match, type_match with
  | Some size_match, Some type_match =>
      let size_value := int_of_digits (Re.group size_match 1) in
      let size_unit := string_of_list_ascii (upper (Re.group size_match 2)) in
      let storage_type := string_of_list_ascii (upper (strip (Re.group type_match 1))) in
      let size_gb := size_in_gb size_value size_unit in
      match storage_cost_per_gb !! storage_type with
      | Some cost_per_gb =>
          lift (cost ← Py.mul (Py.Int size_gb) (Py.Float cost_per_gb);
                Py.add total_cost cost)
      | None => mret total_cost
      end
  | _, _ =>
      _ ← emit (Print (String.append "DEBUG: Skipping invalid storage entry: "
                         (string_of_list_ascii storage)));
      mret total_cost
  end.

Definition calculate_storage_cost (storage_str : string) : io Py.val :=
  let storage_items := split_plus (list_ascii_of_string storage_str) in
  total_cost ← for_each storage_item storage_items (Py.Int 0);
  lift (Py.round2 total_cost).

Definition database_cost_per_gb : gmap string float :=
  {[ "MySQL" := 0.10%float;
     "PostgreSQL" := 0.10%float;
     "Microsoft SQL Server" := 0.20%float;
     "Oracle Database" := 0.30%float;
     "Redis" := 0.15%float ]}.

Definition calculate_database_cost (database storage_str : string) : result Py.val :=
  if bool_decide (database = "None") || bool_decide (database_cost_per_gb !! database = None)
  then Ok (Py.Float 0)
  else
    match Re.search size_pattern storage_str with
    | None => Ok (Py.Float 0)
    | Some size_match =>
        let size_value := int_of_digits (Re.group size_match 1) in
        let size_unit := string_of_list_ascii (upper (Re.group size_match 2)) in
        let size_gb := size_in_gb size_value size_unit in
        match database_cost_per_gb !! database with
        | Some cost_per_gb =>
            total_cost ← Py.mul (Py.Int size_gb) (Py.Float cost_per_gb);
            Py.round2 total_cost
        | None => Raise KeyError
        end
    end.

(** What the handler gets from its collaborators.  Each field is the return
    value of the function of that name: the catalog dict ([{}] when the call
    failed), the rows of the sheet ([[]] when the fetch failed), the hourly
    price of an instance type ([None] when there is none), and whether the
    upload of the report worked. *)
Record Env : Type := {
  fetch_ec2_instance_types : Catalog;
  fetch_requirements_from_s3 : list RawRequirement;
  get_instance_price : string → option float;
  store_results_in_s3_csv : list PricedInstance → bool;
}.

(** The body the handler serialises with [json.dumps]. *)
Inductive message : Type :=
| Failed_to_fetch_requirements     (* "Failed to fetch requirements from S3." *)
| Failed_to_upload_CSV             (* "Failed to upload CSV results to S3." *)
| CSV_stored_successfully          (* f"CSV stored successfully at s3://..." *)
| Unexpected_error (e : exn).      (* f"Unexpected error: {e}" *)

Record Response : Type := {
  statusCode : Z;
  body : message;
}.

(** The body of the pricing loop of [lambda_handler]: the four columns added
    to one matched entry. *)
Definition price_instance (env : Env) (instance : MatchedInstance) : io PricedInstance :=
  let instance_type := mi_InstanceType instance in
  _ ← emit (GetPrice instance_type);
  let hourly_price := get_instance_price env instance_type in
  Monthly_Cost ←
    match hourly_price with
    | Some hourly_price =>
        lift (monthly_cost ← Py.mul (Py.Float hourly_price) (Py.Int 24);
              monthly_cost ← Py.mul monthly_cost (Py.Int 30);
              Py.round2 monthly_cost)
    | None => mret (Py.Str "Price Not Available")
    end;
  Monthly_Storage_Cost ← calculate_storage_cost (mi_Storage instance);
  Monthly_Database_Cost ←
    lift (calculate_database_cost (mi_Database instance) (mi_Storage instance));
  Total_Pricing ←
    lift (sum ← Py.add Monthly_Cost Monthly_Storage_Cost;
          sum ← Py.add sum Monthly_Database_Cost;
          Py.round2 sum);
  mret {| pi_matched := instance;
          pi_Monthly_Cost := Monthly_Cost;
          pi_Monthly_Storage_Cost := Monthly_Storage_Cost;
          pi_Monthly_Database_Cost := Monthly_Database_Cost;
          pi_Total_Pricing := Total_Pricing |}.

(** [for instance in matched_instances: ...]: every entry priced in turn. *)
Definition price_all (env : Env) (matched_instances : list MatchedInstance)
  : io (list PricedInstance) :=
  for_each
    (fun priced instance => p ← price_instance env instance; mret (priced ++ [p]))
    matched_instances [].

(** [try: ... except Exception as e: ...] of the handler. *)
Definition try_except (m : io Response) : io Response :=
  match outcome m with
  | Ok r => m
  | Raise e =>
      IO (trace m ++ [LogError e])
         (Ok {| statusCode := 500; body := Unexpected_error e |})
  end.

(** [lambda_handler(event, context)]; neither argument is read. *)
Definition lambda_handler (env : Env) : io Response :=
  try_except
    (_ ← emit FetchInstanceTypes;
     let ec2_instances := fetch_ec2_instance_types env in
     _ ← emit FetchRequirements;
     let requirements := fetch_requirements_from_s3 env in
     match requirements with
     | [] => mret {| statusCode := 500; body := Failed_to_fetch_requirements |}
     | _ :: _ =>
         let filtered_data := extract_cpu_ram requirements in
         let matched_instances := find_best_match filtered_data ec2_instances in
         priced ← price_all env matched_instances;
         _ ← emit (StoreResults priced);
         let success := store_results_in_s3_csv env priced in
         if negb success
         then mret {| statusCode := 500; body := Failed_to_upload_CSV |}
         else mret {| statusCode := 200; body := CSV_stored_successfully |}
     end).

End CostEstimationLambda.

(** ** EC2CostEstimation-Lambda.py: the variant without storage and database *)

Module EC2CostEstimation.

(** An entry of this file's [extract_cpu_ram]: four keys. *)
Record Requirement : Type := {
  req_Server_Name : string;
  req_IP_Address : string;
  req_CPU : Z;
  req_RAM : Z;
}.

(** The body of the loop of [extract_cpu_ram]. *)
Definition parse (req : RawRequirement) : option Requirement :=
  let cpu_match := Re.search CostEstimationLambda.cpu_pattern (raw_CPU req) in
  let ram_match := Re.search CostEstimationLambda.ram_pattern (raw_RAM req) in
  match cpu_match, ram_match with
  | Some cpu_match, Some ram_match =>
      Some {| req_Server_Name := raw_Server_Name req;
              req_IP_Address := raw_IP_Address req;
              req_CPU := int_of_digits (Re.group cpu_match 1);
              req_RAM := int_of_digits (Re.group ram_match 1) |}
  | _, _ => None
  end.

Definition extract_cpu_ram (requirements : list RawRequirement) : list Requirement :=
  fold_left
    (fun filtered_requirements req =>
       match parse req with
       | Some r => filtered_requirements ++ [r]
       | None => filtered_requirements
       end)
    requirements [].

(** The body of the pricing loop of this file's [lambda_handler], which is
    one assignment: the value stored as [Monthly Cost]. *)
Definition monthly_cost (hourly_price : option float) : result Py.val :=
  match hourly_price with
  | Some hourly_price =>
      cost ← Py.mul (Py.Float hourly_price) (Py.Int 24);
      cost ← Py.mul cost (Py.Int 30);
      Py.round2 cost
  | None => Ok (Py.Str "Price Not Available")
  end.

End EC2CostEstimation.

(** ** The records as the dicts they are in the source *)

Definition raw_dict (req : RawRequirement) : gmap string Py.val :=
  {[ "Server Name" := Py.Str (raw_Server_Name req);
     "IP Address" := Py.Str (raw_IP_Address req);
     "CPU" := Py.Str (raw_CPU req);
     "RAM" := Py.Str (raw_RAM req);
     "Storage" := Py.Str (raw_Storage req);
     "Database" := Py.Str (raw_Database req) ]}.

Definition req_dict (r : Requirement) : gmap string Py.val :=
  {[ "Server Name" := Py.Str (req_Server_Name r);
     "IP Address" := Py.Str (req_IP_Address r);
     "Storage" := Py.Str (req_Storage r);
     "Database" := Py.Str (req_Database r);
     "CPU" := Py.Int (req_CPU r);
     "RAM" := Py.Int (req_RAM r) ]}.

Definition ec2_req_dict (r : EC2CostEstimation.Requirement) : gmap string Py.val :=
  {[ "Server Name" := Py.Str (EC2CostEstimation.req_Server_Name r);
     "IP Address" := Py.Str (EC2CostEstimation.req_IP_Address r);
     "CPU" := Py.Int (EC2CostEstimation.req_CPU r);
     "RAM" := Py.Int (EC2CostEstimation.req_RAM r) ]}.

(** ** The matcher, in the words of its specification *)

Import CostEstimationLambda.

(** An instance satisfies a requirement. *)
Definition qualifies (req : Requirement) (instance : Instance) : bool :=
  (req_CPU req <=? vCPUs instance) && (req_RAM req <=? MemoryMiB instance).

Definition as_best (item : string * Instance) : BestMatch :=
  {| bm_InstanceType := item.1;
     bm_vCPUs := vCPUs item.2;
     bm_MemoryMiB := MemoryMiB item.2 |}.

(** A later qualifying instance replaces the best: fewer vCPUs, or less
    memory. *)
Definition replaces (instance : Instance) (best : BestMatch) : bool :=
  (vCPUs instance <? bm_vCPUs best) || (MemoryMiB instance <? bm_MemoryMiB best).

(** The running best carried over the rest of the catalog. *)
Fixpoint improve (req : Requirement) (best : BestMatch) (later : Catalog) : BestMatch :=
  match later with
  | [] => best
  | item :: rest =>
      if qualifies req item.2 && replaces item.2 best
      then improve req (as_best item) rest
      else improve req best rest
  end.

(** Start from the first qualifying instance; [None] when there is none. *)
Fixpoint match_spec (req : Requirement) (catalog : Catalog) : option BestMatch :=
  match catalog with
  | [] => None
  | item :: rest =>
      if qualifies req item.2 then Some (improve req (as_best item) rest)
      else match_spec req rest
  end.

(** The entry [find_best_match] appends for [req], if any. *)
Definition matched_entry (catalog : Catalog) (req : Requirement) : option MatchedInstance :=
  match best_match_for req catalog with
  | Some best_match =>
      Some {| mi_Server_Name := req_Server_Name req;
              mi_IP_Address := req_IP_Address req;
              mi_CPU := bm_vCPUs best_match;
              mi_RAM := bm_MemoryMiB best_match;
              mi_InstanceType := bm_InstanceType best_match;
              mi_Storage := req_Storage req;
              mi_Database := req_Database req |}
  | None => None
  end.

(** A number, as opposed to a [str]. *)
Definition is_number (v : Py.val) : Prop :=
  match v with
  | Py.Int _ | Py.Float _ => True
  | Py.Str _ => False
  end.

(** The events the pricing loop can leave: price lookups and diagnostics. *)
Definition pricing_event (e : event) : Prop :=
  match e with
  | GetPrice _ | Print _ => True
  | _ => False
  end.

(** A fleet of one server, an instance type that fits it, and no price for
    that type. *)
Definition one_server : RawRequirement :=
  {| raw_Server_Name := "srv1"; raw_IP_Address := "10.0.0.1";
     raw_CPU := "2 Cores"; raw_RAM := "4GB";
     raw_Storage := "100GB SSD"; raw_Database := "None" |}.

Definition env_without_price : Env :=
  {| fetch_ec2_instance_types := [("t3.medium"%string, {| vCPUs := 2; MemoryMiB := 4 |})];
     fetch_requirements_from_s3 := [one_server];
     get_instance_price := λ _, None;
     store_results_in_s3_csv := λ _, true |}.

(** ** The patterns read in one pass *)

(** [s] starts with the literal [l] (letters compared without case when
    [ic]). *)
Fixpoint starts_with (ic : bool) (l s : chars) : bool :=
  match l with
  | [] => true
  | c :: l' =>
      match s with
      | x :: s' => Re.chr ic c x && starts_with ic l' s'
      | [] => false
      end
  end.

(** The first position of [s], from the left, where [f] finds something. *)
Fixpoint find_first {B : Type} (f : chars → option B) (s : chars) : option B :=
  match f s with
  | Some b => Some b
  | None =>
      match s with
      | [] => None
      | _ :: s' => find_first f s'
      end
  end.

(** A run of digits at the head of [s], then blanks, then [Cores]: the
    digits. *)
Definition cpu_at (s : chars) : option chars :=
  match take_while is_digit s with
  | [] => None
  | d =>
      let r := drop_while is_digit s in
      match take_while is_space r with
      | [] => None
      | _ => if starts_with false (list_ascii_of_string "Cores") (drop_while is_space r)
             then Some d else None
      end
  end.

(** A run of digits at the head of [s], then [GB]: the digits. *)
Definition ram_at (s : chars) : option chars :=
  match take_while is_digit s with
  | [] => None
  | d => if starts_with false (list_ascii_of_string "GB") (drop_while is_digit s)
         then Some d else None
  end.

(** A run of digits at the head of [s], then [TB] or [GB] in any case: the
    digits and the unit as written. *)
Definition size_at (s : chars) : option (chars * chars) :=
  match take_while is_digit s with
  | [] => None
  | d =>
      let r := drop_while is_digit s in
      if starts_with true (list_ascii_of_string "TB") r
         || starts_with true (list_ascii_of_string "GB") r
      then Some (d, take 2 r) else None
  end.

(** [SSD], [HDD] or [NVMe] in any case at the head of [s], as written. *)
Definition type_at (s : chars) : option chars :=
  if starts_with true (list_ascii_of_string "SSD") s then Some (take 3 s)
  else if starts_with true (list_ascii_of_string "HDD") s then Some (take 3 s)
  else if starts_with true (list_ascii_of_string "NVMe") s then Some (take 4 s)
  else None.

(** ** Occurrences of the patterns, stated on the text *)

(** One or more digits. *)
Definition digits (d : chars) : Prop :=
  d ≠ [] ∧ Forall (λ c, is_digit c = true) d.

(** One or more whitespace characters. *)
Definition blanks (w : chars) : Prop :=
  w ≠ [] ∧ Forall (λ c, is_space c = true) w.

(** [u] is the word [l] up to the case of its letters. *)
Definition spells (l : string) (u : chars) : Prop :=
  map lower u = map lower (list_ascii_of_string l).

#[global] Instance spells_dec (l : string) (u : chars) : Decision (spells l u) :=
  decide (map lower u = map lower (list_ascii_of_string l)).

(** [rest] begins with digits, whitespace and the word [Cores]. *)
Definition cpu_head (rest d : chars) : Prop :=
  ∃ w post, rest = d ++ w ++ list_ascii_of_string "Cores" ++ post ∧ digits d ∧ blanks w.

(** [rest] begins with digits immediately followed by [GB]. *)
Definition ram_head (rest d : chars) : Prop :=
  ∃ post, rest = d ++ list_ascii_of_string "GB" ++ post ∧ digits d.

(** [rest] begins with digits immediately followed by a unit, [TB] or [GB] in
    any case. *)
Definition size_head (rest : chars) (du : chars * chars) : Prop :=
  ∃ post, rest = du.1 ++ du.2 ++ post ∧ digits du.1 ∧ (spells "TB" du.2 ∨ spells "GB" du.2).

(** [rest] begins with a storage type, [SSD], [HDD] or [NVMe] in any case. *)
Definition type_head (rest t : chars) : Prop :=
  ∃ post, rest = t ++ post ∧ (spells "SSD" t ∨ spells "HDD" t ∨ spells "NVMe" t).

Section Occurrences.
Context {B : Type} (head : chars → B → Prop).

(** The pattern occurs in [s] right after [pre], with groups [b]. *)
Definition occurs_at (s pre : chars) (b : B) : Prop :=
  ∃ rest, s = pre ++ rest ∧ head rest b.

(** The pattern occurs somewhere in [s]. *)
Definition occurs (s : chars) : Prop :=
  ∃ pre b, occurs_at s pre b.

(** [b] is the first occurrence in [s]: no occurrence starts further left. *)
Definition first_occurrence (s : chars) (b : B) : Prop :=
  ∃ pre, occurs_at s pre b
         ∧ ∀ pre' b', occurs_at s pre' b' → (length pre <= length pre')%nat.
End Occurrences.

(** ** The costs, in the words of their specification *)

(** A size in gigabytes: 1 TB = 1024 GB. *)
Definition gigabytes (n : Z) (unit : chars) : Z :=
  if bool_decide (spells "TB" unit) then n * 1024 else n.

(** The database kinds with a rate, in USD per gigabyte and month. *)
Definition database_rates : list (string * float) :=
  [ ("MySQL"%string, 0.10%float);
    ("PostgreSQL"%string, 0.10%float);
    ("Microsoft SQL Server"%string, 0.20%float);
    ("Oracle Database"%string, 0.30%float);
    ("Redis"%string, 0.15%float) ].

(** The storage types and their rates, in USD per gigabyte and month. *)
Definition storage_rate (type : chars) : float :=
  if bool_decide (spells "SSD" type) then 0.08%float
  else if bool_decide (spells "HDD" type) then 0.045%float
  else 0.10%float (* NVMe *).

(** What a component says, when it says both a size and a type: the digits
    and the unit of the first size in it, and the first type in it. *)
Definition read_component (component : chars) : option (chars * chars * chars) :=
  match find_first size_at (strip component), find_first type_at (strip component) with
  | Some (d, unit), Some type => Some (d, unit, type)
  | _, _ => None
  end.

(** The cost of a valid component: its gigabytes times the rate of its
    type. *)
Definition component_cost (c : chars * chars * chars) : result Py.val :=
  let '(d, unit, type) := c in
  Py.mul (Py.Int (gigabytes (int_of_digits d) unit)) (Py.Float (storage_rate type)).

(** The costs of the components added up, in order, onto [total]. *)
Fixpoint add_costs (total : Py.val) (components : list (chars * chars * chars))
  : result Py.val :=
  match components with
  | [] => Ok total
  | c :: rest =>
      cost ← component_cost c;
      total' ← Py.add total cost;
      add_costs total' rest
  end.

(** Split on the plus signs, keep the valid components, add up their costs
    from 0, round to two decimals. *)
Definition storage_cost_spec (storage_str : string) : result Py.val :=
  let components := split_plus (list_ascii_of_string storage_str) in
  total ← add_costs (Py.Int 0) (omap read_component components);
  Py.round2 total.

(** The line printed for a skipped component. *)
Definition skip_message (component : chars) : event :=
  Print (String.append "DEBUG: Skipping invalid storage entry: "
           (string_of_list_ascii (strip component))).

(** The grammar of a component: an integer, a unit, optional whitespace, a
    type. *)
Definition component_grammar (g d unit type : chars) : Prop :=
  ∃ w, g = d ++ unit ++ w ++ type
       ∧ digits d
       ∧ (spells "TB" unit ∨ spells "GB" unit)
       ∧ Forall (λ c, is_space c = true) w
       ∧ (spells "SSD" type ∨ spells "HDD" type ∨ spells "NVMe" type).

(** The grammar matches some part of the component. *)
Definition component_grammar_within (component : chars) : Prop :=
  ∃ pre g post d unit type,
    component = pre ++ g ++ post ∧ component_grammar g d unit type.

(** The first letter of a storage type, in either case. *)
Definition type_initial (c : ascii) : bool :=
  Ascii.eqb (lower c) "s" || Ascii.eqb (lower c) "h" || Ascii.eqb (lower c) "n".

(** ** fetch_ec2_instance_types: the catalog built from the API answer *)

Module Fetch.

(** An element of [response['InstanceTypes']], with the three values the loop
    reads; [None] stands for a key that is missing. *)
Record InstanceTypeInfo : Type := {
  InstanceType : option string;
  DefaultVCpus : option Z;
  SizeInMiB : option Z;
}.

(** [d[key] = value] on a dict kept as the list of its items: the value of a
    key already there is replaced where it stands, a new key goes to the
    end. *)
Fixpoint dict_set (d : Catalog) (key : string) (value : Instance) : Catalog :=
  match d with
  | [] => [(key, value)]
  | (k, v) :: d' =>
      if bool_decide (k = key) then (key, value) :: d'
      else (k, v) :: dict_set d' key value
  end.

(** [d.get(key)]. *)
Fixpoint dict_get (d : Catalog) (key : string) : option Instance :=
  match d with
  | [] => None
  | (k, v) :: d' => if bool_decide (k = key) then Some v else dict_get d' key
  end.

(** The body of the loop: one assignment into [instance_data]. *)
Definition add_instance (instance_data : Catalog) (instance : InstanceTypeInfo)
  : result Catalog :=
  match DefaultVCpus instance, SizeInMiB instance, InstanceType instance with
  | Some vcpus, Some mib, Some name =>
      Ok (dict_set instance_data name {| vCPUs := vcpus; MemoryMiB := mib / 1024 |})
  | _, _, _ => Raise KeyError
  end.

(** [for instance in response['InstanceTypes']: ...] *)
Fixpoint build (instances : list InstanceTypeInfo) (instance_data : Catalog)
  : result Catalog :=
  match instances with
  | [] => Ok instance_data
  | instance :: rest =>
      instance_data' ← add_instance instance_data instance;
      build rest instance_data'
  end.

(** [fetch_ec2_instance_types()], given what [describe_instance_types]
    answers or raises: any exception is logged and gives the empty dict. *)
Definition fetch_ec2_instance_types
    (describe_instance_types : result (list InstanceTypeInfo)) : io Catalog :=
  match response ← describe_instance_types; build response [] with
  | Ok instance_data => IO [] (Ok instance_data)
  | Raise e => IO [LogError e] (Ok [])
  end.

End Fetch.

(** What a priced entry holds, when the pricing of a matched entry returns. *)
Definition priced_from (env : Env) (instance : MatchedInstance) (p : PricedInstance) : Prop :=
  pi_matched p = instance
  ∧ (∃ hourly_price,
       get_instance_price env (mi_InstanceType instance) = Some hourly_price
       ∧ pi_Monthly_Cost p = Py.Float (Py.round_float2 (hourly_price * 24 * 30)))
  ∧ outcome (calculate_storage_cost (mi_Storage instance)) = Ok (pi_Monthly_Storage_Cost p)
  ∧ calculate_database_cost (mi_Database instance) (mi_Storage instance)
    = Ok (pi_Monthly_Database_Cost p)
  ∧ (sum ← Py.add (pi_Monthly_Cost p) (pi_Monthly_Storage_Cost p);
     sum ← Py.add sum (pi_Monthly_Database_Cost p);
     Py.round2 sum) = Ok (pi_Total_Pricing p).

(** The diagnostic lines of the components that are skipped, in order. *)
Definition skipped_lines (components : list chars) : list event :=
  omap (λ c, match read_component c with
             | None => Some (skip_message c)
             | Some _ => None
             end) components.

(** The item the loop of [fetch_ec2_instance_types] writes for one
    description: its name, its vCPUs and its memory in whole units of 1024
    MiB; none when a key is missing. *)
Definition catalog_entry (info : Fetch.InstanceTypeInfo) : option (string * Instance) :=
  match Fetch.DefaultVCpus info, Fetch.SizeInMiB info, Fetch.InstanceType info with
  | Some vcpus, Some mib, Some name => Some (name, {| vCPUs := vcpus; MemoryMiB := mib / 1024 |})
  | _, _, _ => None
  end.

(** The capacity of the last description of [name] in the answer. *)
Definition last_described (infos : list Fetch.InstanceTypeInfo) (name : string)
  : option Instance :=
  fold_left
    (λ found info,
       match catalog_entry info with
       | Some (n, instance) => if bool_decide (n = name) then Some instance else found
       | None => found
       end)
    infos None.

(** The names of a list, each once, in the order of their first
    appearance. *)
Definition first_appearances (names : list string) : list string :=
  fold_left (λ seen n, if bool_decide (n ∈ seen) then seen else seen ++ [n]) names [].

(** The size of a counted component is too large for a float. *)
Definition overflows (c : chars * chars * chars) : Prop :=
  Py.float_of_int (gigabytes (int_of_digits c.1.1) c.1.2) = Raise OverflowError.

(** A running total of the storage loop: the initial [0] or a float. *)
Definition running_total (v : Py.val) : Prop :=
  v = Py.Int 0 ∨ ∃ x, v = Py.Float x.

(** ** The program on any sheet, under the interpreter's limit on [int]

    The modules above read a row of the sheet as six strings and take
    [int(s)] without its limit.  Here a row is the dict that
    [fetch_requirements_from_s3] hands over, whatever its keys and cells,
    and [int(s)] raises beyond the default limit: the parsers of both files
    can then raise, as can the two cost functions. *)

Module Raw.

(** A row of the sheet: a dict from the names of the columns to the cells.  A
    cell is a [str] or a number (an empty cell is the float [nan]). *)
Abbreviation Row := (gmap string Py.val).

(** [req[key]] *)
Definition getitem (req : Row) (key : string) : result Py.val :=
  match req !! key with
  | Some cell => Ok cell
  | None => Raise KeyError
  end.

(** [re.search(pattern, cell)]: [TypeError] for a cell that is no [str]. *)
Definition re_search (pattern : Re.regex) (cell : Py.val) : result (option Re.groups) :=
  match cell with
  | Py.Str s => Ok (Re.search pattern s)
  | _ => Raise TypeError
  end.

(** [sys.int_info.default_max_str_digits] *)
Definition max_str_digits : Z := 4300.

(** [int(s)] for a run of decimal digits: [ValueError] when the run has more
    than [max_str_digits] characters, leading zeros counted. *)
Definition int_of_str (s : chars) : result Z :=
  if max_str_digits <? Z.of_nat (length s) then Raise ValueError
  else Ok (int_of_digits s).

(** [for x in xs: st = body(st, x)], stopped by the first exception, for a
    body that leaves no trace. *)
Fixpoint loop {S X : Type} (body : S → X → result S) (xs : list X) (st : S) : result S :=
  match xs with
  | [] => Ok st
  | x :: xs' => st' ← body st x; loop body xs' st'
  end.

(** *** CostEstimationLambda.py *)

Module Main.

(** An entry of [extract_cpu_ram]'s output: four cells passed through, two
    integers. *)
Record Requirement : Type := {
  req_Server_Name : Py.val;
  req_IP_Address : Py.val;
  req_Storage : Py.val;
  req_Database : Py.val;
  req_CPU : Z;
  req_RAM : Z;
}.

(** The body of the loop of [extract_cpu_ram] (lines 57-68): the entry
    appended for [req], if any.  The values of the dict are evaluated in the
    order in which they are written. *)
Definition parse (req : Row) : result (option Requirement) :=
  cpu ← getitem req "CPU";
  cpu_match ← re_search cpu_pattern cpu;
  ram ← getitem req "RAM";
  ram_match ← re_search ram_pattern ram;
  match cpu_match, ram_match with
  | Some cpu_match, Some ram_match =>
      server_name ← getitem req "Server Name";
      ip_address ← getitem req "IP Address";
      storage ← getitem req "Storage";
      database ← getitem req "Database";
      cpu ← int_of_str (Re.group cpu_match 1);
      ram ← int_of_str (Re.group ram_match 1);
      Ok (Some {| req_Server_Name := server_name;
                  req_IP_Address := ip_address;
                  req_Storage := storage;
                  req_Database := database;
                  req_CPU := cpu;
                  req_RAM := ram |})
  | _, _ => Ok None
  end.

Definition extract_cpu_ram (requirements : list Row) : result (list Requirement) :=
  loop
    (fun filtered_requirements req =>
       r ← parse req;
       Ok match r with
          | Some r => filtered_requirements ++ [r]
          | None => filtered_requirements
          end)
    requirements [].

(** The body of the loop of [calculate_storage_cost] (lines 136-154). *)
Definition storage_item (total_cost : Py.val) (storage : chars) : io Py.val :=
  let storage := strip storage in
  let size_match := Re.search_chars size_pattern storage in
  let type_match := Re.search_chars type_pattern storage in
  match size_match, type_match with
  | Some size_match, Some type_match =>
      size_value ← lift (int_of_str (Re.group size_match 1));
      let size_unit := string_of_list_ascii (upper (Re.group size_match 2)) in
      let storage_type := string_of_list_ascii (upper (strip (Re.group type_match 1))) in
      let size_gb := size_in_gb size_value size_unit in
      match storage_cost_per_gb !! storage_type with
      | Some cost_per_gb =>
          lift (cost ← Py.mul (Py.Int size_gb) (Py.Float cost_per_gb);
                Py.add total_cost cost)
      | None => mret total_cost
      end
  | _, _ =>
      _ ← emit (Print (String.append "DEBUG: Skipping invalid storage entry: "
                         (string_of_list_ascii storage)));
      mret total_cost
  end.

Definition calculate_storage_cost (storage_str : string) : io Py.val :=
  let storage_items := split_plus (list_ascii_of_string storage_str) in
  total_cost ← for_each storage_item storage_items (Py.Int 0);
  lift (Py.round2 total_cost).

Definition calculate_database_cost (database storage_str : string) : result Py.val :=
  if bool_decide (database = "None") || bool_decide (database_cost_per_gb !! database = None)
  then Ok (Py.Float 0)
  else
    match Re.search size_pattern storage_str with
    | None => Ok (Py.Float 0)
    | Some size_match =>
        size_value ← int_of_str (Re.group size_match 1);
        let size_unit := string_of_list_ascii (upper (Re.group size_match 2)) in
        let size_gb := size_in_gb size_value size_unit in
        match database_cost_per_gb !! database with
        | Some cost_per_gb =>
            total_cost ← Py.mul (Py.Int size_gb) (Py.Float cost_per_gb);
            Py.round2 total_cost
        | None => Raise KeyError
        end
    end.

End Main.

(** *** EC2CostEstimation-Lambda.py *)

Module Variant.

(** An entry of this file's [extract_cpu_ram]: two cells passed through, two
    integers. *)
Record Requirement : Type := {
  req_Server_Name : Py.val;
  req_IP_Address : Py.val;
  req_CPU : Z;
  req_RAM : Z;
}.

(** The body of the loop of [extract_cpu_ram] (lines 56-65). *)
Definition parse (req : Row) : result (option Requirement) :=
  cpu ← getitem req "CPU";
  cpu_match ← re_search cpu_pattern cpu;
  ram ← getitem req "RAM";
  ram_match ← re_search ram_pattern ram;
  match cpu_match, ram_match with
  | Some cpu_match, Some ram_match =>
      server_name ← getitem req "Server Name";
      ip_address ← getitem req "IP Address";
      cpu ← int_of_str (Re.group cpu_match 1);
      ram ← int_of_str (Re.group ram_match 1);
      Ok (Some {| req_Server_Name := server_name;
                  req_IP_Address := ip_address;
                  req_CPU := cpu;
                  req_RAM := ram |})
  | _, _ => Ok None
  end.

Definition extract_cpu_ram (requirements : list Row) : result (list Requirement) :=
  loop
    (fun filtered_requirements req =>
       r ← parse req;
       Ok match r with
          | Some r => filtered_requirements ++ [r]
          | None => filtered_requirements
          end)
    requirements [].

(** The body of the inner loop of [find_best_match] (lines 75-81). *)
Definition consider (req : Requirement) (best_match : option BestMatch)
    (item : string * Instance) : option BestMatch :=
  let '(instance_name, instance) := item in
  if (vCPUs instance >=? req_CPU req) && (MemoryMiB instance >=? req_RAM req) then
    if match best_match with
       | None => true
       | Some best =>
           (vCPUs instance <? bm_vCPUs best) || (MemoryMiB instance <? bm_MemoryMiB best)
       end
    then Some {| bm_InstanceType := instance_name;
                 bm_vCPUs := vCPUs instance;
                 bm_MemoryMiB := MemoryMiB instance |}
    else best_match
  else best_match.

Definition best_match_for (req : Requirement) (ec2_instances : Catalog) : option BestMatch :=
  fold_left (consider req) ec2_instances None.

(** An entry of [find_best_match]'s output: the two cells passed through,
    then the keys of [best_match]. *)
Record MatchedInstance : Type := {
  mi_Server_Name : Py.val;
  mi_IP_Address : Py.val;
  mi_InstanceType : string;
  mi_vCPUs : Z;
  mi_MemoryMiB : Z;
}.

Definition find_best_match (filtered_data : list Requirement) (ec2_instances : Catalog)
  : list MatchedInstance :=
  fold_left
    (fun matched_instances req =>
       match best_match_for req ec2_instances with
       | Some best_match =>
           matched_instances ++
             [ {| mi_Server_Name := req_Server_Name req;
                  mi_IP_Address := req_IP_Address req;
                  mi_InstanceType := bm_InstanceType best_match;
                  mi_vCPUs := bm_vCPUs best_match;
                  mi_MemoryMiB := bm_MemoryMiB best_match |} ]
       | None => matched_instances
       end)
    filtered_data [].

(** A matched entry with its [Monthly Cost] column. *)
Record PricedInstance : Type := {
  pi_matched : MatchedInstance;
  pi_Monthly_Cost : Py.val;
}.

(** What the handler gets from its collaborators, each of which turns its own
    failures into a return value. *)
Record Env : Type := {
  fetch_ec2_instance_types : Catalog;
  fetch_requirements_from_s3 : list Row;
  get_instance_price : string → option float;
  store_results_in_s3_csv : list PricedInstance → bool;
}.

(** What the handler does besides returning. *)
Inductive event : Type :=
| FetchInstanceTypes
| FetchRequirements
| GetPrice (instance_type : string)
| StoreResults (data : list PricedInstance)
| LogError (e : exn).

(** The pricing loop (lines 158-160): the events it leaves, and the priced
    entries unless an iteration raised. *)
Fixpoint price_all (env : Env) (matched_instances : list MatchedInstance)
  : list event * result (list PricedInstance) :=
  match matched_instances with
  | [] => ([], Ok [])
  | instance :: rest =>
      let hourly_price := get_instance_price env (mi_InstanceType instance) in
      match EC2CostEstimation.monthly_cost hourly_price with
      | Ok cost =>
          let '(events, priced) := price_all env rest in
          (GetPrice (mi_InstanceType instance) :: events,
           match priced with
           | Ok priced =>
               Ok ({| pi_matched := instance; pi_Monthly_Cost := cost |} :: priced)
           | Raise e => Raise e
           end)
      | Raise e => ([GetPrice (mi_InstanceType instance)], Raise e)
      end
  end.

(** The body of the [try] of [lambda_handler] (lines 146-167): the events it
    leaves, and the answer unless a statement raised. *)
Definition handle (env : Env) : list event * result Response :=
  let ec2_instances := fetch_ec2_instance_types env in
  let requirements := fetch_requirements_from_s3 env in
  match requirements with
  | [] =>
      ([FetchInstanceTypes; FetchRequirements],
       Ok {| statusCode := 500; body := Failed_to_fetch_requirements |})
  | _ :: _ =>
      match extract_cpu_ram requirements with
      | Ok filtered_data =>
          let matched_instances := find_best_match filtered_data ec2_instances in
          match price_all env matched_instances with
          | (events, Ok priced) =>
              ([FetchInstanceTypes; FetchRequirements] ++ events ++ [StoreResults priced],
               Ok (if negb (store_results_in_s3_csv env priced)
                   then {| statusCode := 500; body := Failed_to_upload_CSV |}
                   else {| statusCode := 200; body := CSV_stored_successfully |}))
          | (events, Raise e) =>
              ([FetchInstanceTypes; FetchRequirements] ++ events, Raise e)
          end
      | Raise e => ([FetchInstanceTypes; FetchRequirements], Raise e)
      end
  end.

(** [lambda_handler(event, context)]: [except Exception as e] logs the
    exception and answers 500 with it. *)
Definition lambda_handler (env : Env) : list event * Response :=
  match handle env with
  | (events, Ok response) => (events, response)
  | (events, Raise e) =>
      (events ++ [LogError e], {| statusCode := 500; body := Unexpected_error e |})
  end.

End Variant.

End Raw.

(** ** Rows and sizes, stated on the sheet *)

(** A run of digits that [int] converts: at most 4300 characters. *)
Definition within_limit (d : chars) : Prop :=
  Z.of_nat (length d) <= Raw.max_str_digits.

(** The CPU and the RAM cell of a row are strings, and both hold their
    pattern: [d] and [d'] are the digits of the first core count and of the
    first memory size. *)
Definition row_counts (req : Raw.Row) (d d' : chars) : Prop :=
  ∃ cpu ram,
    req !! "CPU"%string = Some (Py.Str cpu)
    ∧ req !! "RAM"%string = Some (Py.Str ram)
    ∧ first_occurrence cpu_head (list_ascii_of_string cpu) d
    ∧ first_occurrence ram_head (list_ascii_of_string ram) d'.

(** A row that [EC2CostEstimation-Lambda.py] can read: its CPU and RAM cells
    are strings, and where both hold their pattern the row has a server name
    and an address, and the two runs of digits are within the limit. *)
Definition readable (req : Raw.Row) : Prop :=
  (∃ cpu ram, req !! "CPU"%string = Some (Py.Str cpu)
              ∧ req !! "RAM"%string = Some (Py.Str ram))
  ∧ ∀ d d', row_counts req d d' →
      is_Some (req !! "Server Name"%string)
      ∧ is_Some (req !! "IP Address"%string)
      ∧ within_limit d ∧ within_limit d'.

(** A row with its Storage and its Database cell. *)
Definition has_storage_and_database (req : Raw.Row) : Prop :=
  is_Some (req !! "Storage"%string) ∧ is_Some (req !! "Database"%string).

(** An entry of the main file with the keys the variant keeps. *)
Definition without_storage (r : Raw.Main.Requirement) : Raw.Variant.Requirement :=
  {| Raw.Variant.req_Server_Name := Raw.Main.req_Server_Name r;
     Raw.Variant.req_IP_Address := Raw.Main.req_IP_Address r;
     Raw.Variant.req_CPU := Raw.Main.req_CPU r;
     Raw.Variant.req_RAM := Raw.Main.req_RAM r |}.

(** An entry of the six-string model as the entry of cells it stands for. *)
Definition as_cells (r : Requirement) : Raw.Main.Requirement :=
  {| Raw.Main.req_Server_Name := Py.Str (req_Server_Name r);
     Raw.Main.req_IP_Address := Py.Str (req_IP_Address r);
     Raw.Main.req_Storage := Py.Str (req_Storage r);
     Raw.Main.req_Database := Py.Str (req_Database r);
     Raw.Main.req_CPU := req_CPU r;
     Raw.Main.req_RAM := req_RAM r |}.

(** A row of six strings whose core count and memory size are within the
    limit of [int]. *)
Definition counts_within_limit (req : RawRequirement) : Prop :=
  ∀ d d',
    first_occurrence cpu_head (list_ascii_of_string (raw_CPU req)) d →
    first_occurrence ram_head (list_ascii_of_string (raw_RAM req)) d' →
    within_limit d ∧ within_limit d'.

(** The record the variant's handler uploads for a matched entry: its monthly
    cost is the rounded price of 24 * 30 hours, or the sentinel when there is
    no price. *)
Definition variant_record (env : Raw.Variant.Env)
    (m : Raw.Variant.MatchedInstance) : Raw.Variant.PricedInstance :=
  {| Raw.Variant.pi_matched := m;
     Raw.Variant.pi_Monthly_Cost :=
       match Raw.Variant.get_instance_price env (Raw.Variant.mi_InstanceType m) with
       | Some hourly_price => Py.Float (Py.round_float2 (hourly_price * 24 * 30))
       | None => Py.Str "Price Not Available"
       end |}.

(** A storage text whose size has 4301 digits. *)
Definition endless_storage : string :=
  String.append (string_of_list_ascii (repeat "1"%char 4301)) "GB SSD".

(** The size of a counted component can be converted: its digits are within
    the limit of [int], and its gigabytes within the range of a float. *)
Definition converts (c : chars * chars * chars) : Prop :=
  within_limit c.1.1 ∧ ¬ overflows c.

(** How the conversion of the size of a counted component fails: in [int],
    or else in the product with the rate, a float. *)
Definition fails_with (c : chars * chars * chars) (e : exn) : Prop :=
  (¬ within_limit c.1.1 ∧ e = ValueError)
  ∨ (within_limit c.1.1 ∧ overflows c ∧ e = OverflowError).

(** * Properties *)

(** ** Loops that append *)

(** A loop that appends the entry made from each element, if any, builds the
    list of those entries in order. *)
Lemma fold_left_append_omap {X Y : Type} (f : X → option Y) (g : list Y → X → list Y) :
  (∀ acc x, g acc x = match f x with Some y => acc ++ [y] | None => acc end) →
  ∀ xs acc, fold_left g xs acc = acc ++ omap f xs.
Proof.
  intros Hg xs; induction xs as [|x xs IH]; intros acc; simpl.
  - by rewrite app_nil_r.
  - rewrite IH, Hg. destruct (f x); [by rewrite <- app_assoc | done].
Qed.

Lemma omap_cons {X Y : Type} (f : X → option Y) (x : X) (xs : list X) :
  omap f (x :: xs) = match f x with Some y => y :: omap f xs | None => omap f xs end.
Proof. done. Qed.

(** ** Instance matcher *)

Section Matcher.
Variable req : Requirement.

Lemma consider_unfold best item :
  consider req best item =
    if qualifies req item.2
    then match best with
         | None => Some (as_best item)
         | Some b => if replaces item.2 b then Some (as_best item) else Some b
         end
    else best.
Proof.
  destruct item as [name inst]; unfold consider, qualifies, replaces, as_best; simpl.
  rewrite !Z.geb_leb.
  destruct (req_CPU req <=? vCPUs inst), (req_RAM req <=? MemoryMiB inst); simpl; try done.
  destruct best as [b|]; [|done].
  by destruct (vCPUs inst <? bm_vCPUs b), (MemoryMiB inst <? bm_MemoryMiB b).
Qed.

Lemma fold_consider_some b catalog :
  fold_left (consider req) catalog (Some b) = Some (improve req b catalog).
Proof.
  revert b; induction catalog as [|item rest IH]; intros b; [done|].
  cbn [fold_left improve]. rewrite consider_unfold.
  destruct (qualifies req item.2); simpl; [|apply IH].
  destruct (replaces item.2 b); apply IH.
Qed.

Lemma best_match_for_spec catalog :
  best_match_for req catalog = match_spec req catalog.
Proof.
  unfold best_match_for.
  induction catalog as [|item rest IH]; [done|].
  cbn [fold_left match_spec]. rewrite consider_unfold.
  destruct (qualifies req item.2); [apply fold_consider_some | apply IH].
Qed.

Lemma best_match_for_snoc catalog item :
  best_match_for req (catalog ++ [item]) = consider req (best_match_for req catalog) item.
Proof. unfold best_match_for. by rewrite fold_left_app. Qed.

(** The running best is always an item of the catalog that qualifies. *)
Lemma improve_invariant (P : BestMatch → Prop) b catalog :
  P b →
  (∀ item, item ∈ catalog → qualifies req item.2 = true → P (as_best item)) →
  P (improve req b catalog).
Proof.
  revert b; induction catalog as [|item rest IH]; intros b Hb Hall; [done|].
  cbn [improve].
  destruct (qualifies req item.2 && replaces item.2 b) eqn:E.
  - apply IH; [|intros i Hi; apply Hall; by right].
    apply Hall; [by left|]. by apply andb_true_iff in E as [? _].
  - apply IH; [done|]. intros i Hi; apply Hall; by right.
Qed.

Lemma match_spec_invariant (P : BestMatch → Prop) catalog b :
  (∀ item, item ∈ catalog → qualifies req item.2 = true → P (as_best item)) →
  match_spec req catalog = Some b → P b.
Proof.
  induction catalog as [|item rest IH]; intros Hall; [done|].
  cbn [match_spec]. destruct (qualifies req item.2) eqn:E.
  - intros [= <-]. apply improve_invariant; [apply Hall; [by left|done]|].
    intros i Hi; apply Hall; by right.
  - apply IH. intros i Hi; apply Hall; by right.
Qed.

Lemma match_spec_none catalog :
  match_spec req catalog = None ↔ Forall (λ item, qualifies req item.2 = false) catalog.
Proof.
  induction catalog as [|item rest IH]; [by split|].
  cbn [match_spec]. rewrite Forall_cons.
  destruct (qualifies req item.2); [split; [done|by intros [? _]]|].
  rewrite IH. split; [by intros H; split | by intros [_ H]].
Qed.
End Matcher.


Lemma find_best_match_omap filtered_data catalog :
  find_best_match filtered_data catalog = omap (matched_entry catalog) filtered_data.
Proof.
  unfold find_best_match.
  rewrite (fold_left_append_omap (matched_entry catalog)); [done|].
  intros acc x. unfold matched_entry. by destruct (best_match_for x catalog).
Qed.

(** C1. Capacity sufficiency: every entry of [find_best_match]'s output comes
    from a requirement of the input, carries that requirement's server name,
    address, storage and database, names an instance type of the catalog with
    the capacity written in the entry, and that capacity is at least the CPU
    and the RAM the requirement asks for. *)
Theorem find_best_match_sufficient
    (filtered_data : list Requirement) (catalog : Catalog) (m : MatchedInstance) :
  m ∈ find_best_match filtered_data catalog →
  ∃ req,
    req ∈ filtered_data
    ∧ best_match_for req catalog
      = Some {| bm_InstanceType := mi_InstanceType m;
                bm_vCPUs := mi_CPU m;
                bm_MemoryMiB := mi_RAM m |}
    ∧ (mi_InstanceType m, {| vCPUs := mi_CPU m; MemoryMiB := mi_RAM m |}) ∈ catalog
    ∧ mi_Server_Name m = req_Server_Name req
    ∧ mi_IP_Address m = req_IP_Address req
    ∧ mi_Storage m = req_Storage req
    ∧ mi_Database m = req_Database req
    ∧ mi_CPU m >= req_CPU req
    ∧ mi_RAM m >= req_RAM req.
Proof.
  rewrite find_best_match_omap, list_elem_of_omap.
  intros (req & Hin & Hm). exists req. split; [done|].
  unfold matched_entry in Hm.
  destruct (best_match_for req catalog) as [b|] eqn:Hb; [|done].
  injection Hm as <-. cbn.
  rewrite best_match_for_spec in Hb.
  pose proof (match_spec_invariant req
    (λ b, (bm_InstanceType b, {| vCPUs := bm_vCPUs b; MemoryMiB := bm_MemoryMiB b |}) ∈ catalog
          ∧ bm_vCPUs b >= req_CPU req ∧ bm_MemoryMiB b >= req_RAM req) catalog b) as Hinv.
  destruct Hinv as (Hcat & Hcpu & Hram); [|done|].
  - intros [name [v mem]] Hitem Hq. unfold qualifies in Hq. cbn in *.
    apply andb_true_iff in Hq as [?%Z.leb_le ?%Z.leb_le].
    split; [done|lia].
  - by destruct b.
Qed.

Lemma find_best_match_sufficient_witness :
  let catalog : Catalog :=
    [ ("t2.small"%string, {| vCPUs := 1; MemoryMiB := 2 |});
      ("t3.medium"%string, {| vCPUs := 2; MemoryMiB := 4 |});
      ("m5.large"%string, {| vCPUs := 2; MemoryMiB := 8 |}) ] in
  let req :=
    {| req_Server_Name := "srv1"; req_IP_Address := "10.0.0.1";
       req_Storage := "100GB SSD"; req_Database := "None";
       req_CPU := 2; req_RAM := 4 |} in
  let m :=
    {| mi_Server_Name := "srv1"; mi_IP_Address := "10.0.0.1";
       mi_CPU := 2; mi_RAM := 4; mi_InstanceType := "t3.medium";
       mi_Storage := "100GB SSD"; mi_Database := "None" |} in
  m ∈ find_best_match [req] catalog
  ∧ ∃ req', req' ∈ [req] ∧ mi_CPU m >= req_CPU req' ∧ mi_RAM m >= req_RAM req'.
Proof.
  intros catalog req m.
  assert (Hin : m ∈ find_best_match [req] catalog) by (vm_compute; left).
  split; [exact Hin|].
  destruct (find_best_match_sufficient [req] catalog m Hin)
    as (req' & Hreq & _ & _ & _ & _ & _ & _ & Hcpu & Hram).
  exists req'. done.
Defined.

(** C3. The matcher walks the catalog in the order given: its result is
    [match_spec], which starts from the first instance with enough vCPUs and
    memory and lets a later qualifying instance replace the running best
    exactly when it has strictly fewer vCPUs or strictly less memory.  In steps:
    with no best yet, a qualifying instance becomes the best; with a best, a
    qualifying instance replaces it exactly under that condition; an instance
    that does not qualify changes nothing.  The result is [None] exactly when
    no instance of the catalog qualifies, so also for the empty catalog. *)
Theorem best_match_for_first_fit_then_replace (req : Requirement) (catalog : Catalog) :
  best_match_for req catalog = match_spec req catalog
  ∧ best_match_for req [] = None
  ∧ (∀ item,
       best_match_for req (catalog ++ [item]) =
         if qualifies req item.2
         then match best_match_for req catalog with
              | None => Some (as_best item)
              | Some best =>
                  if (vCPUs item.2 <? bm_vCPUs best) || (MemoryMiB item.2 <? bm_MemoryMiB best)
                  then Some (as_best item)
                  else Some best
              end
         else best_match_for req catalog)
  ∧ (∀ before item,
       Forall (λ i, qualifies req i.2 = false) before →
       qualifies req item.2 = true →
       best_match_for req (before ++ [item]) = Some (as_best item))
  ∧ (best_match_for req catalog = None
     ↔ Forall (λ item, qualifies req item.2 = false) catalog).
Proof.
  split; [apply best_match_for_spec|].
  split; [done|].
  split; [intros item; by rewrite best_match_for_snoc, consider_unfold|].
  split.
  - intros before item Hbefore Hitem.
    rewrite best_match_for_snoc, consider_unfold, Hitem.
    apply (match_spec_none req) in Hbefore.
    by rewrite best_match_for_spec, Hbefore.
  - rewrite best_match_for_spec. apply match_spec_none.
Qed.

Lemma best_match_for_witness :
  let req :=
    {| req_Server_Name := "srv1"; req_IP_Address := "10.0.0.1";
       req_Storage := "100GB SSD"; req_Database := "None";
       req_CPU := 2; req_RAM := 4 |} in
  let t2_small := ("t2.small"%string, {| vCPUs := 1; MemoryMiB := 2 |}) in
  let t3_medium := ("t3.medium"%string, {| vCPUs := 2; MemoryMiB := 4 |}) in
  let m5_large := ("m5.large"%string, {| vCPUs := 2; MemoryMiB := 8 |}) in
  Forall (λ i, qualifies req i.2 = false) [t2_small]
  ∧ qualifies req m5_large.2 = true
  ∧ best_match_for req ([t2_small] ++ [m5_large]) = Some (as_best m5_large)
  ∧ best_match_for req [t2_small; m5_large; t3_medium] = Some (as_best t3_medium)
  ∧ best_match_for req [t2_small; t3_medium; m5_large] = Some (as_best t3_medium).
Proof.
  intros req t2_small t3_medium m5_large.
  assert (H1 : Forall (λ i, qualifies req i.2 = false) [t2_small])
    by (by repeat constructor).
  assert (H2 : qualifies req m5_large.2 = true) by reflexivity.
  split; [exact H1|]. split; [exact H2|].
  split; [|split; reflexivity].
  exact (proj1 (proj2 (proj2 (proj2 (best_match_for_first_fit_then_replace req []))))
           [t2_small] m5_large H1 H2).
Defined.

(** ** The effect monad *)

Lemma io_bind_outcome {A B : Type} (m : io A) (f : A → io B) :
  outcome (m ≫= f) = match outcome m with Ok a => outcome (f a) | Raise e => Raise e end.
Proof. unfold mbind, io_bind. by destruct (outcome m). Qed.

Lemma io_bind_trace {A B : Type} (m : io A) (f : A → io B) :
  trace (m ≫= f) = match outcome m with Ok a => trace m ++ trace (f a) | Raise _ => trace m end.
Proof. unfold mbind, io_bind. by destruct (outcome m). Qed.

(** A loop is stopped by the first iteration that raises. *)
Lemma for_each_raise {S X : Type} (body : S → X → io S) (xs : list X) (x : X) :
  x ∈ xs →
  (∀ st, ∃ e, outcome (body st x) = Raise e) →
  ∀ st, ∃ e, outcome (for_each body xs st) = Raise e.
Proof.
  intros Hin Hx. induction xs as [|y ys IH]; intros st.
  - by apply elem_of_nil in Hin.
  - cbn [for_each]. rewrite io_bind_outcome.
    apply elem_of_cons in Hin as [<-|Hin].
    + destruct (Hx st) as [e ->]. by exists e.
    + destruct (outcome (body st y)) as [st'|e]; [by apply IH | by exists e].
Qed.

(** ** The handler *)

(** The handler, path by path. *)
Lemma lambda_handler_paths (env : Env) :
  lambda_handler env =
    match fetch_requirements_from_s3 env with
    | [] =>
        IO [FetchInstanceTypes; FetchRequirements]
           (Ok {| statusCode := 500; body := Failed_to_fetch_requirements |})
    | _ :: _ =>
        let pricing :=
          price_all env
            (find_best_match (extract_cpu_ram (fetch_requirements_from_s3 env))
               (fetch_ec2_instance_types env)) in
        match outcome pricing with
        | Ok priced =>
            IO ([FetchInstanceTypes; FetchRequirements] ++ trace pricing ++ [StoreResults priced])
               (Ok (if store_results_in_s3_csv env priced
                    then {| statusCode := 200; body := CSV_stored_successfully |}
                    else {| statusCode := 500; body := Failed_to_upload_CSV |}))
        | Raise e =>
            IO ([FetchInstanceTypes; FetchRequirements] ++ trace pricing ++ [LogError e])
               (Ok {| statusCode := 500; body := Unexpected_error e |})
        end
    end.
Proof.
  unfold lambda_handler.
  destruct (fetch_requirements_from_s3 env) as [|r rs] eqn:Hreq; [done|].
  cbv zeta.
  generalize (price_all env (find_best_match (extract_cpu_ram (r :: rs))
                               (fetch_ec2_instance_types env))).
  intros [tr [priced|e]]; unfold try_except, mbind, io_bind, emit, mret, io_ret; cbn.
  - destruct (store_results_in_s3_csv env priced); cbn; by rewrite ?app_nil_r.
  - done.
Qed.

(** C8. When the fetched requirement list is empty the handler answers 500
    right after the two fetches: no parsing, matching, pricing or upload takes
    place.  And whenever the upload of the report is attempted and reports
    failure, the answer is 500 too; in every case the handler returns an
    answer, and the answer is 200 only after an upload that reported
    success. *)
Theorem lambda_handler_fails_on_empty_or_failed_upload (env : Env) :
  (fetch_requirements_from_s3 env = [] →
   lambda_handler env =
     IO [FetchInstanceTypes; FetchRequirements]
        (Ok {| statusCode := 500; body := Failed_to_fetch_requirements |}))
  ∧ ∃ response,
      outcome (lambda_handler env) = Ok response
      ∧ ((∀ data, StoreResults data ∈ trace (lambda_handler env) →
                  store_results_in_s3_csv env data = false) →
         statusCode response = 500)
      ∧ (∀ data, last (trace (lambda_handler env)) = Some (StoreResults data) →
                 store_results_in_s3_csv env data = false →
                 response = {| statusCode := 500; body := Failed_to_upload_CSV |})
      ∧ (statusCode response = 200 →
         ∃ data, StoreResults data ∈ trace (lambda_handler env)
                 ∧ store_results_in_s3_csv env data = true).
Proof.
  rewrite lambda_handler_paths.
  destruct (fetch_requirements_from_s3 env) as [|r rs] eqn:Hreq.
  - split; [done|]. eexists; split; [done|]. cbn. repeat split; done.
  - split; [done|]. cbv zeta.
    set (pricing := price_all env _).
    destruct (outcome pricing) as [priced|e] eqn:Hp.
    + eexists; split; [done|]. cbn [trace outcome]. repeat split.
      * intros Hfail. rewrite (Hfail priced); [done|].
        rewrite !elem_of_app. right; right. by left.
      * intros data Hlast Hdata.
        rewrite !app_assoc, last_snoc in Hlast. injection Hlast as <-.
        by rewrite Hdata.
      * destruct (store_results_in_s3_csv env priced) eqn:Hs; [|done].
        intros _. exists priced. split; [|done].
        rewrite !elem_of_app. right; right. by left.
    + eexists; split; [done|]. cbn [trace outcome]. repeat split; try done.
      intros data Hlast. rewrite !app_assoc, last_snoc in Hlast. done.
Qed.

Lemma lambda_handler_fails_witness :
  let env :=
    {| fetch_ec2_instance_types := [("t3.medium"%string, {| vCPUs := 2; MemoryMiB := 4 |})];
       fetch_requirements_from_s3 := [];
       get_instance_price := λ _, Some 0.05%float;
       store_results_in_s3_csv := λ _, true |} in
  fetch_requirements_from_s3 env = []
  ∧ lambda_handler env =
      IO [FetchInstanceTypes; FetchRequirements]
         (Ok {| statusCode := 500; body := Failed_to_fetch_requirements |}).
Proof.
  intros env. split; [reflexivity|].
  apply (proj1 (lambda_handler_fails_on_empty_or_failed_upload env)). reflexivity.
Defined.

(** ** Pricing *)

Lemma round2_number v w : Py.round2 v = Ok w → is_number w.
Proof. destruct v; cbn; by intros [= <-]. Qed.

Lemma add_str_number s v : is_number v → Py.add (Py.Str s) v = Raise TypeError.
Proof. by destruct v. Qed.

Lemma calculate_storage_cost_number storage_str v :
  outcome (calculate_storage_cost storage_str) = Ok v → is_number v.
Proof.
  unfold calculate_storage_cost. rewrite io_bind_outcome.
  destruct (outcome (for_each _ _ _)) as [total|e]; [|done].
  apply round2_number.
Qed.

Lemma for_each_trace_Forall {S X : Type} (P : event → Prop) (body : S → X → io S) :
  (∀ st x, Forall P (trace (body st x))) →
  ∀ xs st, Forall P (trace (for_each body xs st)).
Proof.
  intros Hbody xs; induction xs as [|x xs IH]; intros st; cbn [for_each].
  - constructor.
  - rewrite io_bind_trace. destruct (outcome (body st x)); [|apply Hbody].
    apply Forall_app; split; [apply Hbody | apply IH].
Qed.

Lemma storage_item_trace total_cost storage :
  Forall pricing_event (trace (storage_item total_cost storage)).
Proof.
  unfold storage_item; cbv zeta.
  destruct (Re.search_chars size_pattern _), (Re.search_chars type_pattern (strip storage));
    try (by repeat constructor).
  destruct (storage_cost_per_gb !! _); by repeat constructor.
Qed.

Lemma calculate_storage_cost_trace storage_str :
  Forall pricing_event (trace (calculate_storage_cost storage_str)).
Proof.
  unfold calculate_storage_cost. rewrite io_bind_trace.
  pose proof (for_each_trace_Forall pricing_event storage_item storage_item_trace
                (split_plus (list_ascii_of_string storage_str)) (Py.Int 0)) as H.
  destruct (outcome _); [|done].
  apply Forall_app; split; [done|constructor].
Qed.

Lemma price_instance_trace env instance :
  Forall pricing_event (trace (price_instance env instance)).
Proof.
  unfold price_instance.
  rewrite io_bind_trace; cbn [emit outcome trace].
  apply Forall_app; split; [by repeat constructor|].
  rewrite io_bind_trace.
  assert (Hm : Forall pricing_event (trace
    match get_instance_price env (mi_InstanceType instance) with
    | Some hourly_price =>
        lift (Py.mul (Py.Float hourly_price) (Py.Int 24) ≫= λ monthly_cost,
              Py.mul monthly_cost (Py.Int 30) ≫= λ monthly_cost, Py.round2 monthly_cost)
    | None => mret (Py.Str "Price Not Available")
    end)) by (destruct (get_instance_price _ _); constructor).
  destruct (outcome _); [|done].
  apply Forall_app; split; [done|]. clear Hm.
  rewrite io_bind_trace.
  pose proof (calculate_storage_cost_trace (mi_Storage instance)) as Hs.
  destruct (outcome (calculate_storage_cost _)); [|done].
  apply Forall_app; split; [done|].
  rewrite io_bind_trace; cbn [lift outcome trace].
  destruct (calculate_database_cost _ _); [|constructor].
  cbn [app]. rewrite io_bind_trace; cbn [lift outcome trace].
  destruct (_ ≫= _); constructor.
Qed.

Lemma price_all_trace env matched_instances :
  Forall pricing_event (trace (price_all env matched_instances)).
Proof.
  apply for_each_trace_Forall. intros priced instance.
  rewrite io_bind_trace.
  pose proof (price_instance_trace env instance) as H.
  destruct (outcome _); [|done].
  apply Forall_app; split; [done|constructor].
Qed.

(** Without a price, the pricing of an entry ends in an exception: the
    sentinel is a [str], and it is added to the storage cost, a number. *)
Lemma price_instance_unavailable env instance :
  get_instance_price env (mi_InstanceType instance) = None →
  ∃ e, outcome (price_instance env instance) = Raise e.
Proof.
  intros Hprice. unfold price_instance. rewrite Hprice.
  rewrite io_bind_outcome; cbn [emit outcome].
  rewrite io_bind_outcome; cbn [mret io_ret outcome].
  rewrite io_bind_outcome.
  destruct (outcome (calculate_storage_cost _)) as [sc|e] eqn:Hsc; [|by exists e].
  apply calculate_storage_cost_number in Hsc.
  rewrite io_bind_outcome; cbn [lift outcome].
  destruct (calculate_database_cost _ _) as [dc|e]; [|by exists e].
  rewrite io_bind_outcome; cbn [lift outcome].
  rewrite add_str_number by done. by exists TypeError.
Qed.

(** C2. What the handler does when a price is missing.  The claim asks for a
    priced record whose compute cost is the sentinel and whose total is
    storage plus database cost.  The code stores the sentinel string
    ["Price Not Available"] as the compute cost and then adds it to the
    storage cost: the addition raises, so for no entry without a price is a
    priced record ever produced.  The exception reaches the handler's
    [except]: as soon as one matched entry has no price the invocation answers
    500 and the report is never uploaded.  On a fleet of one server with one
    fitting instance type and no price, the handler looks the price up, logs
    the [TypeError] and answers 500.  The pricing loop of
    [EC2CostEstimation-Lambda.py], which stores the same sentinel and adds
    nothing to it, does not raise. *)
Theorem price_unavailable_aborts_invocation :
  (∀ env instance,
     get_instance_price env (mi_InstanceType instance) = None →
     ∃ e, outcome (price_instance env instance) = Raise e)
  ∧ (∀ env instance,
       fetch_requirements_from_s3 env ≠ [] →
       instance ∈ find_best_match (extract_cpu_ram (fetch_requirements_from_s3 env))
                    (fetch_ec2_instance_types env) →
       get_instance_price env (mi_InstanceType instance) = None →
       (∃ e, outcome (lambda_handler env)
             = Ok {| statusCode := 500; body := Unexpected_error e |})
       ∧ ∀ data, StoreResults data ∉ trace (lambda_handler env))
  ∧ lambda_handler env_without_price
    = IO [FetchInstanceTypes; FetchRequirements; GetPrice "t3.medium"; LogError TypeError]
         (Ok {| statusCode := 500; body := Unexpected_error TypeError |})
  ∧ EC2CostEstimation.monthly_cost None = Ok (Py.Str "Price Not Available").
Proof.
  split; [apply price_instance_unavailable|].
  split; [|split; by vm_compute].
  intros env instance Hreq Hin Hprice.
  rewrite lambda_handler_paths.
  destruct (fetch_requirements_from_s3 env) as [|r rs] eqn:Hr; [done|].
  cbv zeta.
  pose proof (price_all_trace env
    (find_best_match (extract_cpu_ram (r :: rs)) (fetch_ec2_instance_types env))) as Htrace.
  assert (∃ e, outcome (price_all env
    (find_best_match (extract_cpu_ram (r :: rs)) (fetch_ec2_instance_types env))) = Raise e)
    as [e He].
  { unfold price_all. apply for_each_raise with instance; [done|].
    intros st. rewrite io_bind_outcome.
    destruct (price_instance_unavailable env instance Hprice) as [e ->]. by exists e. }
  rewrite He. cbn [outcome trace].
  split; [by exists e|].
  intros data Hdata.
  rewrite !elem_of_app in Hdata. destruct Hdata as [Hdata|[Hdata|Hdata]].
  - apply elem_of_cons in Hdata as [?|Hdata]; [done|].
    apply elem_of_cons in Hdata as [?|Hdata]; [done|]. by apply elem_of_nil in Hdata.
  - rewrite Forall_forall in Htrace. by apply Htrace in Hdata.
  - apply elem_of_cons in Hdata as [?|Hdata]; [done|]. by apply elem_of_nil in Hdata.
Qed.

Lemma price_unavailable_witness :
  get_instance_price env_without_price "t3.medium" = None
  ∧ ∃ e, outcome (price_instance env_without_price
                    {| mi_Server_Name := "srv1"; mi_IP_Address := "10.0.0.1";
                       mi_CPU := 2; mi_RAM := 4; mi_InstanceType := "t3.medium";
                       mi_Storage := "100GB SSD"; mi_Database := "None" |})
         = Raise e.
Proof.
  split; [reflexivity|].
  apply (proj1 price_unavailable_aborts_invocation). reflexivity.
Defined.

(** ** Characters *)

Ltac by_cases_on_char c :=
  destruct c as [[] [] [] [] [] [] [] []]; vm_compute; try done.

Lemma digit_not_space c : is_digit c = true → is_space c = false.
Proof. by_cases_on_char c. Qed.

Lemma space_not_digit c : is_space c = true → is_digit c = false.
Proof. by_cases_on_char c. Qed.

Lemma lower_digit c : is_digit c = true → lower c = c.
Proof. by_cases_on_char c. Qed.

Lemma lower_is_digit c : is_digit (lower c) = is_digit c.
Proof. by_cases_on_char c. Qed.

Lemma digit_not_letter ic l c :
  is_digit c = true → is_digit l = false → Re.chr ic l c = false.
Proof.
  intros Hc Hl. unfold Re.chr. destruct ic.
  - apply Ascii.eqb_neq. rewrite (lower_digit c Hc). intros ->.
    rewrite lower_is_digit in Hc. congruence.
  - apply Ascii.eqb_neq. by intros ->; rewrite Hc in Hl.
Qed.

Lemma space_not_letter l c :
  is_space c = true → is_space l = false → Re.chr false l c = false.
Proof.
  intros Hc Hl. unfold Re.chr. apply Ascii.eqb_neq. by intros ->; rewrite Hc in Hl.
Qed.

(** ** Runs of a class *)

Section Runs.
Variable p : ascii → bool.

Lemma take_drop_while s : take_while p s ++ drop_while p s = s.
Proof. induction s as [|c s IH]; [done|]. cbn. destruct (p c); [by cbn; f_equal|done]. Qed.

Lemma take_while_Forall s : Forall (λ c, p c = true) (take_while p s).
Proof.
  induction s as [|c s IH]; [constructor|]. cbn.
  destruct (p c) eqn:E; by constructor.
Qed.

(** A run followed by a character outside the class, or by nothing. *)
Lemma take_while_app d rest :
  Forall (λ c, p c = true) d →
  match rest with c :: _ => p c = false | [] => True end →
  take_while p (d ++ rest) = d ∧ drop_while p (d ++ rest) = rest.
Proof.
  intros Hd Hrest. induction Hd as [|c d Hc Hd IH]; cbn.
  - destruct rest as [|c rest]; [done|]. cbn. by rewrite Hrest.
  - rewrite Hc. destruct IH as [-> ->]. done.
Qed.

Lemma take_while_length s :
  take (length s - length (drop_while p s)) s = take_while p s.
Proof.
  rewrite <- (take_drop_while s) at 1 3.
  rewrite length_app.
  replace (length (take_while p s) + length (drop_while p s) - length (drop_while p s))%nat
    with (length (take_while p s)) by lia.
  by rewrite take_app_length.
Qed.

(** The greedy [c+] before a continuation that cannot start inside the
    class takes the whole run. *)
Lemma plus_greedy_run {A : Type} s (k : chars → option A) :
  (∀ c s', p c = true → k (c :: s') = None) →
  Re.plus_greedy p s k =
    match take_while p s with
    | [] => None
    | _ :: _ => k (drop_while p s)
    end.
Proof.
  intros Hk. induction s as [|c s IH]; [done|].
  cbn. destruct (p c) eqn:Hc; [|done].
  rewrite IH. destruct s as [|x s]; [done|].
  cbn. destruct (p x) eqn:Hx; [|done].
  destruct (k (drop_while p s)); [done|]. by rewrite Hk.
Qed.
End Runs.

(** ** Literals *)

Lemma match_lit_chars {A : Type} ic l s g (k : chars → Re.groups → option A) :
  Re.match_here (Re.lit_chars ic l) s g k =
    if starts_with ic l s then k (drop (length l) s) g else None.
Proof.
  revert s; induction l as [|c l IH]; intros s; [done|].
  cbn. destruct s as [|x s]; [done|].
  destruct (Re.chr ic c x); [apply IH|done].
Qed.

Lemma starts_with_split ic l s :
  starts_with ic l s = true →
  s = take (length l) s ++ drop (length l) s
  ∧ length (take (length l) s) = length l
  ∧ Forall2 (λ c x, Re.chr ic c x = true) l (take (length l) s).
Proof.
  revert s; induction l as [|c l IH]; intros s H.
  - cbn. rewrite drop_0. by repeat split.
  - destruct s as [|x s]; [done|]. cbn in H. apply andb_true_iff in H as [Hc Hl].
    destruct (IH s Hl) as (Heq & Hlen & Hall). cbn.
    split; [by rewrite take_drop|]. split; [by rewrite Hlen|]. by constructor.
Qed.

Lemma starts_with_app ic l u post :
  Forall2 (λ c x, Re.chr ic c x = true) l u →
  starts_with ic l (u ++ post) = true ∧ take (length l) (u ++ post) = u.
Proof.
  induction 1 as [|c x l u Hc Hl IH]; [done|].
  cbn. rewrite Hc. destruct IH as [-> ->]. done.
Qed.

(** ** First position *)

Lemma find_first_Some {B : Type} (f : chars → option B) s b :
  find_first f s = Some b ↔
  ∃ n, (n <= length s)%nat ∧ f (drop n s) = Some b ∧ ∀ m, (m < n)%nat → f (drop m s) = None.
Proof.
  induction s as [|c s IH]; cbn [find_first].
  - split.
    + destruct (f []) eqn:E; [|done]. intros [= <-]. exists 0%nat.
      split; [done|]. split; [done|]. intros m Hm; lia.
    + intros (n & Hn & Hf & _). rewrite drop_nil in Hf. by rewrite Hf.
  - destruct (f (c :: s)) as [b'|] eqn:E.
    + split.
      * intros [= <-]. exists 0%nat.
        split; [cbn; lia|]. split; [done|]. intros m Hm; lia.
      * intros (n & Hn & Hf & Hmin). destruct n as [|n]; [cbn in Hf; congruence|].
        specialize (Hmin 0%nat ltac:(lia)). cbn in Hmin. congruence.
    + rewrite IH. split.
      * intros (n & Hn & Hf & Hmin). exists (S n).
        split; [cbn; lia|]. split; [done|].
        intros [|m] Hm; [done|]. cbn. apply Hmin. lia.
      * intros (n & Hn & Hf & Hmin). destruct n as [|n]; [cbn in Hf; congruence|].
        exists n. cbn in Hn, Hf.
        split; [lia|]. split; [done|].
        intros m Hm. apply (Hmin (S m)). lia.
Qed.

Lemma find_first_None {B : Type} (f : chars → option B) s :
  find_first f s = None ↔ ∀ n, f (drop n s) = None.
Proof.
  induction s as [|c s IH]; cbn [find_first].
  - split.
    + destruct (f []) eqn:E; [done|]. intros _ n. by rewrite drop_nil.
    + intros H. specialize (H 0%nat). cbn in H. by rewrite H.
  - destruct (f (c :: s)) as [b'|] eqn:E.
    + split; [done|]. intros H. specialize (H 0%nat). cbn in H. congruence.
    + rewrite IH. split.
      * intros H [|n]; [done|apply H].
      * intros H n. apply (H (S n)).
Qed.

(** ** The four patterns: what the backtracking matcher returns *)

Lemma search_chars_find_first {B : Type} r (f : chars → option B) (h : B → Re.groups) :
  (∀ s, Re.match_here r s ∅ (λ _ g, Some g) = h <$> f s) →
  ∀ s, Re.search_chars r s = h <$> find_first f s.
Proof.
  intros Hr s; induction s as [|c s IH]; cbn [Re.search_chars find_first]; rewrite Hr.
  - by destruct (f []).
  - destruct (f (c :: s)); [done|]. apply IH.
Qed.

Lemma starts_with_take_length ic l s :
  starts_with ic l s = true →
  take (length s - length (drop (length l) s)) s = take (length l) s.
Proof.
  intros H. destruct (starts_with_split _ _ _ H) as (Heq & Hlen & _).
  rewrite length_drop. rewrite length_take in Hlen. f_equal. lia.
Qed.

Lemma match_lit_group ic l s g n :
  Re.match_here (Re.lit_chars ic l) s g
    (λ s' g', Some (<[n := take (length s - length s') s]> g'))
  = if starts_with ic l s then Some (<[n := take (length l) s]> g) else None.
Proof.
  rewrite match_lit_chars. destruct (starts_with ic l s) eqn:E; [|done].
  by rewrite (starts_with_take_length ic l s E).
Qed.

Lemma match_here_cpu s :
  Re.match_here cpu_pattern s ∅ (λ _ g, Some g) = (λ d, {[ 1%nat := d ]}) <$> cpu_at s.
Proof.
  unfold cpu_pattern, cpu_at, Re.lit. cbn [Re.match_here].
  rewrite plus_greedy_run.
  2:{ intros c s' Hc. cbn. by rewrite (digit_not_space c Hc). }
  rewrite take_while_length.
  destruct (take_while is_digit s) as [|d0 d] eqn:Hd; [done|].
  rewrite plus_greedy_run.
  2:{ intros c s' Hc. rewrite match_lit_chars.
      cbn [list_ascii_of_string starts_with]. by rewrite (space_not_letter _ c Hc). }
  cbv zeta.
  destruct (take_while is_space (drop_while is_digit s)); [done|].
  rewrite match_lit_chars.
  by destruct (starts_with _ _ _).
Qed.

Lemma match_here_ram s :
  Re.match_here ram_pattern s ∅ (λ _ g, Some g) = (λ d, {[ 1%nat := d ]}) <$> ram_at s.
Proof.
  unfold ram_pattern, ram_at. cbn [Re.match_here].
  rewrite plus_greedy_run.
  2:{ intros c s' Hc. unfold Re.lit. rewrite match_lit_chars.
      cbn [list_ascii_of_string starts_with]. by rewrite (digit_not_letter false _ c Hc). }
  rewrite take_while_length.
  destruct (take_while is_digit s) as [|d0 d] eqn:Hd; [done|].
  unfold Re.lit. rewrite match_lit_chars.
  by destruct (starts_with _ _ _).
Qed.

Lemma match_here_size s :
  Re.match_here size_pattern s ∅ (λ _ g, Some g)
  = (λ du, <[ 2%nat := du.2 ]> {[ 1%nat := du.1 ]}) <$> size_at s.
Proof.
  unfold size_pattern, size_at. cbn [Re.match_here]. unfold Re.lit.
  rewrite plus_greedy_run.
  2:{ intros c s' Hc. rewrite !match_lit_group.
      cbn [list_ascii_of_string starts_with]. by rewrite !(digit_not_letter true _ c Hc). }
  rewrite take_while_length.
  destruct (take_while is_digit s) as [|d0 d] eqn:Hd; [done|].
  rewrite !match_lit_group. cbv zeta.
  destruct (starts_with true (list_ascii_of_string "TB") _); [done|].
  by destruct (starts_with true (list_ascii_of_string "GB") _).
Qed.

Lemma match_here_type s :
  Re.match_here type_pattern s ∅ (λ _ g, Some g) = (λ t, {[ 1%nat := t ]}) <$> type_at s.
Proof.
  unfold type_pattern, type_at. cbn [Re.match_here]. unfold Re.lit.
  rewrite !match_lit_group.
  destruct (starts_with true (list_ascii_of_string "SSD") _); [done|].
  destruct (starts_with true (list_ascii_of_string "HDD") _); [done|].
  by destruct (starts_with true (list_ascii_of_string "NVMe") _).
Qed.

Lemma search_cpu s :
  Re.search_chars cpu_pattern s = (λ d, {[ 1%nat := d ]}) <$> find_first cpu_at s.
Proof. apply search_chars_find_first, match_here_cpu. Qed.

Lemma search_ram s :
  Re.search_chars ram_pattern s = (λ d, {[ 1%nat := d ]}) <$> find_first ram_at s.
Proof. apply search_chars_find_first, match_here_ram. Qed.

Lemma search_size s :
  Re.search_chars size_pattern s
  = (λ du, <[ 2%nat := du.2 ]> {[ 1%nat := du.1 ]}) <$> find_first size_at s.
Proof. apply (search_chars_find_first _ size_at), match_here_size. Qed.

Lemma search_type s :
  Re.search_chars type_pattern s = (λ t, {[ 1%nat := t ]}) <$> find_first type_at s.
Proof. apply search_chars_find_first, match_here_type. Qed.

(** ** From the one-pass readers to occurrences in the text *)

Lemma chr_exact c x : Re.chr false c x = true ↔ x = c.
Proof. unfold Re.chr. apply Ascii.eqb_eq. Qed.

Lemma chr_nocase c x : Re.chr true c x = true ↔ lower x = lower c.
Proof. unfold Re.chr. apply Ascii.eqb_eq. Qed.

Lemma Forall2_chr_exact l u : Forall2 (λ c x, Re.chr false c x = true) l u ↔ u = l.
Proof.
  split.
  - induction 1 as [|c x l u Hc _ IH]; [done|]. apply chr_exact in Hc. by subst.
  - intros ->. induction l; constructor; [by apply chr_exact|done].
Qed.

Lemma Forall2_chr_nocase l u :
  Forall2 (λ c x, Re.chr true c x = true) l u ↔ map lower u = map lower l.
Proof.
  split.
  - induction 1 as [|c x l u Hc _ IH]; [done|]. apply chr_nocase in Hc. cbn. by f_equal.
  - revert u; induction l as [|c l IH]; intros [|x u] H; try done.
    injection H as Hc Hl. constructor; [by apply chr_nocase|by apply IH].
Qed.

Lemma starts_with_exact l s :
  starts_with false l s = true ↔ ∃ post, s = l ++ post.
Proof.
  split.
  - intros H. destruct (starts_with_split _ _ _ H) as (Heq & _ & Hall).
    apply Forall2_chr_exact in Hall. exists (drop (length l) s). by rewrite <- Hall at 1.
  - intros [post ->]. by apply starts_with_app, Forall2_chr_exact.
Qed.

Lemma starts_with_nocase l s :
  starts_with true l s = true ↔
  ∃ post, s = take (length l) s ++ post ∧ map lower (take (length l) s) = map lower l.
Proof.
  split.
  - intros H. destruct (starts_with_split _ _ _ H) as (Heq & _ & Hall).
    apply Forall2_chr_nocase in Hall. by exists (drop (length l) s).
  - intros (post & Heq & Hl). rewrite Heq.
    by apply starts_with_app, Forall2_chr_nocase.
Qed.

Lemma starts_with_nocase_app l u post :
  map lower u = map lower l →
  starts_with true l (u ++ post) = true ∧ take (length l) (u ++ post) = u.
Proof. intros H. by apply starts_with_app, Forall2_chr_nocase. Qed.

Lemma cpu_at_head s d : cpu_at s = Some d ↔ cpu_head s d.
Proof.
  unfold cpu_at, cpu_head, digits, blanks. split.
  - pose proof (take_drop_while is_digit s) as Hs.
    pose proof (take_while_Forall is_digit s) as Hd.
    destruct (take_while is_digit s) as [|d0 d'] eqn:Ed; [done|]. cbv zeta.
    pose proof (take_drop_while is_space (drop_while is_digit s)) as Hr.
    pose proof (take_while_Forall is_space (drop_while is_digit s)) as Hw.
    destruct (take_while is_space (drop_while is_digit s)) as [|w0 w'] eqn:Ew; [done|].
    destruct (starts_with _ _ _) eqn:Ec; [|done]. intros [= <-].
    apply starts_with_exact in Ec as [post Ec].
    exists (w0 :: w'), post. rewrite <- Ec, Hr, Hs. done.
  - intros (w & post & -> & [Hd0 Hd] & [Hw0 Hw]).
    destruct w as [|w0 w']; [done|].
    destruct (take_while_app is_digit d ((w0 :: w') ++ list_ascii_of_string "Cores" ++ post) Hd)
      as [-> ->].
    { cbn. apply space_not_digit. by inversion Hw. }
    destruct d as [|d0 d']; [done|]. cbv zeta.
    destruct (take_while_app is_space (w0 :: w') (list_ascii_of_string "Cores" ++ post) Hw)
      as [-> ->]; [done|].
    by rewrite (proj2 (starts_with_exact _ _)) by by eexists.
Qed.

Lemma ram_at_head s d : ram_at s = Some d ↔ ram_head s d.
Proof.
  unfold ram_at, ram_head, digits. split.
  - pose proof (take_drop_while is_digit s) as Hs.
    pose proof (take_while_Forall is_digit s) as Hd.
    destruct (take_while is_digit s) as [|d0 d'] eqn:Ed; [done|].
    destruct (starts_with _ _ _) eqn:Ec; [|done]. intros [= <-].
    apply starts_with_exact in Ec as [post Ec].
    exists post. rewrite <- Ec, Hs. done.
  - intros (post & -> & [Hd0 Hd]).
    destruct (take_while_app is_digit d (list_ascii_of_string "GB" ++ post) Hd)
      as [-> ->]; [done|].
    destruct d as [|d0 d']; [done|].
    by rewrite (proj2 (starts_with_exact _ _)) by by eexists.
Qed.

Lemma spells_head_not_digit l0 l u :
  map lower u = map lower (l0 :: l) → is_digit l0 = false →
  match u with c :: _ => is_digit c = false | [] => True end.
Proof.
  destruct u as [|c u]; [done|]. intros [= Hc _] Hl0.
  destruct (is_digit c) eqn:E; [|done].
  pose proof (digit_not_letter true l0 c E Hl0) as Hn.
  apply chr_nocase in Hc. congruence.
Qed.

Lemma size_at_head s du : size_at s = Some du ↔ size_head s du.
Proof.
  unfold size_at, size_head, digits, spells. split.
  - pose proof (take_drop_while is_digit s) as Hs.
    pose proof (take_while_Forall is_digit s) as Hd.
    destruct (take_while is_digit s) as [|d0 d'] eqn:Ed; [done|]. cbv zeta.
    destruct (_ || _) eqn:Eu; [|done]. intros [= <-]. cbn [fst snd].
    apply orb_true_iff in Eu as [Eu|Eu];
      apply starts_with_nocase in Eu as (post & Heq & Hu);
      change (length (list_ascii_of_string _)) with 2%nat in Heq, Hu;
      exists post; (split; [by rewrite <- Heq, Hs|]); (split; [done|]); [by left|by right].
  - destruct du as [d u]. cbn [fst snd].
    intros (post & -> & [Hd0 Hd] & Hu).
    destruct (take_while_app is_digit d (u ++ post) Hd) as [-> ->].
    { destruct Hu as [Hu|Hu];
        pose proof (spells_head_not_digit _ _ _ Hu eq_refl) as H;
        by destruct u. }
    destruct d as [|d0 d']; [done|]. cbv zeta.
    destruct Hu as [Hu|Hu]; destruct (starts_with_nocase_app _ _ post Hu) as [HS HT].
    + rewrite HS. cbn [orb]. by rewrite <- HT at 2.
    + rewrite HS, orb_true_r. by rewrite <- HT at 2.
Qed.

Lemma type_at_head s t : type_at s = Some t ↔ type_head s t.
Proof.
  unfold type_at, type_head, spells. split.
  - destruct (starts_with true (list_ascii_of_string "SSD") s) eqn:E1.
    { intros [= <-]. apply starts_with_nocase in E1 as (post & Heq & Hu).
      change (length (list_ascii_of_string _)) with 3%nat in Heq, Hu.
      exists post. split; [done|]. by left. }
    destruct (starts_with true (list_ascii_of_string "HDD") s) eqn:E2.
    { intros [= <-]. apply starts_with_nocase in E2 as (post & Heq & Hu).
      change (length (list_ascii_of_string _)) with 3%nat in Heq, Hu.
      exists post. split; [done|]. right; by left. }
    destruct (starts_with true (list_ascii_of_string "NVMe") s) eqn:E3; [|done].
    intros [= <-]. apply starts_with_nocase in E3 as (post & Heq & Hu).
    change (length (list_ascii_of_string _)) with 4%nat in Heq, Hu.
    exists post. split; [done|]. right; by right.
  - intros (post & -> & [Hu|[Hu|Hu]]);
      destruct (starts_with_nocase_app _ _ post Hu) as [HS HT].
    + rewrite HS. by rewrite <- HT at 2.
    + destruct (starts_with true (list_ascii_of_string "SSD") (t ++ post)) eqn:E1.
      { apply starts_with_nocase in E1 as (post' & Heq & Hu').
        exfalso. destruct t as [|t0 t']; [done|]. cbn in Hu', Hu.
        injection Hu' as Hc _. injection Hu as Hc' _. revert Hc Hc'.
        intros ->. by vm_compute. }
      rewrite HS. by rewrite <- HT at 2.
    + destruct (starts_with true (list_ascii_of_string "SSD") (t ++ post)) eqn:E1.
      { apply starts_with_nocase in E1 as (post' & Heq & Hu').
        exfalso. destruct t as [|t0 t']; [done|]. cbn in Hu', Hu.
        injection Hu' as Hc _. injection Hu as Hc' _. revert Hc Hc'.
        intros ->. by vm_compute. }
      destruct (starts_with true (list_ascii_of_string "HDD") (t ++ post)) eqn:E2.
      { apply starts_with_nocase in E2 as (post' & Heq & Hu').
        exfalso. destruct t as [|t0 t']; [done|]. cbn in Hu', Hu.
        injection Hu' as Hc _. injection Hu as Hc' _. revert Hc Hc'.
        intros ->. by vm_compute. }
      rewrite HS. by rewrite <- HT at 2.
Qed.

Section FirstOccurrence.
Context {B : Type} (f : chars → option B) (head : chars → B → Prop).
Hypothesis f_head : ∀ s b, f s = Some b ↔ head s b.

Lemma find_first_first_occurrence s b :
  find_first f s = Some b ↔ first_occurrence head s b.
Proof.
  rewrite find_first_Some. split.
  - intros (n & Hn & Hf & Hmin). exists (take n s). split.
    + exists (drop n s). split; [by rewrite take_drop|by apply f_head].
    + intros pre' b' (rest' & -> & Hhead).
      rewrite length_take. apply f_head in Hhead.
      destruct (decide (length pre' < n)%nat) as [Hlt|]; [|lia].
      specialize (Hmin _ Hlt). rewrite drop_app_length in Hmin. congruence.
  - intros (pre & (rest & -> & Hhead) & Hmin). exists (length pre).
    split; [rewrite length_app; lia|].
    split; [rewrite drop_app_length; by apply f_head|].
    intros m Hm. destruct (f (drop m (pre ++ rest))) as [b'|] eqn:E; [|done].
    apply f_head in E.
    assert (length pre <= length (take m (pre ++ rest)))%nat as Hle.
    { apply (Hmin _ b'). exists (drop m (pre ++ rest)). by rewrite take_drop. }
    rewrite length_take in Hle. lia.
Qed.

Lemma find_first_occurs s : find_first f s = None ↔ ¬ occurs head s.
Proof.
  rewrite find_first_None. split.
  - intros Hnone (pre & b & rest & -> & Hhead).
    apply f_head in Hhead. specialize (Hnone (length pre)).
    rewrite drop_app_length in Hnone. congruence.
  - intros Hno n. destruct (f (drop n s)) as [b|] eqn:E; [|done].
    exfalso. apply Hno. exists (take n s), b, (drop n s).
    split; [by rewrite take_drop|by apply f_head].
Qed.
End FirstOccurrence.

Lemma group_1_singleton (d : chars) : Re.group {[ 1%nat := d ]} 1 = d.
Proof. unfold Re.group. by rewrite lookup_singleton_eq. Qed.

Lemma group_1_of_2 (d u : chars) : Re.group (<[ 2%nat := u ]> {[ 1%nat := d ]}) 1 = d.
Proof. unfold Re.group. rewrite lookup_insert_ne by done. by rewrite lookup_singleton_eq. Qed.

Lemma group_2_of_2 (d u : chars) : Re.group (<[ 2%nat := u ]> {[ 1%nat := d ]}) 2 = u.
Proof. unfold Re.group. by rewrite lookup_insert_eq. Qed.

(** ** Requirement parser *)

Lemma parse_cases (req : RawRequirement) :
  parse req =
    match find_first cpu_at (list_ascii_of_string (raw_CPU req)),
          find_first ram_at (list_ascii_of_string (raw_RAM req)) with
    | Some d, Some d' =>
        Some {| req_Server_Name := raw_Server_Name req;
                req_IP_Address := raw_IP_Address req;
                req_Storage := raw_Storage req;
                req_Database := raw_Database req;
                req_CPU := int_of_digits d;
                req_RAM := int_of_digits d' |}
    | _, _ => None
    end.
Proof.
  unfold parse, Re.search. rewrite search_cpu, search_ram.
  destruct (find_first cpu_at _) as [d|]; [|done].
  destruct (find_first ram_at _) as [d'|]; [|done].
  cbn. by rewrite !group_1_singleton.
Qed.

(** C4. [parse] drops a record exactly when its CPU text has no occurrence of
    digits, whitespace and the word [Cores], or its RAM text has no occurrence
    of digits immediately followed by [GB].  It keeps a record exactly when
    both occur, and then the CPU and RAM it writes are the numbers spelled by
    the digits of the first occurrence in each text.  So a CPU of [4 Cores]
    with a RAM of [16GB] gives 4 and 16, and a CPU of [four cores] gives no
    record. *)
Theorem parse_accepts_exactly_the_patterns (req : RawRequirement) :
  (parse req = None ↔
     ¬ occurs cpu_head (list_ascii_of_string (raw_CPU req))
     ∨ ¬ occurs ram_head (list_ascii_of_string (raw_RAM req)))
  ∧ (∀ r, parse req = Some r ↔
       ∃ d d',
         first_occurrence cpu_head (list_ascii_of_string (raw_CPU req)) d
         ∧ first_occurrence ram_head (list_ascii_of_string (raw_RAM req)) d'
         ∧ r = {| req_Server_Name := raw_Server_Name req;
                  req_IP_Address := raw_IP_Address req;
                  req_Storage := raw_Storage req;
                  req_Database := raw_Database req;
                  req_CPU := int_of_digits d;
                  req_RAM := int_of_digits d' |})
  ∧ (∀ name ip storage database,
       parse {| raw_Server_Name := name; raw_IP_Address := ip;
                raw_CPU := "4 Cores"; raw_RAM := "16GB";
                raw_Storage := storage; raw_Database := database |}
       = Some {| req_Server_Name := name; req_IP_Address := ip;
                 req_Storage := storage; req_Database := database;
                 req_CPU := 4; req_RAM := 16 |})
  ∧ (∀ name ip storage database,
       parse {| raw_Server_Name := name; raw_IP_Address := ip;
                raw_CPU := "four cores"; raw_RAM := "16GB";
                raw_Storage := storage; raw_Database := database |}
       = None).
Proof.
  split; [|split; [|split; intros; by vm_compute]].
  - rewrite parse_cases.
    rewrite <- (find_first_occurs cpu_at cpu_head cpu_at_head).
    rewrite <- (find_first_occurs ram_at ram_head ram_at_head).
    destruct (find_first cpu_at _) as [d|]; [|split; [by left|done]].
    destruct (find_first ram_at _) as [d'|]; [|split; [by right|done]].
    split; [done|]. by intros [?|?].
  - intros r. rewrite parse_cases. split.
    + destruct (find_first cpu_at _) as [d|] eqn:Ec; [|done].
      destruct (find_first ram_at _) as [d'|] eqn:Er; [|done].
      intros [= <-]. exists d, d'.
      split; [by apply (find_first_first_occurrence cpu_at cpu_head cpu_at_head)|].
      split; [by apply (find_first_first_occurrence ram_at ram_head ram_at_head)|done].
    + intros (d & d' & Hc & Hr & ->).
      apply (find_first_first_occurrence cpu_at cpu_head cpu_at_head) in Hc.
      apply (find_first_first_occurrence ram_at ram_head ram_at_head) in Hr.
      by rewrite Hc, Hr.
Qed.

(** ** Units *)

Lemma upper_char_lower c : upper_char (lower c) = upper_char c.
Proof. by_cases_on_char c. Qed.

Lemma upper_spells l u :
  spells l u → upper u = upper (map lower (list_ascii_of_string l)).
Proof.
  unfold spells, upper. intros H. rewrite <- H, map_map.
  apply map_ext. intros c. by rewrite upper_char_lower.
Qed.

Lemma size_in_gb_gigabytes n u :
  spells "TB" u ∨ spells "GB" u →
  size_in_gb n (string_of_list_ascii (upper u)) = gigabytes n u.
Proof.
  unfold size_in_gb, gigabytes. intros [H|H].
  - rewrite (upper_spells _ _ H), (bool_decide_true _ H).
    by rewrite bool_decide_true by by vm_compute.
  - rewrite (upper_spells _ _ H).
    rewrite bool_decide_false by by vm_compute.
    rewrite bool_decide_false; [done|].
    unfold spells in *. rewrite H. by vm_compute.
Qed.

Lemma find_first_head {B : Type} (f : chars → option B) (head : chars → B → Prop) s b :
  (∀ s b, f s = Some b ↔ head s b) →
  find_first f s = Some b → ∃ n, head (drop n s) b.
Proof.
  intros Hf (n & _ & Hn & _)%find_first_Some. exists n. by apply Hf.
Qed.

(** ** Database cost *)

Lemma database_cost_per_gb_rates database rate :
  database_cost_per_gb !! database = Some rate ↔ (database, rate) ∈ database_rates.
Proof.
  change database_cost_per_gb with (list_to_map database_rates : gmap string float).
  symmetry. apply elem_of_list_to_map.
  apply (bool_decide_unpack _). by vm_compute.
Qed.

Lemma calculate_database_cost_cases database storage_str :
  calculate_database_cost database storage_str =
    match database_cost_per_gb !! database with
    | None => Ok (Py.Float 0)
    | Some rate =>
        match find_first size_at (list_ascii_of_string storage_str) with
        | None => Ok (Py.Float 0)
        | Some (d, u) =>
            x ← Py.float_of_int (gigabytes (int_of_digits d) u);
            Ok (Py.Float (Py.round_float2 (x * rate)))
        end
    end.
Proof.
  unfold calculate_database_cost.
  destruct (decide (database = "None")) as [->|Hnone].
  { by vm_compute. }
  rewrite (bool_decide_false _ Hnone). cbn [orb].
  destruct (database_cost_per_gb !! database) as [rate|] eqn:Hrate.
  2:{ by rewrite bool_decide_true. }
  rewrite bool_decide_false by done.
  unfold Re.search. rewrite search_size.
  destruct (find_first size_at _) as [[d u]|] eqn:Hfirst; [|done].
  cbn [fmap option_fmap option_map fst snd].
  rewrite group_1_of_2, group_2_of_2.
  destruct (find_first_head _ _ _ _ size_at_head Hfirst) as (n & post & _ & _ & Hu).
  rewrite (size_in_gb_gigabytes _ _ Hu).
  cbn [Py.mul]. by destruct (Py.float_of_int _).
Qed.

(** C6. The database cost is zero for the kind [None] and for every kind
    outside the table of rates, which holds MySQL 0.10, PostgreSQL 0.10,
    Microsoft SQL Server 0.20, Oracle Database 0.30 and Redis 0.15.  For a kind
    of the table, the size is taken from the first occurrence of digits and a
    unit in the whole storage text, not from each component: the digits as a
    number, times 1024 for TB, converted to a float, times the rate of the
    kind, rounded to two decimals.  MySQL on [200GB SSD] costs 20.0; on
    [500GB SSD + 1TB HDD] only the 500 GB count; a size in a later component
    is found when the first one has none. *)
Theorem calculate_database_cost_first_size :
  (∀ database storage_str,
     database = "None"%string ∨ (∀ rate, (database, rate) ∉ database_rates) →
     calculate_database_cost database storage_str = Ok (Py.Float 0))
  ∧ (∀ database rate, database_cost_per_gb !! database = Some rate
                      ↔ (database, rate) ∈ database_rates)
  ∧ (∀ database rate storage_str d unit,
       (database, rate) ∈ database_rates →
       first_occurrence size_head (list_ascii_of_string storage_str) (d, unit) →
       calculate_database_cost database storage_str
       = (gb ← Py.float_of_int (gigabytes (int_of_digits d) unit);
          Ok (Py.Float (Py.round_float2 (gb * rate)))))
  ∧ (∀ n, gigabytes n (list_ascii_of_string "TB") = n * 1024
          ∧ gigabytes n (list_ascii_of_string "GB") = n)
  ∧ calculate_database_cost "MySQL" "200GB SSD" = Ok (Py.Float 20)
  ∧ calculate_database_cost "MySQL" "500GB SSD + 1TB HDD" = Ok (Py.Float 50)
  ∧ calculate_database_cost "MySQL" "fast SSD + 200GB HDD" = Ok (Py.Float 20).
Proof.
  split; [|split; [apply database_cost_per_gb_rates|split; [|split; [|by vm_compute]]]].
  - intros database storage_str [->|Hnot]; [by vm_compute|].
    rewrite calculate_database_cost_cases.
    destruct (database_cost_per_gb !! database) as [rate|] eqn:Hrate; [|done].
    apply database_cost_per_gb_rates in Hrate. by apply Hnot in Hrate.
  - intros database rate storage_str d unit Hrate Hfirst.
    rewrite calculate_database_cost_cases.
    apply database_cost_per_gb_rates in Hrate. rewrite Hrate.
    apply (find_first_first_occurrence size_at size_head size_at_head) in Hfirst.
    by rewrite Hfirst.
  - intros n. unfold gigabytes. split.
    + by rewrite bool_decide_true.
    + by rewrite bool_decide_false.
Qed.

Lemma calculate_database_cost_witness :
  ("MySQL"%string, 0.10%float) ∈ database_rates
  ∧ first_occurrence size_head (list_ascii_of_string "200GB SSD")
      (list_ascii_of_string "200", list_ascii_of_string "GB")
  ∧ calculate_database_cost "MySQL" "200GB SSD" = Ok (Py.Float 20).
Proof.
  assert (H1 : ("MySQL"%string, 0.10%float) ∈ database_rates) by (vm_compute; left).
  assert (H2 : first_occurrence size_head (list_ascii_of_string "200GB SSD")
                 (list_ascii_of_string "200", list_ascii_of_string "GB")).
  { apply (find_first_first_occurrence size_at size_head size_at_head). by vm_compute. }
  split; [exact H1|]. split; [exact H2|].
  pose proof (proj1 (proj2 (proj2 calculate_database_cost_first_size))
                "MySQL"%string 0.10%float "200GB SSD"%string _ _ H1 H2) as H.
  rewrite H. by vm_compute.
Defined.

(** C10. For a kind of the rate table and a storage text with no occurrence
    of digits followed by [GB] or [TB] (in any case), the database cost is the
    float zero: the missing size is not an error. *)
Theorem calculate_database_cost_without_size
    (database : string) (rate : float) (storage_str : string) :
  (database, rate) ∈ database_rates →
  ¬ occurs size_head (list_ascii_of_string storage_str) →
  calculate_database_cost database storage_str = Ok (Py.Float 0).
Proof.
  intros Hrate Hno. rewrite calculate_database_cost_cases.
  apply database_cost_per_gb_rates in Hrate. rewrite Hrate.
  apply (find_first_occurs size_at size_head size_at_head) in Hno.
  by rewrite Hno.
Qed.

Lemma calculate_database_cost_without_size_witness :
  ("Redis"%string, 0.15%float) ∈ database_rates
  ∧ ¬ occurs size_head (list_ascii_of_string "fast SSD, 2 disks")
  ∧ calculate_database_cost "Redis" "fast SSD, 2 disks" = Ok (Py.Float 0).
Proof.
  assert (H1 : ("Redis"%string, 0.15%float) ∈ database_rates)
    by (vm_compute; do 4 right; left).
  assert (H2 : ¬ occurs size_head (list_ascii_of_string "fast SSD, 2 disks")).
  { apply (find_first_occurs size_at size_head size_at_head). by vm_compute. }
  split; [exact H1|]. split; [exact H2|].
  exact (calculate_database_cost_without_size _ _ _ H1 H2).
Defined.

(** ** Storage types *)

Lemma is_space_lower c : is_space (lower c) = is_space c.
Proof. by_cases_on_char c. Qed.

Lemma drop_while_all_false (p : ascii → bool) s :
  Forall (λ c, p c = false) s → drop_while p s = s.
Proof. destruct 1 as [|c s Hc _]; [done|]. cbn. by rewrite Hc. Qed.

Lemma strip_no_space s : Forall (λ c, is_space c = false) s → strip s = s.
Proof.
  intros H. unfold strip.
  rewrite (drop_while_all_false _ s H).
  rewrite drop_while_all_false by by apply List.Forall_rev.
  apply rev_involutive.
Qed.

Lemma spells_no_space l u :
  spells l u →
  Forall (λ c, is_space c = false) (map lower (list_ascii_of_string l)) →
  Forall (λ c, is_space c = false) u.
Proof.
  unfold spells. intros <-. rewrite Forall_map. intros H.
  eapply Forall_impl; [exact H|]. intros c. cbn. by rewrite is_space_lower.
Qed.

Lemma storage_type_lookup t :
  spells "SSD" t ∨ spells "HDD" t ∨ spells "NVMe" t →
  storage_cost_per_gb !! string_of_list_ascii (upper (strip t)) = Some (storage_rate t).
Proof.
  unfold storage_rate.
  intros [H|[H|H]].
  - rewrite strip_no_space
      by (apply (spells_no_space _ _ H); by repeat constructor).
    rewrite (upper_spells _ _ H), (bool_decide_true _ H). by vm_compute.
  - rewrite strip_no_space
      by (apply (spells_no_space _ _ H); by repeat constructor).
    rewrite (upper_spells _ _ H), (bool_decide_true (spells "HDD" t) H).
    rewrite bool_decide_false; [by vm_compute|].
    unfold spells in *. rewrite H. by vm_compute.
  - rewrite strip_no_space
      by (apply (spells_no_space _ _ H); by repeat constructor).
    rewrite (upper_spells _ _ H).
    rewrite !bool_decide_false; [by vm_compute| |];
      unfold spells in *; rewrite H; by vm_compute.
Qed.

(** ** Storage cost *)

Lemma read_component_heads component d u t :
  read_component component = Some (d, u, t) →
  (spells "TB" u ∨ spells "GB" u)
  ∧ (spells "SSD" t ∨ spells "HDD" t ∨ spells "NVMe" t).
Proof.
  unfold read_component.
  destruct (find_first size_at _) as [[d' u']|] eqn:Hs; [|done].
  destruct (find_first type_at _) as [t'|] eqn:Ht; [|done].
  intros [= -> -> ->].
  destruct (find_first_head _ _ _ _ size_at_head Hs) as (n & post & _ & _ & Hu).
  destruct (find_first_head _ _ _ _ type_at_head Ht) as (m & post' & _ & Htype).
  done.
Qed.

(** One turn of the loop: a valid component adds its cost, any other is
    reported and skipped. *)
Lemma storage_item_cases total_cost component :
  storage_item total_cost component =
    match read_component component with
    | Some c => lift (cost ← component_cost c; Py.add total_cost cost)
    | None => IO [skip_message component] (Ok total_cost)
    end.
Proof.
  pose proof (read_component_heads component) as Hheads.
  unfold storage_item, read_component, skip_message in *. cbv zeta.
  rewrite search_size, search_type.
  destruct (find_first size_at _) as [[d u]|] eqn:Hs; [|done].
  destruct (find_first type_at _) as [t|] eqn:Ht; [|done].
  destruct (Hheads d u t eq_refl) as [Hu Htype].
  cbn [fmap option_fmap option_map fst snd].
  rewrite group_1_of_2, group_2_of_2, group_1_singleton.
  rewrite (storage_type_lookup _ Htype), (size_in_gb_gigabytes _ _ Hu).
  done.
Qed.

Lemma for_each_storage_item_outcome components total_cost :
  outcome (for_each storage_item components total_cost)
  = add_costs total_cost (omap read_component components).
Proof.
  revert total_cost; induction components as [|c rest IH]; intros total_cost; [done|].
  cbn [for_each]. rewrite io_bind_outcome, storage_item_cases.
  rewrite omap_cons.
  destruct (read_component c) as [v|]; cbn [outcome lift].
  - cbn [add_costs]. destruct (component_cost v) as [cost|e]; [|done].
    cbn. destruct (Py.add total_cost cost) as [total'|e]; [|done]. apply IH.
  - apply IH.
Qed.

Lemma calculate_storage_cost_outcome storage_str :
  outcome (calculate_storage_cost storage_str) = storage_cost_spec storage_str.
Proof.
  unfold calculate_storage_cost, storage_cost_spec.
  rewrite io_bind_outcome, for_each_storage_item_outcome.
  by destruct (add_costs _ _).
Qed.


(** ** Components of a storage text *)

Lemma read_component_None component :
  read_component component = None ↔
  ¬ occurs size_head (strip component) ∨ ¬ occurs type_head (strip component).
Proof.
  unfold read_component.
  rewrite <- (find_first_occurs size_at size_head size_at_head).
  rewrite <- (find_first_occurs type_at type_head type_at_head).
  destruct (find_first size_at _) as [[d u]|]; [|split; [by left|done]].
  destruct (find_first type_at _) as [t|]; [|split; [by right|done]].
  split; [done|]. by intros [?|?].
Qed.

Lemma read_component_Some component d u t :
  read_component component = Some (d, u, t) ↔
  first_occurrence size_head (strip component) (d, u)
  ∧ first_occurrence type_head (strip component) t.
Proof.
  unfold read_component.
  rewrite <- (find_first_first_occurrence size_at size_head size_at_head).
  rewrite <- (find_first_first_occurrence type_at type_head type_at_head).
  destruct (find_first size_at _) as [[d' u']|]; [|split; [done|by intros [? _]]].
  destruct (find_first type_at _) as [t'|]; [|split; [done|by intros [_ ?]]].
  split; [by intros [= -> -> ->]|by intros [[= -> ->] [= ->]]].
Qed.

Lemma storage_item_skipped total_cost component :
  storage_item total_cost component = IO [skip_message component] (Ok total_cost)
  ↔ read_component component = None.
Proof.
  rewrite storage_item_cases.
  destruct (read_component component) as [c|]; [|done].
  split; [|done]. unfold lift. by intros [= ? _].
Qed.

Lemma lower_lower c : lower (lower c) = lower c.
Proof. by_cases_on_char c. Qed.

Lemma type_initial_lower c : type_initial (lower c) = type_initial c.
Proof. unfold type_initial. by rewrite lower_lower. Qed.

Lemma digit_not_initial c : is_digit c = true → type_initial c = false.
Proof. by_cases_on_char c. Qed.

Lemma space_not_initial c : is_space c = true → type_initial c = false.
Proof. by_cases_on_char c. Qed.

Lemma spells_Forall_false (P : ascii → bool) l u :
  (∀ c, P (lower c) = P c) →
  spells l u →
  Forall (λ c, P c = false) (map lower (list_ascii_of_string l)) →
  Forall (λ c, P c = false) u.
Proof.
  unfold spells. intros HP <-. rewrite Forall_map. intros H.
  eapply Forall_impl; [exact H|]. intros c. cbn. by rewrite HP.
Qed.

Lemma type_head_initial rest t :
  type_head rest t → ∃ c rest', rest = c :: rest' ∧ type_initial c = true.
Proof.
  intros (post & -> & Ht). unfold spells in Ht.
  destruct t as [|c t]; [by destruct Ht as [?|[?|?]]|].
  exists c, (t ++ post). split; [done|].
  unfold type_initial.
  destruct Ht as [Ht|[Ht|Ht]]; injection Ht as -> _; by vm_compute.
Qed.

(** A component that follows the grammar has its size at the very start and
    its type right after the unit and the blanks. *)
Lemma component_grammar_read g d u t :
  component_grammar g d u t →
  first_occurrence size_head g (d, u) ∧ first_occurrence type_head g t.
Proof.
  intros (w & -> & Hd & Hu & Hw & Ht). split.
  - exists []. split; [|intros; cbn; lia].
    exists (d ++ u ++ w ++ t). split; [done|]. by exists (w ++ t).
  - exists (d ++ u ++ w). split.
    + exists t. split; [by rewrite <- !app_assoc|]. exists []. by rewrite app_nil_r.
    + intros pre' t' (rest' & Heq & Hhead).
      destruct (decide (length pre' < length (d ++ u ++ w))%nat) as [Hlt|]; [exfalso|lia].
      destruct (type_head_initial _ _ Hhead) as (c & rest'' & -> & Hc).
      assert (Forall (λ c, type_initial c = false) (d ++ u ++ w)) as Hpre.
      { rewrite !Forall_app. split; [|split].
        - destruct Hd as [_ Hd]. eapply Forall_impl; [exact Hd|].
          intros x. apply digit_not_initial.
        - destruct Hu as [Hu|Hu];
            apply (spells_Forall_false _ _ _ type_initial_lower Hu); by repeat constructor.
        - eapply Forall_impl; [exact Hw|]. intros x. apply space_not_initial. }
      assert ((d ++ u ++ w) !! length pre' = Some c) as Hlookup.
      { rewrite <- (lookup_app_l _ t) by done.
        rewrite <- !app_assoc, Heq. apply list_lookup_middle. done. }
      apply list_elem_of_lookup_2 in Hlookup.
      rewrite Forall_forall in Hpre. apply Hpre in Hlookup. congruence.
Qed.

(** C7, as the code has it.  A component of the storage text counts exactly
    when, once stripped, it holds somewhere digits followed by a unit (GB or
    TB, any case) and somewhere a type (SSD, HDD or NVMe, any case): the two
    are searched for independently, so neither their order nor what lies
    between them matters.  It then adds, without a diagnostic, the cost of the
    first such size at the rate of the first such type.  In particular every
    component that follows the grammar (integer, unit, optional whitespace,
    type) counts with that size and type.  Every other component is skipped:
    one diagnostic line is printed, the total is unchanged, and the loop goes
    on with the remaining components. *)
Theorem storage_component_counts_iff_size_and_type
    (total_cost : Py.val) (component : chars) (rest : list chars) :
  (storage_item total_cost component = IO [skip_message component] (Ok total_cost)
   ↔ ¬ occurs size_head (strip component) ∨ ¬ occurs type_head (strip component))
  ∧ (occurs size_head (strip component) → occurs type_head (strip component) →
     ∃ d unit type,
       first_occurrence size_head (strip component) (d, unit)
       ∧ first_occurrence type_head (strip component) type
       ∧ storage_item total_cost component
         = lift (cost ← component_cost (d, unit, type); Py.add total_cost cost))
  ∧ (∀ d unit type,
       component_grammar (strip component) d unit type →
       storage_item total_cost component
       = lift (cost ← component_cost (d, unit, type); Py.add total_cost cost))
  ∧ (storage_item total_cost component = IO [skip_message component] (Ok total_cost) →
     for_each storage_item (component :: rest) total_cost
     = IO (skip_message component :: trace (for_each storage_item rest total_cost))
          (outcome (for_each storage_item rest total_cost))).
Proof.
  split; [by rewrite storage_item_skipped, read_component_None|].
  split; [|split].
  - intros Hsize Htype.
    destruct (read_component component) as [[[d u] t]|] eqn:Hread.
    + exists d, u, t. apply read_component_Some in Hread as Hfirst.
      destruct Hfirst as [Hs Ht]. split; [done|]. split; [done|].
      by rewrite storage_item_cases, Hread.
    + apply read_component_None in Hread as [Hno|Hno]; by destruct Hno.
  - intros d u t Hgrammar.
    apply component_grammar_read in Hgrammar.
    apply read_component_Some in Hgrammar.
    by rewrite storage_item_cases, Hgrammar.
  - intros Hskip. cbn [for_each]. rewrite Hskip.
    unfold mbind, io_bind. cbn [outcome trace]. done.
Qed.

Lemma storage_component_counts_witness :
  let component := list_ascii_of_string " 1TB HDD" in
  component_grammar (strip component)
    (list_ascii_of_string "1") (list_ascii_of_string "TB") (list_ascii_of_string "HDD")
  ∧ storage_item (Py.Float 40) component = IO [] (Ok (Py.Float 86.08)).
Proof.
  intros component.
  assert (H : component_grammar (strip component)
                (list_ascii_of_string "1") (list_ascii_of_string "TB")
                (list_ascii_of_string "HDD")).
  { exists (list_ascii_of_string " "). vm_compute.
    split; [done|]. split; [split; [done|by repeat constructor]|].
    split; [by left|]. split; [by repeat constructor|]. right; by left. }
  split; [exact H|].
  rewrite (proj1 (proj2 (proj2
    (storage_component_counts_iff_size_and_type (Py.Float 40) component []))) _ _ _ H).
  by vm_compute.
Defined.

(** C7, as stated, fails on the component [SSD 500GB]: it does not follow the
    grammar (no part of it does: the only type in it stands at its start, with
    no size before it), yet it is not skipped and counts 500 GB at the SSD
    rate. *)
Lemma storage_component_outside_grammar_counts :
  (∀ d unit type,
     ¬ component_grammar (strip (list_ascii_of_string "SSD 500GB")) d unit type)
  ∧ ¬ component_grammar_within (list_ascii_of_string "SSD 500GB")
  ∧ storage_item (Py.Int 0) (list_ascii_of_string "SSD 500GB") = IO [] (Ok (Py.Float 40))
  ∧ calculate_storage_cost "SSD 500GB" = IO [] (Ok (Py.Float 40)).
Proof.
  assert (Hwithin : ¬ component_grammar_within (list_ascii_of_string "SSD 500GB")).
  { intros (pre & g & post & d & u & t & Heq & w & -> & [Hd _] & _ & _ & Ht).
    assert (type_at (drop (length (pre ++ d ++ u ++ w)) (list_ascii_of_string "SSD 500GB"))
            = Some t) as Hat.
    { apply type_at_head. rewrite Heq.
      replace (pre ++ (d ++ u ++ w ++ t) ++ post)
        with ((pre ++ d ++ u ++ w) ++ t ++ post) by by rewrite <- !app_assoc.
      rewrite drop_app_length. by exists post. }
    assert (1 <= length (pre ++ d ++ u ++ w))%nat as Hlen.
    { rewrite !length_app. destruct d; [done|cbn; lia]. }
    revert Hat Hlen. generalize (length (pre ++ d ++ u ++ w)). intros n.
    destruct n as [|n]; [lia|].
    do 9 (destruct n as [|n]; [by vm_compute|]). by vm_compute. }
  split; [|split; [done|split; by vm_compute]].
  intros d u t Hg. apply Hwithin.
  exists [], (strip (list_ascii_of_string "SSD 500GB")), [], d, u, t.
  split; [by vm_compute|done].
Qed.

(** ** The storage cost of a text *)

(** Where the grammar matches a part of a component, a type stands at least
    three characters into it: after a digit and the two letters of a unit. *)
Lemma grammar_within_type_later component :
  component_grammar_within component →
  ∃ n t, (3 <= n)%nat ∧ type_at (drop n component) = Some t.
Proof.
  intros (pre & g & post & d & u & t & Heq & w & -> & [Hd _] & Hu & _ & Ht).
  exists (length (pre ++ d ++ u ++ w)), t. split.
  - assert (length u = 2%nat) as Hlen.
    { destruct Hu as [Hu|Hu]; apply (f_equal length) in Hu;
        by rewrite !length_map in Hu. }
    rewrite !length_app, Hlen. destruct d; [done|cbn; lia].
  - apply type_at_head. rewrite Heq.
    replace (pre ++ (d ++ u ++ w ++ t) ++ post)
      with ((pre ++ d ++ u ++ w) ++ t ++ post) by by rewrite <- !app_assoc.
    rewrite drop_app_length. by exists post.
Qed.

(** C5, as the code has it.  [calculate_storage_cost] splits the text on the
    plus signs.  A component counts when, once stripped, it holds somewhere a
    size (digits followed by GB or TB, in any case) and somewhere a type (SSD,
    HDD or NVMe, in any case): it then counts the gigabytes of its first size
    (the number, times 1024 for TB) times the rate of its first type (SSD
    0.08, HDD 0.045, NVMe 0.10).  Every component that follows the grammar
    (integer, unit, optional whitespace, type) counts so, with its own size
    and type.  The costs are added up in order from 0 and the sum is rounded
    to two decimals.  [500GB SSD + 1TB HDD] costs 86.08.  The empty text has
    one component, which holds no size, and costs the integer 0, equal to
    0.00; so does every text none of whose components holds both a size and
    a type. *)
Theorem calculate_storage_cost_sums_components :
  (∀ storage_str,
     outcome (calculate_storage_cost storage_str) = storage_cost_spec storage_str)
  ∧ (∀ component d unit type,
       read_component component = Some (d, unit, type)
       ↔ first_occurrence size_head (strip component) (d, unit)
         ∧ first_occurrence type_head (strip component) type)
  ∧ (∀ component,
       read_component component = None
       ↔ ¬ occurs size_head (strip component) ∨ ¬ occurs type_head (strip component))
  ∧ (∀ component d unit type,
       component_grammar (strip component) d unit type →
       read_component component = Some (d, unit, type))
  ∧ (∀ type, (spells "SSD" type → storage_rate type = 0.08%float)
             ∧ (spells "HDD" type → storage_rate type = 0.045%float)
             ∧ (spells "NVMe" type → storage_rate type = 0.10%float))
  ∧ (∀ n, gigabytes n (list_ascii_of_string "TB") = n * 1024
          ∧ gigabytes n (list_ascii_of_string "GB") = n)
  ∧ calculate_storage_cost "500GB SSD + 1TB HDD" = IO [] (Ok (Py.Float 86.08))
  ∧ calculate_storage_cost "" = IO [skip_message []] (Ok (Py.Int 0))
  ∧ Py.eqb (Py.Int 0) (Py.Float 0.00) = true
  ∧ (∀ storage_str,
       Forall (λ c, ¬ occurs size_head (strip c) ∨ ¬ occurs type_head (strip c))
         (split_plus (list_ascii_of_string storage_str)) →
       outcome (calculate_storage_cost storage_str) = Ok (Py.Int 0)).
Proof.
  split; [apply calculate_storage_cost_outcome|].
  split; [apply read_component_Some|].
  split; [apply read_component_None|].
  split.
  { intros component d u t Hgrammar.
    by apply read_component_Some, component_grammar_read. }
  split.
  { intros type. unfold storage_rate. repeat split; intros H.
    - by rewrite (bool_decide_true _ H).
    - rewrite bool_decide_false, (bool_decide_true _ H); [done|].
      unfold spells in *. rewrite H. by vm_compute.
    - rewrite !bool_decide_false; [done| |]; unfold spells in *; rewrite H; by vm_compute. }
  split.
  { intros n. unfold gigabytes. split.
    - by rewrite bool_decide_true.
    - by rewrite bool_decide_false. }
  split; [by vm_compute|]. split; [by vm_compute|]. split; [by vm_compute|].
  intros storage_str Hall. rewrite calculate_storage_cost_outcome.
  unfold storage_cost_spec. cbv zeta.
  replace (omap read_component (split_plus (list_ascii_of_string storage_str)))
    with (@nil (chars * chars * chars)); [done|].
  symmetry. induction Hall as [|c rest Hc _ IH]; [done|].
  apply read_component_None in Hc. by rewrite omap_cons, Hc.
Qed.

Lemma calculate_storage_cost_witness :
  Forall (λ c, ¬ occurs size_head (strip c) ∨ ¬ occurs type_head (strip c))
    (split_plus (list_ascii_of_string "fast disk + 5 GB SSD"))
  ∧ outcome (calculate_storage_cost "fast disk + 5 GB SSD") = Ok (Py.Int 0).
Proof.
  assert (H : Forall (λ c, ¬ occurs size_head (strip c) ∨ ¬ occurs type_head (strip c))
                (split_plus (list_ascii_of_string "fast disk + 5 GB SSD"))).
  { assert (split_plus (list_ascii_of_string "fast disk + 5 GB SSD")
            = [list_ascii_of_string "fast disk "; list_ascii_of_string " 5 GB SSD"]) as ->
      by (vm_compute; reflexivity).
    constructor; [|constructor; [|constructor]];
      apply read_component_None; vm_compute; reflexivity. }
  split; [exact H|].
  exact (proj2 (proj2 (proj2 (proj2 (proj2 (proj2 (proj2 (proj2 (proj2
           calculate_storage_cost_sums_components)))))))) _ H).
Defined.

(** C5, as stated, fails on the text [HDD 1TB + SSD 500GB].  Neither of its
    components follows the grammar, nor does any part of either: the type
    stands before the size.  All its components are invalid, then, yet the
    text costs 46.08 + 40.00 = 86.08 and not 0.00. *)
Lemma storage_text_outside_grammar_costs :
  Forall (λ c, ¬ component_grammar_within c
               ∧ ∀ d unit type, ¬ component_grammar (strip c) d unit type)
    (split_plus (list_ascii_of_string "HDD 1TB + SSD 500GB"))
  ∧ calculate_storage_cost "HDD 1TB + SSD 500GB" = IO [] (Ok (Py.Float 86.08))
  ∧ Py.eqb (Py.Float 86.08) (Py.Float 0.00) = false.
Proof.
  split; [|split; by vm_compute].
  assert (split_plus (list_ascii_of_string "HDD 1TB + SSD 500GB")
          = [list_ascii_of_string "HDD 1TB "; list_ascii_of_string " SSD 500GB"]) as ->
    by (vm_compute; reflexivity).
  assert (∀ c, (∀ n, (3 <= n)%nat → type_at (drop n c) = None) →
               (∀ n, (3 <= n)%nat → type_at (drop n (strip c)) = None) →
               ¬ component_grammar_within c
               ∧ ∀ d unit type, ¬ component_grammar (strip c) d unit type) as Houtside.
  { intros c Hc Hs. split.
    - intros (n & t & Hn & Hat)%grammar_within_type_later. by rewrite Hc in Hat.
    - intros d u t Hg.
      destruct (grammar_within_type_later (strip c)) as (n & t' & Hn & Hat).
      + exists [], (strip c), [], d, u, t. by rewrite app_nil_r.
      + by rewrite Hs in Hat. }
  constructor; [|constructor; [|constructor]];
    apply Houtside; intros n Hn;
    do 3 (destruct n as [|n]; [lia|]);
    do 8 (destruct n as [|n]; [by vm_compute|]); by vm_compute.
Qed.

(** ** Fields passed through by the parser *)

Lemma extract_cpu_ram_omap requirements :
  extract_cpu_ram requirements = omap parse requirements.
Proof.
  unfold extract_cpu_ram.
  rewrite (fold_left_append_omap parse); [done|]. intros acc x. by destruct (parse x).
Qed.

Lemma ec2_extract_cpu_ram_omap requirements :
  EC2CostEstimation.extract_cpu_ram requirements = omap EC2CostEstimation.parse requirements.
Proof.
  unfold EC2CostEstimation.extract_cpu_ram.
  rewrite (fold_left_append_omap EC2CostEstimation.parse); [done|].
  intros acc x. by destruct (EC2CostEstimation.parse x).
Qed.

(** C9, as the code has it.  In [CostEstimationLambda.py] every entry of
    [extract_cpu_ram]'s output comes from a record of the input and carries
    that record's Server Name, IP Address, Storage and Database unchanged.  In
    [EC2CostEstimation-Lambda.py] every entry comes from a record of the input
    and carries its Server Name and IP Address unchanged; the entry has the
    four keys Server Name, IP Address, CPU and RAM, and neither Storage nor
    Database. *)
Theorem extract_cpu_ram_passes_fields_through (requirements : list RawRequirement) :
  (∀ r, r ∈ extract_cpu_ram requirements →
     ∃ req, req ∈ requirements ∧ parse req = Some r
       ∧ req_Server_Name r = raw_Server_Name req
       ∧ req_IP_Address r = raw_IP_Address req
       ∧ req_Storage r = raw_Storage req
       ∧ req_Database r = raw_Database req
       ∧ ∀ key, key ∈ ["Server Name"; "IP Address"; "Storage"; "Database"]%string →
                req_dict r !! key = raw_dict req !! key)
  ∧ (∀ r, r ∈ EC2CostEstimation.extract_cpu_ram requirements →
       ∃ req, req ∈ requirements ∧ EC2CostEstimation.parse req = Some r
         ∧ EC2CostEstimation.req_Server_Name r = raw_Server_Name req
         ∧ EC2CostEstimation.req_IP_Address r = raw_IP_Address req
         ∧ (∀ key, key ∈ ["Server Name"; "IP Address"]%string →
                   ec2_req_dict r !! key = raw_dict req !! key)
         ∧ dom (ec2_req_dict r) = {[ "Server Name"; "IP Address"; "CPU"; "RAM" ]}%string
         ∧ ec2_req_dict r !! "Storage"%string = None
         ∧ ec2_req_dict r !! "Database"%string = None).
Proof.
  split.
  - intros r. rewrite extract_cpu_ram_omap, list_elem_of_omap.
    intros (req & Hin & Hparse). exists req. split; [done|]. split; [done|].
    rewrite parse_cases in Hparse.
    destruct (find_first cpu_at _) as [d|]; [|done].
    destruct (find_first ram_at _) as [d'|]; [|done].
    injection Hparse as <-. cbn. repeat split.
    intros key Hkey. rewrite !elem_of_cons, elem_of_nil in Hkey.
    destruct Hkey as [->|[->|[->|[->|[]]]]]; by vm_compute.
  - intros r. rewrite ec2_extract_cpu_ram_omap, list_elem_of_omap.
    intros (req & Hin & Hparse). exists req. split; [done|]. split; [done|].
    unfold EC2CostEstimation.parse in Hparse.
    destruct (Re.search cpu_pattern _) as [cm|]; [|done].
    destruct (Re.search ram_pattern _) as [rm|]; [|done].
    injection Hparse as <-. cbn. repeat split.
    intros key Hkey. rewrite !elem_of_cons, elem_of_nil in Hkey.
    destruct Hkey as [->|[->|[]]]; by vm_compute.
Qed.

Lemma extract_cpu_ram_witness :
  let r := {| req_Server_Name := "srv1"; req_IP_Address := "10.0.0.1";
              req_Storage := "100GB SSD"; req_Database := "None";
              req_CPU := 2; req_RAM := 4 |} in
  r ∈ extract_cpu_ram [one_server]
  ∧ ∃ req, req ∈ [one_server]
      ∧ req_Storage r = raw_Storage req ∧ req_Database r = raw_Database req.
Proof.
  intros r.
  assert (H : r ∈ extract_cpu_ram [one_server]) by (vm_compute; left).
  split; [exact H|].
  destruct (proj1 (extract_cpu_ram_passes_fields_through [one_server]) r H)
    as (req & Hin & _ & _ & _ & Hs & Hd & _).
  by exists req.
Defined.

(** C9, as stated, fails in [EC2CostEstimation-Lambda.py]: the entry made from
    a record with a Storage and a Database has neither key. *)
Lemma ec2_extract_cpu_ram_drops_storage_and_database :
  ∃ r, EC2CostEstimation.extract_cpu_ram [one_server] = [r]
    ∧ raw_dict one_server !! "Storage"%string = Some (Py.Str "100GB SSD")
    ∧ ec2_req_dict r !! "Storage"%string = None
    ∧ raw_dict one_server !! "Database"%string = Some (Py.Str "None")
    ∧ ec2_req_dict r !! "Database"%string = None.
Proof. eexists. split; [by vm_compute|]. by vm_compute. Qed.

(** * Further properties of the code *)

(** ** The matcher beyond sufficiency *)

Lemma fold_consider_settled req (m : Instance) b catalog :
  bm_vCPUs b = vCPUs m → bm_MemoryMiB b = MemoryMiB m →
  (∀ item, item ∈ catalog → qualifies req item.2 = true →
           vCPUs m <= vCPUs item.2 ∧ MemoryMiB m <= MemoryMiB item.2) →
  fold_left (consider req) catalog (Some b) = Some b.
Proof.
  intros Hv Hm. induction catalog as [|item rest IH]; intros Hall; [done|].
  cbn [fold_left]. rewrite consider_unfold.
  destruct (qualifies req item.2) eqn:Hq.
  - destruct (Hall item ltac:(by left) Hq) as [Hv' Hm'].
    unfold replaces. rewrite Hv, Hm.
    rewrite (proj2 (Z.ltb_ge _ _) Hv'), (proj2 (Z.ltb_ge _ _) Hm'). cbn.
    apply IH. intros i Hi. apply Hall. by right.
  - apply IH. intros i Hi. apply Hall. by right.
Qed.

Lemma fold_consider_least req (m : string * Instance) catalog st :
  (∀ item, item ∈ catalog → qualifies req item.2 = true →
           vCPUs m.2 <= vCPUs item.2 ∧ MemoryMiB m.2 <= MemoryMiB item.2) →
  m ∈ catalog → qualifies req m.2 = true →
  match st with
  | None => True
  | Some b => vCPUs m.2 <= bm_vCPUs b ∧ MemoryMiB m.2 <= bm_MemoryMiB b
  end →
  ∃ b, fold_left (consider req) catalog st = Some b
       ∧ bm_vCPUs b = vCPUs m.2 ∧ bm_MemoryMiB b = MemoryMiB m.2.
Proof.
  revert st. induction catalog as [|item rest IH]; intros st Hall Hin Hq Hst.
  { by apply elem_of_nil in Hin. }
  cbn [fold_left]. rewrite consider_unfold.
  assert (Hrest : ∀ i, i ∈ rest → qualifies req i.2 = true →
                       vCPUs m.2 <= vCPUs i.2 ∧ MemoryMiB m.2 <= MemoryMiB i.2)
    by (intros i Hi; apply Hall; by right).
  apply elem_of_cons in Hin as [<-|Hin].
  - rewrite Hq.
    assert (∃ b, match st with
                 | None => Some (as_best m)
                 | Some b0 => if replaces m.2 b0 then Some (as_best m) else Some b0
                 end = Some b
                 ∧ bm_vCPUs b = vCPUs m.2 ∧ bm_MemoryMiB b = MemoryMiB m.2)
      as (b & -> & Hv & Hm).
    { destruct st as [b0|]; [|by eexists].
      destruct (replaces m.2 b0) eqn:Hr; [by eexists|].
      exists b0. split; [done|]. unfold replaces in Hr.
      apply orb_false_iff in Hr as [Hv%Z.ltb_ge Hm%Z.ltb_ge]. lia. }
    exists b. by rewrite (fold_consider_settled req m.2 b rest Hv Hm Hrest).
  - apply IH; [done..|].
    destruct (qualifies req item.2) eqn:Hqi; [|done].
    destruct (Hall item ltac:(by left) Hqi) as [Hv Hm].
    destruct st as [b0|]; [|done].
    by destruct (replaces item.2 b0).
Qed.

(** X1. When the catalog holds a qualifying instance that is smallest in both
    vCPUs and memory among the qualifying ones, the matcher returns an
    instance of exactly that capacity, whatever the order of the catalog. *)
Theorem best_match_for_least_capacity
    (req : Requirement) (catalog : Catalog) (m : string * Instance) :
  m ∈ catalog →
  qualifies req m.2 = true →
  (∀ item, item ∈ catalog → qualifies req item.2 = true →
           vCPUs m.2 <= vCPUs item.2 ∧ MemoryMiB m.2 <= MemoryMiB item.2) →
  ∃ b, best_match_for req catalog = Some b
       ∧ bm_vCPUs b = vCPUs m.2 ∧ bm_MemoryMiB b = MemoryMiB m.2.
Proof.
  intros Hin Hq Hall. unfold best_match_for.
  by apply (fold_consider_least req m catalog None).
Qed.

Lemma best_match_for_least_capacity_witness :
  let req :=
    {| req_Server_Name := "srv1"; req_IP_Address := "10.0.0.1";
       req_Storage := "100GB SSD"; req_Database := "None";
       req_CPU := 2; req_RAM := 4 |} in
  let catalog : Catalog :=
    [ ("m5.large"%string, {| vCPUs := 2; MemoryMiB := 8 |});
      ("t2.small"%string, {| vCPUs := 1; MemoryMiB := 2 |});
      ("t3.medium"%string, {| vCPUs := 2; MemoryMiB := 4 |}) ] in
  ∃ b, best_match_for req catalog = Some b ∧ bm_vCPUs b = 2 ∧ bm_MemoryMiB b = 4.
Proof.
  intros req catalog.
  apply (best_match_for_least_capacity req catalog
           ("t3.medium"%string, {| vCPUs := 2; MemoryMiB := 4 |})).
  - do 2 right. left.
  - reflexivity.
  - intros item Hitem Hq.
    repeat (apply elem_of_cons in Hitem as [->|Hitem]; [cbn in *; first [lia | done]|]).
    by apply elem_of_nil in Hitem.
Defined.

(** X2. The instance the matcher returns stands somewhere in the catalog and
    qualifies, and no qualifying instance that comes after it in the catalog
    has fewer vCPUs or less memory than it. *)
Theorem best_match_for_not_beaten_later
    (req : Requirement) (catalog : Catalog) (b : BestMatch) :
  best_match_for req catalog = Some b →
  ∃ before item after,
    catalog = before ++ item :: after
    ∧ as_best item = b
    ∧ qualifies req item.2 = true
    ∧ ∀ later, later ∈ after → qualifies req later.2 = true →
               bm_vCPUs b <= vCPUs later.2 ∧ bm_MemoryMiB b <= MemoryMiB later.2.
Proof.
  revert b. induction catalog as [|x l IH] using rev_ind; intros b; [done|].
  rewrite best_match_for_snoc, consider_unfold.
  destruct (qualifies req x.2) eqn:Hq.
  - destruct (best_match_for req l) as [b0|] eqn:Hl.
    + destruct (replaces x.2 b0) eqn:Hr.
      * intros [= <-]. exists l, x, []. split; [done|]. split; [done|]. split; [done|].
        intros later Hlater. by apply elem_of_nil in Hlater.
      * intros [= <-]. destruct (IH b0 eq_refl) as (before & item & after & -> & Hb & Hqi & Hafter).
        exists before, item, (after ++ [x]).
        split; [by rewrite <- app_assoc|]. split; [done|]. split; [done|].
        intros later Hlater%elem_of_app Hql. destruct Hlater as [Hlater|Hlater].
        { by apply Hafter. }
        apply list_elem_of_singleton in Hlater as ->.
        unfold replaces in Hr. apply orb_false_iff in Hr as [?%Z.ltb_ge ?%Z.ltb_ge]. lia.
    + intros [= <-]. exists l, x, []. split; [done|]. split; [done|]. split; [done|].
      intros later Hlater. by apply elem_of_nil in Hlater.
  - intros Hb. destruct (IH b Hb) as (before & item & after & -> & Hbi & Hqi & Hafter).
    exists before, item, (after ++ [x]).
    split; [by rewrite <- app_assoc|]. split; [done|]. split; [done|].
    intros later Hlater%elem_of_app Hql. destruct Hlater as [Hlater|Hlater].
    { by apply Hafter. }
    apply list_elem_of_singleton in Hlater as ->. congruence.
Qed.

Lemma best_match_for_not_beaten_later_witness :
  let req :=
    {| req_Server_Name := "srv1"; req_IP_Address := "10.0.0.1";
       req_Storage := "100GB SSD"; req_Database := "None";
       req_CPU := 2; req_RAM := 4 |} in
  let catalog : Catalog :=
    [ ("m5.large"%string, {| vCPUs := 2; MemoryMiB := 8 |});
      ("t3.medium"%string, {| vCPUs := 2; MemoryMiB := 4 |});
      ("c5.xlarge"%string, {| vCPUs := 4; MemoryMiB := 8 |}) ] in
  ∃ before item after,
    catalog = before ++ item :: after
    ∧ as_best item = {| bm_InstanceType := "t3.medium"; bm_vCPUs := 2; bm_MemoryMiB := 4 |}.
Proof.
  intros req catalog.
  destruct (best_match_for_not_beaten_later req catalog
              {| bm_InstanceType := "t3.medium"; bm_vCPUs := 2; bm_MemoryMiB := 4 |}
              eq_refl) as (before & item & after & H1 & H2 & _).
  by exists before, item, after.
Defined.

(** X3. The selection depends on the order of the catalog: of two qualifying
    instances of which one has fewer vCPUs and the other less memory, the
    matcher returns the one that comes second. *)
Theorem best_match_for_order_dependent
    (req : Requirement) (a b : string * Instance) :
  qualifies req a.2 = true →
  qualifies req b.2 = true →
  vCPUs a.2 < vCPUs b.2 →
  MemoryMiB b.2 < MemoryMiB a.2 →
  best_match_for req [a; b] = Some (as_best b)
  ∧ best_match_for req [b; a] = Some (as_best a).
Proof.
  intros Ha Hb Hv Hm. unfold best_match_for. cbn [fold_left].
  repeat (rewrite consider_unfold || rewrite Ha || rewrite Hb).
  unfold replaces, as_best. cbn.
  rewrite (proj2 (Z.ltb_lt _ _) Hv), (proj2 (Z.ltb_lt _ _) Hm).
  by rewrite orb_true_r.
Qed.

Lemma best_match_for_order_dependent_witness :
  let req :=
    {| req_Server_Name := "srv1"; req_IP_Address := "10.0.0.1";
       req_Storage := "100GB SSD"; req_Database := "None";
       req_CPU := 2; req_RAM := 4 |} in
  let a := ("r5.large"%string, {| vCPUs := 2; MemoryMiB := 16 |}) in
  let b := ("c5.xlarge"%string, {| vCPUs := 4; MemoryMiB := 8 |}) in
  best_match_for req [a; b] = Some (as_best b)
  ∧ best_match_for req [b; a] = Some (as_best a).
Proof.
  intros req a b.
  apply (best_match_for_order_dependent req a b); reflexivity.
Defined.

(** ** What the parser and the matcher keep of their input *)

Lemma digit_value_range c : is_digit c = true → 0 <= digit_value c <= 9.
Proof. by_cases_on_char c. Qed.

Lemma fold_digits_nonneg d acc :
  Forall (λ c, is_digit c = true) d → 0 <= acc →
  0 <= fold_left (λ acc c, 10 * acc + digit_value c) d acc.
Proof.
  intros Hd. revert acc. induction Hd as [|c d Hc _ IH]; intros acc Hacc; [done|].
  cbn [fold_left]. apply IH. pose proof (digit_value_range c Hc). lia.
Qed.

Lemma int_of_digits_nonneg d : digits d → 0 <= int_of_digits d.
Proof. intros [_ Hd]. by apply fold_digits_nonneg. Qed.

Lemma parse_nonneg req r : parse req = Some r → 0 <= req_CPU r ∧ 0 <= req_RAM r.
Proof.
  rewrite parse_cases.
  destruct (find_first cpu_at _) as [d|] eqn:Hc; [|done].
  destruct (find_first ram_at _) as [d'|] eqn:Hr; [|done].
  intros [= <-]. cbn.
  destruct (find_first_head _ _ _ _ cpu_at_head Hc) as (n & w & post & _ & Hd & _).
  destruct (find_first_head _ _ _ _ ram_at_head Hr) as (n' & post' & _ & Hd').
  split; by apply int_of_digits_nonneg.
Qed.

Lemma matched_entry_sufficient catalog req m :
  matched_entry catalog req = Some m →
  req_CPU req <= mi_CPU m ∧ req_RAM req <= mi_RAM m
  ∧ mi_Server_Name m = req_Server_Name req
  ∧ mi_IP_Address m = req_IP_Address req
  ∧ mi_Storage m = req_Storage req
  ∧ mi_Database m = req_Database req.
Proof.
  unfold matched_entry.
  destruct (best_match_for req catalog) as [b|] eqn:Hb; [|done].
  intros [= <-]. cbn. rewrite best_match_for_spec in Hb.
  pose proof (match_spec_invariant req
    (λ b, req_CPU req <= bm_vCPUs b ∧ req_RAM req <= bm_MemoryMiB b) catalog b) as Hinv.
  destruct Hinv as [Hcpu Hram]; [|done|done].
  intros [name [v mem]] _ Hq. unfold qualifies in Hq. cbn in *.
  by apply andb_true_iff in Hq as [?%Z.leb_le ?%Z.leb_le].
Qed.

(** X4. The CPU and the RAM of every parsed requirement are non-negative
    integers, and so are the CPU and the RAM of every entry the matcher
    makes from parsed requirements, whatever the catalog holds. *)
Theorem parsed_and_matched_capacities_nonnegative
    (requirements : list RawRequirement) (catalog : Catalog) :
  (∀ r, r ∈ extract_cpu_ram requirements → 0 <= req_CPU r ∧ 0 <= req_RAM r)
  ∧ (∀ m, m ∈ find_best_match (extract_cpu_ram requirements) catalog →
          0 <= mi_CPU m ∧ 0 <= mi_RAM m).
Proof.
  assert (Hparsed : ∀ r, r ∈ extract_cpu_ram requirements →
                         0 <= req_CPU r ∧ 0 <= req_RAM r).
  { intros r. rewrite extract_cpu_ram_omap, list_elem_of_omap.
    intros (req & _ & Hparse). by apply (parse_nonneg req). }
  split; [done|].
  intros m. rewrite find_best_match_omap, list_elem_of_omap.
  intros (r & Hr & Hm). apply Hparsed in Hr.
  apply matched_entry_sufficient in Hm. lia.
Qed.

Lemma omap_map_sublist {X Y K : Type} (f : X → option Y) (g : Y → K) (h : X → K) xs :
  (∀ x y, f x = Some y → g y = h x) →
  map g (omap f xs) `sublist_of` map h xs.
Proof.
  intros Hf. induction xs as [|x xs IH]; [done|].
  rewrite omap_cons. destruct (f x) as [y|] eqn:E; cbn [map].
  - rewrite (Hf x y E). by apply sublist_skip.
  - by apply sublist_cons.
Qed.

Lemma omap_length_all {X Y : Type} (f : X → option Y) xs :
  (length (omap f xs) <= length xs)%nat
  ∧ (length (omap f xs) = length xs ↔ Forall (λ x, is_Some (f x)) xs).
Proof.
  induction xs as [|x xs [IHle IHeq]]; [by split|].
  rewrite omap_cons, Forall_cons. destruct (f x) as [y|]; cbn [length].
  - split; [lia|]. rewrite <- IHeq. split; [intros [= ?]; by split|intros [_ ->]; done].
  - split; [lia|]. split; [lia|]. by intros [[? [=]] _].
Qed.

(** X5. [extract_cpu_ram] is a filter: it handles each record on its own, so
    the output for two lists put end to end is the two outputs put end to
    end; it keeps the order, and the records it returns are, by server name,
    address, storage and database, a sub-list of the records it was given; it
    returns as many records as it was given exactly when every one of them
    parses. *)
Theorem extract_cpu_ram_is_a_filter (requirements more : list RawRequirement) :
  extract_cpu_ram (requirements ++ more)
  = extract_cpu_ram requirements ++ extract_cpu_ram more
  ∧ map (λ r, (req_Server_Name r, req_IP_Address r, req_Storage r, req_Database r))
      (extract_cpu_ram requirements)
    `sublist_of`
    map (λ req, (raw_Server_Name req, raw_IP_Address req, raw_Storage req, raw_Database req))
      requirements
  ∧ (length (extract_cpu_ram requirements) <= length requirements)%nat
  ∧ (length (extract_cpu_ram requirements) = length requirements
     ↔ Forall (λ req, is_Some (parse req)) requirements).
Proof.
  rewrite !extract_cpu_ram_omap. split; [apply omap_app|]. split.
  - apply omap_map_sublist. intros req r. rewrite parse_cases.
    destruct (find_first cpu_at _); [|done]. destruct (find_first ram_at _); [|done].
    by intros [= <-].
  - apply omap_length_all.
Qed.

Lemma matched_entry_is_Some catalog r :
  is_Some (matched_entry catalog r) ↔ Exists (λ item, qualifies r item.2 = true) catalog.
Proof.
  unfold matched_entry. rewrite best_match_for_spec.
  destruct (match_spec r catalog) as [b|] eqn:Hb.
  - split; [intros _|by eexists].
    induction catalog as [|item rest IH]; [done|].
    cbn [match_spec] in Hb. destruct (qualifies r item.2) eqn:Hq.
    + by apply Exists_cons_hd.
    + apply Exists_cons_tl. by apply IH.
  - split; [by intros [? [=]]|].
    intros Hex. apply match_spec_none in Hb.
    apply Exists_exists in Hex as (item & Hin & Hq).
    rewrite Forall_forall in Hb. rewrite (Hb item Hin) in Hq. done.
Qed.

Lemma find_best_match_empty_catalog filtered_data :
  find_best_match filtered_data [] = [].
Proof.
  rewrite find_best_match_omap.
  induction filtered_data as [|r rs IH]; [done|]. by rewrite omap_cons.
Qed.

(** X6. [find_best_match] handles each requirement on its own and keeps the
    order: the output for two lists put end to end is the two outputs put end
    to end, and its entries are, by server name, address, storage and
    database, a sub-list of the requirements.  It returns an entry for every
    requirement exactly when for every requirement some instance of the
    catalog qualifies.  With an empty catalog the output is empty. *)
Theorem find_best_match_is_a_filter
    (filtered_data more : list Requirement) (catalog : Catalog) :
  find_best_match (filtered_data ++ more) catalog
  = find_best_match filtered_data catalog ++ find_best_match more catalog
  ∧ map (λ m, (mi_Server_Name m, mi_IP_Address m, mi_Storage m, mi_Database m))
      (find_best_match filtered_data catalog)
    `sublist_of`
    map (λ r, (req_Server_Name r, req_IP_Address r, req_Storage r, req_Database r))
      filtered_data
  ∧ (length (find_best_match filtered_data catalog) = length filtered_data
     ↔ Forall (λ r, Exists (λ item, qualifies r item.2 = true) catalog) filtered_data)
  ∧ find_best_match filtered_data [] = [].
Proof.
  rewrite !find_best_match_omap. split; [apply omap_app|]. split; [|split].
  - apply omap_map_sublist. intros r m Hm.
    apply matched_entry_sufficient in Hm as (_ & _ & -> & -> & -> & ->). done.
  - rewrite (proj2 (omap_length_all (matched_entry catalog) filtered_data)).
    apply Forall_iff. intros r. apply matched_entry_is_Some.
  - by rewrite <- find_best_match_omap, find_best_match_empty_catalog.
Qed.

(** ** The handler beyond its failures *)

(** X7. A failed fetch of the catalog is not fatal: [fetch_ec2_instance_types]
    then hands over an empty catalog, and with an empty catalog and a
    non-empty requirement list the handler matches nothing, asks no price,
    uploads an empty report and answers 200 when that upload works. *)
Theorem lambda_handler_with_empty_catalog (env : Env) :
  fetch_ec2_instance_types env = [] →
  fetch_requirements_from_s3 env ≠ [] →
  lambda_handler env =
    IO [FetchInstanceTypes; FetchRequirements; StoreResults []]
       (Ok (if store_results_in_s3_csv env []
            then {| statusCode := 200; body := CSV_stored_successfully |}
            else {| statusCode := 500; body := Failed_to_upload_CSV |})).
Proof.
  intros Hcat Hreq. rewrite lambda_handler_paths.
  destruct (fetch_requirements_from_s3 env) as [|r rs]; [done|].
  rewrite Hcat. cbv zeta.
  by rewrite find_best_match_empty_catalog.
Qed.

Lemma lambda_handler_with_empty_catalog_witness :
  let env :=
    {| fetch_ec2_instance_types := [];
       fetch_requirements_from_s3 := [one_server];
       get_instance_price := λ _, None;
       store_results_in_s3_csv := λ _, true |} in
  lambda_handler env =
    IO [FetchInstanceTypes; FetchRequirements; StoreResults []]
       (Ok {| statusCode := 200; body := CSV_stored_successfully |}).
Proof.
  intros env.
  exact (lambda_handler_with_empty_catalog env eq_refl ltac:(discriminate)).
Defined.

Lemma float_of_int_24 : Py.float_of_int 24 = Ok 24%float.
Proof. by vm_compute. Qed.

Lemma float_of_int_30 : Py.float_of_int 30 = Ok 30%float.
Proof. by vm_compute. Qed.

(** The monthly compute cost of a priced hour, as both handlers compute
    it. *)
Lemma monthly_cost_value (hourly_price : float) :
  (cost ← Py.mul (Py.Float hourly_price) (Py.Int 24);
   cost ← Py.mul cost (Py.Int 30);
   Py.round2 cost)
  = Ok (Py.Float (Py.round_float2 (hourly_price * 24 * 30))).
Proof. cbn. rewrite float_of_int_24. cbn. rewrite float_of_int_30. done. Qed.

Lemma price_instance_ok env instance p :
  outcome (price_instance env instance) = Ok p → priced_from env instance p.
Proof.
  unfold price_instance, priced_from. cbv zeta.
  rewrite io_bind_outcome; cbn [emit outcome].
  rewrite io_bind_outcome.
  destruct (get_instance_price env (mi_InstanceType instance)) as [h|] eqn:Hh.
  - cbn [lift outcome]. rewrite monthly_cost_value.
    rewrite io_bind_outcome.
    destruct (outcome (calculate_storage_cost _)) as [sc|e] eqn:Hsc; [|done].
    rewrite io_bind_outcome; cbn [lift outcome].
    destruct (calculate_database_cost _ _) as [dc|e] eqn:Hdc; [|done].
    rewrite io_bind_outcome; cbn [lift outcome].
    destruct (_ ≫= _) as [total|e] eqn:Htotal; [|done].
    cbn. intros [= <-]. cbn. split; [done|]. split; [by exists h|]. done.
  - cbn [mret io_ret outcome]. rewrite io_bind_outcome.
    destruct (outcome (calculate_storage_cost _)) as [sc|e] eqn:Hsc; [|done].
    apply calculate_storage_cost_number in Hsc.
    rewrite io_bind_outcome; cbn [lift outcome].
    destruct (calculate_database_cost _ _) as [dc|e]; [|done].
    rewrite io_bind_outcome; cbn [lift outcome].
    by rewrite add_str_number.
Qed.

Lemma price_loop_ok env matched_instances acc priced :
  outcome (for_each
             (λ priced instance, p ← price_instance env instance; mret (priced ++ [p]))
             matched_instances acc) = Ok priced →
  ∃ ps, priced = acc ++ ps ∧ Forall2 (priced_from env) matched_instances ps.
Proof.
  revert acc. induction matched_instances as [|m ms IH]; intros acc.
  - cbn. intros [= <-]. exists []. by rewrite app_nil_r.
  - cbn [for_each]. rewrite !io_bind_outcome.
    destruct (outcome (price_instance env m)) as [p|e] eqn:Hp; [|done].
    cbn [mret io_ret outcome].
    intros (ps & -> & Hps)%IH. exists (p :: ps).
    split; [by rewrite <- app_assoc|].
    constructor; [by apply price_instance_ok|done].
Qed.

(** X8. Whatever the handler uploads is complete: the report has one record
    per matched entry, in the order of the matched entries, and each record
    was priced in full.  Its instance type had an hourly price [h], its
    monthly cost is [h * 24 * 30] rounded to two decimals, its storage and
    database costs are what [calculate_storage_cost] and
    [calculate_database_cost] return for its storage and database, and its
    total is the sum of the three, rounded.  So no report with a missing price
    is ever uploaded. *)
Theorem lambda_handler_uploads_fully_priced_records
    (env : Env) (data : list PricedInstance) :
  StoreResults data ∈ trace (lambda_handler env) →
  Forall2 (priced_from env)
    (find_best_match (extract_cpu_ram (fetch_requirements_from_s3 env))
       (fetch_ec2_instance_types env))
    data.
Proof.
  rewrite lambda_handler_paths.
  destruct (fetch_requirements_from_s3 env) as [|r rs] eqn:Hreq.
  { cbn. intros H. repeat (apply elem_of_cons in H as [?|H]; [done|]).
    by apply elem_of_nil in H. }
  cbv zeta.
  pose proof (price_all_trace env
    (find_best_match (extract_cpu_ram (r :: rs)) (fetch_ec2_instance_types env))) as Htrace.
  rewrite Forall_forall in Htrace.
  destruct (outcome (price_all env _)) as [priced|e] eqn:Hp; cbn [trace].
  - rewrite !elem_of_app. intros [H|[H|H]].
    + repeat (apply elem_of_cons in H as [?|H]; [done|]). by apply elem_of_nil in H.
    + by apply Htrace in H.
    + apply list_elem_of_singleton in H. injection H as ->.
      unfold price_all in Hp. apply price_loop_ok in Hp as (ps & -> & Hps). done.
  - rewrite !elem_of_app. intros [H|[H|H]].
    + repeat (apply elem_of_cons in H as [?|H]; [done|]). by apply elem_of_nil in H.
    + by apply Htrace in H.
    + by apply list_elem_of_singleton in H.
Qed.

Lemma lambda_handler_uploads_witness :
  let env :=
    {| fetch_ec2_instance_types := [("t3.medium"%string, {| vCPUs := 2; MemoryMiB := 4 |})];
       fetch_requirements_from_s3 := [one_server];
       get_instance_price := λ _, Some 0.05%float;
       store_results_in_s3_csv := λ _, true |} in
  let record :=
    {| pi_matched :=
         {| mi_Server_Name := "srv1"; mi_IP_Address := "10.0.0.1";
            mi_CPU := 2; mi_RAM := 4; mi_InstanceType := "t3.medium";
            mi_Storage := "100GB SSD"; mi_Database := "None" |};
       pi_Monthly_Cost := Py.Float 36;
       pi_Monthly_Storage_Cost := Py.Float 8;
       pi_Monthly_Database_Cost := Py.Float 0;
       pi_Total_Pricing := Py.Float 44 |} in
  StoreResults [record] ∈ trace (lambda_handler env)
  ∧ Forall2 (priced_from env)
      (find_best_match (extract_cpu_ram (fetch_requirements_from_s3 env))
         (fetch_ec2_instance_types env))
      [record].
Proof.
  intros env record.
  assert (H : StoreResults [record] ∈ trace (lambda_handler env)).
  { vm_compute. do 3 right. left. }
  split; [exact H|].
  exact (lambda_handler_uploads_fully_priced_records env [record] H).
Defined.

(** ** Storage text: diagnostics and blanks *)

Lemma for_each_storage_item_trace components total_cost v :
  outcome (for_each storage_item components total_cost) = Ok v →
  trace (for_each storage_item components total_cost) = skipped_lines components.
Proof.
  revert total_cost. induction components as [|c rest IH]; intros total_cost; [done|].
  cbn [for_each]. rewrite io_bind_outcome, io_bind_trace, storage_item_cases.
  unfold skipped_lines. rewrite omap_cons. fold (skipped_lines rest).
  destruct (read_component c) as [x|]; cbn [outcome trace lift].
  - destruct (_ ≫= _) as [total'|e]; [|done]. cbn [app]. apply IH.
  - intros H. cbn [app]. f_equal. by apply IH.
Qed.

(** X9. When [calculate_storage_cost] returns, it has printed exactly one
    diagnostic line for each component in which it finds no size or no type,
    in the order of the components, and nothing else; so it prints nothing
    exactly when every component counts. *)
Theorem calculate_storage_cost_diagnostics (storage_str : string) (v : Py.val) :
  outcome (calculate_storage_cost storage_str) = Ok v →
  trace (calculate_storage_cost storage_str)
  = skipped_lines (split_plus (list_ascii_of_string storage_str))
  ∧ (trace (calculate_storage_cost storage_str) = []
     ↔ Forall (λ c, is_Some (read_component c))
         (split_plus (list_ascii_of_string storage_str))).
Proof.
  unfold calculate_storage_cost. rewrite io_bind_outcome, io_bind_trace.
  destruct (outcome (for_each _ _ _)) as [total|e] eqn:Hloop; [|done].
  intros _. apply for_each_storage_item_trace in Hloop. cbn [lift trace].
  rewrite app_nil_r, Hloop. split; [done|].
  generalize (split_plus (list_ascii_of_string storage_str)). intros components.
  unfold skipped_lines. induction components as [|c rest IH]; [by split|].
  rewrite omap_cons, Forall_cons. destruct (read_component c) as [x|].
  - rewrite IH. split; [by split|by intros [_ ?]].
  - split; [done|]. by intros [[? [=]] _].
Qed.

Lemma calculate_storage_cost_diagnostics_witness :
  outcome (calculate_storage_cost "500GB SSD + fast disk + 1TB HDD") = Ok (Py.Float 86.08)
  ∧ trace (calculate_storage_cost "500GB SSD + fast disk + 1TB HDD")
    = [Print "DEBUG: Skipping invalid storage entry: fast disk"].
Proof.
  assert (H : outcome (calculate_storage_cost "500GB SSD + fast disk + 1TB HDD")
              = Ok (Py.Float 86.08)) by by vm_compute.
  split; [exact H|].
  rewrite (proj1 (calculate_storage_cost_diagnostics _ _ H)). by vm_compute.
Defined.

Lemma drop_while_all (p : ascii → bool) w :
  Forall (λ c, p c = true) w → drop_while p w = [].
Proof. induction 1 as [|c w Hc _ IH]; [done|]. cbn. by rewrite Hc. Qed.

Lemma drop_while_app_all (p : ascii → bool) w s :
  Forall (λ c, p c = true) w → drop_while p (w ++ s) = drop_while p s.
Proof. induction 1 as [|c w Hc _ IH]; [done|]. cbn. by rewrite Hc. Qed.

Lemma drop_while_app (p : ascii → bool) c w :
  drop_while p (c ++ w) =
    match drop_while p c with
    | [] => drop_while p w
    | r => r ++ w
    end.
Proof.
  induction c as [|x c IH]; cbn.
  - by destruct (drop_while p w).
  - destruct (p x); [apply IH|done].
Qed.

Lemma strip_blanks_around w1 c w2 :
  Forall (λ x, is_space x = true) w1 →
  Forall (λ x, is_space x = true) w2 →
  strip (w1 ++ c ++ w2) = strip c.
Proof.
  intros H1 H2. unfold strip.
  rewrite drop_while_app_all by done. rewrite drop_while_app.
  destruct (drop_while is_space c) as [|r0 r] eqn:Hc.
  - by rewrite (drop_while_all _ w2 H2).
  - rewrite rev_app_distr. rewrite drop_while_app_all; [done|].
    by apply List.Forall_rev.
Qed.

(** X10. Whitespace around a component of the storage text never matters: a
    component with blanks added before and after it is counted, or skipped
    and reported, exactly as without them. *)
Theorem storage_item_ignores_blanks_around
    (total_cost : Py.val) (w1 component w2 : chars) :
  Forall (λ x, is_space x = true) w1 →
  Forall (λ x, is_space x = true) w2 →
  storage_item total_cost (w1 ++ component ++ w2) = storage_item total_cost component.
Proof.
  intros H1 H2. unfold storage_item. by rewrite strip_blanks_around.
Qed.

Lemma storage_item_ignores_blanks_witness :
  storage_item (Py.Int 0) (list_ascii_of_string "  500GB SSD ")
  = storage_item (Py.Int 0) (list_ascii_of_string "500GB SSD").
Proof.
  apply (storage_item_ignores_blanks_around (Py.Int 0)
           (list_ascii_of_string "  ") (list_ascii_of_string "500GB SSD")
           (list_ascii_of_string " ")); by repeat constructor.
Defined.

(** ** Database cost: only the first size counts *)

Lemma list_ascii_of_string_app s t :
  list_ascii_of_string (String.append s t) = list_ascii_of_string s ++ list_ascii_of_string t.
Proof.
  induction s as [|c s IH]; [done|].
  change (c :: list_ascii_of_string (String.append s t)
          = c :: (list_ascii_of_string s ++ list_ascii_of_string t)).
  by rewrite IH.
Qed.

Lemma unit_shape u :
  spells "TB" u ∨ spells "GB" u →
  length u = 2%nat ∧ ∃ c u', u = c :: u' ∧ is_digit c = false.
Proof.
  intros Hu. split.
  - destruct Hu as [Hu|Hu]; apply (f_equal length) in Hu; by rewrite length_map in Hu.
  - destruct u as [|c u'].
    + by destruct Hu as [Hu|Hu].
    + exists c, u'. split; [done|].
      destruct Hu as [Hu|Hu]; by apply (spells_head_not_digit _ _ _ Hu eq_refl).
Qed.

Lemma first_size_survives_append s t du :
  first_occurrence size_head s du → first_occurrence size_head (s ++ t) du.
Proof.
  destruct du as [d u].
  intros (pre & (rest & -> & (post & -> & Hd & Hu)) & Hmin). cbn [fst snd] in *.
  exists pre. split.
  { exists ((d ++ u ++ post) ++ t). split; [by rewrite <- app_assoc|].
    exists (post ++ t). cbn [fst snd]. by rewrite <- !app_assoc. }
  intros pre' [d' u'] (rest' & Heq & (post' & -> & Hd' & Hu')). cbn [fst snd] in *.
  destruct (decide (length pre' < length pre)%nat) as [Hlt|]; [exfalso|lia].
  destruct (unit_shape u Hu) as (Hlen & c0 & u0 & -> & Hc0).
  destruct (unit_shape u' Hu') as (Hlen' & _).
  set (s := pre ++ d ++ (c0 :: u0) ++ post) in *.
  assert (Hs0 : (s ++ t) !! (length pre + length d)%nat = Some c0).
  { replace (s ++ t) with ((pre ++ d) ++ c0 :: (u0 ++ post ++ t))
      by (unfold s; by rewrite <- !app_assoc).
    apply list_lookup_middle. by rewrite length_app. }
  assert (Hle : (length pre' + length d' <= length pre + length d)%nat).
  { destruct (decide (length pre' + length d' <= length pre + length d)%nat); [done|].
    exfalso. rewrite Heq in Hs0.
    rewrite lookup_app_r in Hs0 by lia.
    rewrite lookup_app_l in Hs0 by lia.
    destruct Hd' as [_ Hd']. rewrite Forall_lookup in Hd'.
    apply Hd' in Hs0. congruence. }
  assert (Hn : (length (pre' ++ d' ++ u') <= length s)%nat).
  { unfold s. rewrite !length_app. cbn [length] in *. lia. }
  assert (Htake : take (length (pre' ++ d' ++ u')) s = pre' ++ d' ++ u').
  { rewrite <- (take_app_le s t) by done. rewrite Heq.
    replace (pre' ++ d' ++ u' ++ post') with ((pre' ++ d' ++ u') ++ post')
      by by rewrite <- !app_assoc.
    apply take_app_length. }
  assert (occurs_at size_head s pre' (d', u')) as Hocc.
  { exists (d' ++ u' ++ drop (length (pre' ++ d' ++ u')) s). split.
    - rewrite <- (take_drop (length (pre' ++ d' ++ u')) s) at 1.
      rewrite Htake. by rewrite <- !app_assoc.
    - by eexists. }
  apply Hmin in Hocc. lia.
Qed.

(** X11. The database cost looks at the first size of the storage text only:
    once the text holds digits followed by a unit, nothing appended to it,
    such as further components with sizes of their own, changes the database
    cost. *)
Theorem calculate_database_cost_ignores_what_follows
    (database storage_str more : string) :
  occurs size_head (list_ascii_of_string storage_str) →
  calculate_database_cost database (String.append storage_str more)
  = calculate_database_cost database storage_str.
Proof.
  intros Hocc. rewrite !calculate_database_cost_cases.
  destruct (database_cost_per_gb !! database) as [rate|]; [|done].
  destruct (find_first size_at (list_ascii_of_string storage_str)) as [du|] eqn:Hfirst.
  2:{ apply (find_first_occurs size_at size_head size_at_head) in Hfirst. done. }
  apply (find_first_first_occurrence size_at size_head size_at_head) in Hfirst.
  apply (first_size_survives_append _ (list_ascii_of_string more)) in Hfirst.
  apply (find_first_first_occurrence size_at size_head size_at_head) in Hfirst.
  by rewrite list_ascii_of_string_app, Hfirst.
Qed.

Lemma calculate_database_cost_ignores_witness :
  occurs size_head (list_ascii_of_string "200GB SSD")
  ∧ calculate_database_cost "MySQL" "200GB SSD + 4TB HDD" = Ok (Py.Float 20).
Proof.
  assert (H : occurs size_head (list_ascii_of_string "200GB SSD")).
  { destruct (find_first size_at (list_ascii_of_string "200GB SSD")) as [du|] eqn:E;
      [|by vm_compute in E].
    destruct (find_first_head _ _ _ _ size_at_head E) as [n Hn].
    exists (take n (list_ascii_of_string "200GB SSD")), du,
           (drop n (list_ascii_of_string "200GB SSD")).
    split; [by rewrite take_drop|done]. }
  split; [exact H|].
  change "200GB SSD + 4TB HDD"%string with (String.append "200GB SSD" " + 4TB HDD").
  rewrite (calculate_database_cost_ignores_what_follows "MySQL" _ " + 4TB HDD" H).
  by vm_compute.
Defined.

(** ** The catalog built by fetch_ec2_instance_types *)

Lemma dict_set_keys (d : Catalog) key value :
  (Fetch.dict_set d key value).*1
  = if bool_decide (key ∈ d.*1) then d.*1 else d.*1 ++ [key].
Proof.
  induction d as [|[k v] d IH]; [done|].
  cbn [Fetch.dict_set]. rewrite (fmap_cons fst (k, v) d). cbn [fst].
  destruct (decide (k = key)) as [->|Hk].
  - rewrite bool_decide_true by done. rewrite fmap_cons. cbn [fst].
    by rewrite bool_decide_true by (apply elem_of_cons; by left).
  - rewrite (bool_decide_false (k = key)) by done.
    rewrite fmap_cons. cbn [fst]. rewrite IH.
    destruct (decide (key ∈ d.*1)) as [Hin|Hin].
    + rewrite (bool_decide_true (key ∈ d.*1)) by done.
      by rewrite bool_decide_true by (apply elem_of_cons; by right).
    + rewrite (bool_decide_false (key ∈ d.*1)) by done.
      rewrite bool_decide_false; [done|].
      intros [?|?]%elem_of_cons; [by subst|done].
Qed.

Lemma dict_set_NoDup (d : Catalog) key value :
  NoDup d.*1 → NoDup (Fetch.dict_set d key value).*1.
Proof.
  intros Hd. rewrite dict_set_keys.
  destruct (decide (key ∈ d.*1)) as [Hin|Hin];
    [by rewrite bool_decide_true|rewrite bool_decide_false by done].
  apply NoDup_app. split; [done|]. split; [|apply NoDup_singleton].
  intros x Hx ->%list_elem_of_singleton. done.
Qed.

Lemma dict_get_set (d : Catalog) key value key' :
  Fetch.dict_get (Fetch.dict_set d key value) key'
  = if bool_decide (key = key') then Some value else Fetch.dict_get d key'.
Proof.
  induction d as [|[k v] d IH]; cbn [Fetch.dict_set Fetch.dict_get]; [done|].
  destruct (decide (k = key)) as [->|Hk].
  - rewrite (bool_decide_true (key = key)) by done. cbn [Fetch.dict_get].
    by destruct (bool_decide (key = key')).
  - rewrite (bool_decide_false (k = key)) by done. cbn [Fetch.dict_get].
    rewrite IH. destruct (decide (k = key')) as [->|Hk'].
    + rewrite (bool_decide_true (key' = key')) by done.
      by rewrite bool_decide_false by done.
    + by rewrite (bool_decide_false (k = key')) by done.
Qed.

Lemma dict_get_elem_of (d : Catalog) key value :
  NoDup d.*1 → (key, value) ∈ d ↔ Fetch.dict_get d key = Some value.
Proof.
  induction d as [|[k v] d IH]; intros Hd.
  - split; [by intros ?%elem_of_nil|done].
  - rewrite fmap_cons in Hd. cbn [fst] in Hd. apply NoDup_cons in Hd as [Hk Hd].
    cbn [Fetch.dict_get]. rewrite elem_of_cons.
    destruct (decide (k = key)) as [->|Hkey].
    + rewrite bool_decide_true by done. split.
      * intros [[= ->]|Hin]; [done|].
        exfalso. apply Hk. apply list_elem_of_fmap. by exists (key, value).
      * intros [= ->]. by left.
    + rewrite bool_decide_false by done. rewrite <- (IH Hd). split; [|by right].
      intros [[= -> ->]|?]; done.
Qed.

Lemma add_instance_entry d info :
  Fetch.add_instance d info =
    match catalog_entry info with
    | Some (name, instance) => Ok (Fetch.dict_set d name instance)
    | None => Raise KeyError
    end.
Proof.
  unfold Fetch.add_instance, catalog_entry.
  by destruct (Fetch.DefaultVCpus info), (Fetch.SizeInMiB info), (Fetch.InstanceType info).
Qed.

(** The loop writes every description, or stops with [KeyError] at the first
    one that lacks a key. *)
Lemma build_cases infos d :
  Fetch.build infos d =
    if bool_decide (Forall (λ info, is_Some (catalog_entry info)) infos)
    then Ok (fold_left (λ d info, match catalog_entry info with
                                  | Some (name, instance) => Fetch.dict_set d name instance
                                  | None => d
                                  end) infos d)
    else Raise KeyError.
Proof.
  revert d. induction infos as [|info infos IH]; intros d; [done|].
  cbn [Fetch.build fold_left]. rewrite add_instance_entry.
  destruct (catalog_entry info) as [[name instance]|] eqn:E.
  - cbn. rewrite IH.
    destruct (decide (Forall (λ info, is_Some (catalog_entry info)) infos)) as [H|H].
    + rewrite !bool_decide_true; [done|by constructor; [rewrite E|]|done].
    + rewrite !bool_decide_false; [done|by intros [_ ?]%Forall_cons|done].
  - cbn. rewrite bool_decide_false; [done|].
    intros [[? Hsome] _]%Forall_cons. congruence.
Qed.

Section CatalogFold.
Let step (d : Catalog) (info : Fetch.InstanceTypeInfo) : Catalog :=
  match catalog_entry info with
  | Some (name, instance) => Fetch.dict_set d name instance
  | None => d
  end.

Lemma catalog_fold_NoDup infos d : NoDup d.*1 → NoDup (fold_left step infos d).*1.
Proof.
  revert d. induction infos as [|info infos IH]; intros d Hd; [done|].
  cbn [fold_left]. apply IH. unfold step.
  destruct (catalog_entry info) as [[name instance]|]; [by apply dict_set_NoDup|done].
Qed.

Lemma catalog_fold_get infos d name :
  Fetch.dict_get (fold_left step infos d) name
  = fold_left
      (λ found info,
         match catalog_entry info with
         | Some (n, instance) => if bool_decide (n = name) then Some instance else found
         | None => found
         end)
      infos (Fetch.dict_get d name).
Proof.
  revert d. induction infos as [|info infos IH]; intros d; [done|].
  cbn [fold_left]. rewrite IH. f_equal. unfold step.
  destruct (catalog_entry info) as [[n instance]|]; [|done].
  apply dict_get_set.
Qed.

Lemma catalog_fold_keys infos d :
  Forall (λ info, is_Some (catalog_entry info)) infos →
  (fold_left step infos d).*1
  = fold_left (λ seen n, if bool_decide (n ∈ seen) then seen else seen ++ [n])
      (omap Fetch.InstanceType infos) d.*1.
Proof.
  intros Hall. revert d. induction Hall as [|info infos [[n instance] Hinfo] _ IH]; intros d.
  { done. }
  cbn [fold_left]. rewrite IH. unfold step. rewrite Hinfo.
  assert (Fetch.InstanceType info = Some n) as Hn.
  { unfold catalog_entry in Hinfo.
    destruct (Fetch.DefaultVCpus info), (Fetch.SizeInMiB info), (Fetch.InstanceType info);
      try done. by injection Hinfo as -> _. }
  rewrite omap_cons, Hn. cbn [fold_left]. by rewrite dict_set_keys.
Qed.
End CatalogFold.

Lemma last_described_from infos name found instance :
  fold_left
    (λ found info,
       match catalog_entry info with
       | Some (n, instance) => if bool_decide (n = name) then Some instance else found
       | None => found
       end)
    infos found = Some instance →
  found = Some instance ∨ ∃ info, info ∈ infos ∧ catalog_entry info = Some (name, instance).
Proof.
  revert found. induction infos as [|info infos IH]; intros found; [by left|].
  cbn [fold_left]. intros [H|(i & Hi & He)]%IH.
  - destruct (catalog_entry info) as [[n inst]|] eqn:E; [|by left].
    destruct (decide (n = name)) as [->|Hn].
    + rewrite bool_decide_true in H by done. injection H as ->.
      right. exists info. split; [by left|done].
    + rewrite bool_decide_false in H by done. by left.
  - right. exists i. split; [by right|done].
Qed.

Lemma last_described_stays infos name instance :
  is_Some (fold_left
    (λ found info,
       match catalog_entry info with
       | Some (n, instance) => if bool_decide (n = name) then Some instance else found
       | None => found
       end)
    infos (Some instance)).
Proof.
  revert instance. induction infos as [|info infos IH]; intros instance; [by eexists|].
  cbn [fold_left]. destruct (catalog_entry info) as [[n i]|]; [|apply IH].
  destruct (bool_decide (n = name)); apply IH.
Qed.

Lemma last_described_is_Some infos name info instance found :
  info ∈ infos → catalog_entry info = Some (name, instance) →
  is_Some (fold_left
    (λ found info,
       match catalog_entry info with
       | Some (n, instance) => if bool_decide (n = name) then Some instance else found
       | None => found
       end)
    infos found).
Proof.
  revert found. induction infos as [|i infos IH]; intros found Hin He.
  { by apply elem_of_nil in Hin. }
  cbn [fold_left]. apply elem_of_cons in Hin as [<-|Hin]; [|by apply IH].
  rewrite He, bool_decide_true by done. apply last_described_stays.
Qed.

Lemma catalog_entry_fields info name instance :
  catalog_entry info = Some (name, instance) ↔
  Fetch.InstanceType info = Some name
  ∧ Fetch.DefaultVCpus info = Some (vCPUs instance)
  ∧ ∃ mib, Fetch.SizeInMiB info = Some mib ∧ MemoryMiB instance = mib / 1024.
Proof.
  unfold catalog_entry.
  destruct (Fetch.DefaultVCpus info) as [v|], (Fetch.SizeInMiB info) as [m|],
    (Fetch.InstanceType info) as [n|]; split; try done;
    try (by intros (? & ? & ? & ? & ?)).
  - intros [= <- <-]. cbn. split; [done|]. split; [done|]. by exists m.
  - destruct instance as [v' m']. cbn. intros ([= ->] & [= ->] & mib & [= ->] & ->). done.
Qed.

Lemma fetch_ok infos catalog :
  Fetch.fetch_ec2_instance_types (Ok infos) = IO [] (Ok catalog) →
  Forall (λ info, is_Some (catalog_entry info)) infos
  ∧ catalog = fold_left (λ d info, match catalog_entry info with
                                   | Some (name, instance) => Fetch.dict_set d name instance
                                   | None => d
                                   end) infos [].
Proof.
  unfold Fetch.fetch_ec2_instance_types. cbn. rewrite build_cases.
  destruct (decide (Forall (λ info, is_Some (catalog_entry info)) infos)) as [H|H].
  - rewrite bool_decide_true by done. by intros [= <-].
  - by rewrite bool_decide_false by done.
Qed.

(** X12. The catalog that [fetch_ec2_instance_types] returns never lists an
    instance type twice.  Each of its entries comes from a description of the
    answer with that name and that number of vCPUs, and its memory is the
    described size in MiB divided by 1024 and truncated, never rounded up.
    Every described instance type is in the catalog. *)
Theorem fetched_catalog_entries
    (infos : list Fetch.InstanceTypeInfo) (catalog : Catalog) :
  Fetch.fetch_ec2_instance_types (Ok infos) = IO [] (Ok catalog) →
  NoDup catalog.*1
  ∧ (∀ name instance, (name, instance) ∈ catalog →
       ∃ info mib,
         info ∈ infos
         ∧ Fetch.InstanceType info = Some name
         ∧ Fetch.DefaultVCpus info = Some (vCPUs instance)
         ∧ Fetch.SizeInMiB info = Some mib
         ∧ 1024 * MemoryMiB instance <= mib < 1024 * MemoryMiB instance + 1024)
  ∧ (∀ info, info ∈ infos →
       ∃ name, Fetch.InstanceType info = Some name ∧ name ∈ catalog.*1).
Proof.
  intros [Hall ->]%fetch_ok.
  assert (Hnodup : NoDup (fold_left (λ d info, match catalog_entry info with
                            | Some (name, instance) => Fetch.dict_set d name instance
                            | None => d
                            end) infos []).*1)
    by (apply catalog_fold_NoDup; constructor).
  split; [done|]. split.
  - intros name instance Hin.
    apply (dict_get_elem_of _ _ _ Hnodup) in Hin.
    rewrite catalog_fold_get in Hin. cbn [Fetch.dict_get] in Hin.
    apply last_described_from in Hin as [?|(info & Hinfo & He)]; [done|].
    apply catalog_entry_fields in He as (Hn & Hv & mib & Hm & Hmem).
    exists info, mib. repeat (split; [done|]).
    rewrite Hmem. pose proof (Z.mul_div_le mib 1024 ltac:(lia)).
    pose proof (Z.mul_succ_div_gt mib 1024 ltac:(lia)). lia.
  - intros info Hinfo. rewrite Forall_forall in Hall.
    destruct (Hall info Hinfo) as [[name instance] He].
    exists name. split; [by apply catalog_entry_fields in He as [? _]|].
    destruct (last_described_is_Some infos name info instance None Hinfo He) as [i Hi].
    change None with (Fetch.dict_get [] name) in Hi.
    rewrite <- catalog_fold_get in Hi.
    apply (dict_get_elem_of _ _ _ Hnodup) in Hi.
    apply list_elem_of_fmap. by exists (name, i).
Qed.

Lemma fetched_catalog_entries_witness :
  let infos :=
    [ {| Fetch.InstanceType := Some "t3.medium"%string;
         Fetch.DefaultVCpus := Some 2; Fetch.SizeInMiB := Some 4096 |};
      {| Fetch.InstanceType := Some "t3.nano"%string;
         Fetch.DefaultVCpus := Some 2; Fetch.SizeInMiB := Some 512 |} ] in
  let catalog : Catalog :=
    [ ("t3.medium"%string, {| vCPUs := 2; MemoryMiB := 4 |});
      ("t3.nano"%string, {| vCPUs := 2; MemoryMiB := 0 |}) ] in
  Fetch.fetch_ec2_instance_types (Ok infos) = IO [] (Ok catalog) ∧ NoDup catalog.*1.
Proof.
  intros infos catalog.
  assert (H : Fetch.fetch_ec2_instance_types (Ok infos) = IO [] (Ok catalog))
    by reflexivity.
  split; [exact H|]. exact (proj1 (fetched_catalog_entries infos catalog H)).
Defined.

(** X13. As a dict the catalog holds, for each name, the capacity of the last
    description of that name in the answer; its items stand in the order in
    which the names first appear in the answer, which is the order in which
    the matcher walks them. *)
Theorem fetched_catalog_last_description_first_position
    (infos : list Fetch.InstanceTypeInfo) (catalog : Catalog) :
  Fetch.fetch_ec2_instance_types (Ok infos) = IO [] (Ok catalog) →
  (∀ name, Fetch.dict_get catalog name = last_described infos name)
  ∧ (∀ name instance, (name, instance) ∈ catalog ↔ last_described infos name = Some instance)
  ∧ catalog.*1 = first_appearances (omap Fetch.InstanceType infos).
Proof.
  intros [Hall ->]%fetch_ok.
  assert (Hget : ∀ name, Fetch.dict_get (fold_left (λ d info, match catalog_entry info with
                            | Some (name, instance) => Fetch.dict_set d name instance
                            | None => d
                            end) infos []) name = last_described infos name)
    by (intros name; by rewrite catalog_fold_get).
  split; [done|]. split.
  - intros name instance. rewrite <- Hget. apply dict_get_elem_of.
    apply catalog_fold_NoDup. constructor.
  - by rewrite catalog_fold_keys.
Qed.

Lemma fetched_catalog_last_description_witness :
  let infos :=
    [ {| Fetch.InstanceType := Some "t3.medium"%string;
         Fetch.DefaultVCpus := Some 2; Fetch.SizeInMiB := Some 4096 |};
      {| Fetch.InstanceType := Some "m5.large"%string;
         Fetch.DefaultVCpus := Some 2; Fetch.SizeInMiB := Some 8192 |};
      {| Fetch.InstanceType := Some "t3.medium"%string;
         Fetch.DefaultVCpus := Some 4; Fetch.SizeInMiB := Some 5000 |} ] in
  let catalog : Catalog :=
    [ ("t3.medium"%string, {| vCPUs := 4; MemoryMiB := 4 |});
      ("m5.large"%string, {| vCPUs := 2; MemoryMiB := 8 |}) ] in
  Fetch.fetch_ec2_instance_types (Ok infos) = IO [] (Ok catalog)
  ∧ catalog.*1 = first_appearances (omap Fetch.InstanceType infos).
Proof.
  intros infos catalog.
  assert (H : Fetch.fetch_ec2_instance_types (Ok infos) = IO [] (Ok catalog))
    by reflexivity.
  split; [exact H|].
  exact (proj2 (proj2 (fetched_catalog_last_description_first_position infos catalog H))).
Defined.

(** X14. [fetch_ec2_instance_types] never raises and keeps nothing of a failed
    fetch: when the call to the API raises, or when any one description of
    the answer lacks its name, its vCPUs or its memory size, the exception is
    logged and the catalog returned is empty, whatever the other descriptions
    hold.  It logs nothing exactly when every description has the three. *)
Theorem fetch_ec2_instance_types_failure :
  (∀ e, Fetch.fetch_ec2_instance_types (Raise e) = IO [LogError e] (Ok []))
  ∧ (∀ infos,
       Exists (λ info, Fetch.InstanceType info = None
                       ∨ Fetch.DefaultVCpus info = None
                       ∨ Fetch.SizeInMiB info = None) infos →
       Fetch.fetch_ec2_instance_types (Ok infos) = IO [LogError KeyError] (Ok []))
  ∧ (∀ infos,
       trace (Fetch.fetch_ec2_instance_types (Ok infos)) = []
       ↔ Forall (λ info, is_Some (Fetch.InstanceType info)
                         ∧ is_Some (Fetch.DefaultVCpus info)
                         ∧ is_Some (Fetch.SizeInMiB info)) infos)
  ∧ (∀ answer, ∃ catalog, outcome (Fetch.fetch_ec2_instance_types answer) = Ok catalog).
Proof.
  assert (Hentry : ∀ info, is_Some (catalog_entry info)
                           ↔ is_Some (Fetch.InstanceType info)
                             ∧ is_Some (Fetch.DefaultVCpus info)
                             ∧ is_Some (Fetch.SizeInMiB info)).
  { intros info. split.
    - intros [[name instance] He].
      apply catalog_entry_fields in He as (Hn & Hv & mib & Hm & _).
      rewrite Hn, Hv, Hm. by repeat split; eexists.
    - intros ([n Hn] & [v Hv] & [m Hm]).
      exists (n, {| vCPUs := v; MemoryMiB := m / 1024 |}).
      apply catalog_entry_fields. cbn. split; [done|]. split; [done|]. by exists m. }
  split; [done|]. split; [|split].
  - intros infos Hex. unfold Fetch.fetch_ec2_instance_types. cbn. rewrite build_cases.
    rewrite bool_decide_false; [done|].
    intros Hall. apply Exists_exists in Hex as (info & Hin & Hmiss).
    rewrite Forall_forall in Hall. apply Hall, Hentry in Hin as ([? H1] & [? H2] & [? H3]).
    destruct Hmiss as [?|[?|?]]; congruence.
  - intros infos. unfold Fetch.fetch_ec2_instance_types. cbn. rewrite build_cases.
    destruct (decide (Forall (λ info, is_Some (catalog_entry info)) infos)) as [H|H].
    + rewrite bool_decide_true by done. cbn. split; [intros _|done].
      eapply Forall_impl; [exact H|]. intros info. apply Hentry.
    + rewrite bool_decide_false by done. cbn. split; [done|]. intros Hall.
      exfalso. apply H. eapply Forall_impl; [exact Hall|]. intros info. apply Hentry.
  - intros answer. unfold Fetch.fetch_ec2_instance_types.
    destruct (_ ≫= _); by eexists.
Qed.

Lemma fetch_ec2_instance_types_failure_witness :
  let infos :=
    [ {| Fetch.InstanceType := Some "t3.medium"%string;
         Fetch.DefaultVCpus := Some 2; Fetch.SizeInMiB := Some 4096 |};
      {| Fetch.InstanceType := Some "m5.large"%string;
         Fetch.DefaultVCpus := None; Fetch.SizeInMiB := Some 8192 |} ] in
  Fetch.fetch_ec2_instance_types (Ok infos) = IO [LogError KeyError] (Ok []).
Proof.
  intros infos.
  apply (proj1 (proj2 fetch_ec2_instance_types_failure) infos).
  apply Exists_cons_tl, Exists_cons_hd. right. by left.
Defined.

(** ** The parsers on any sheet *)

Lemma variant_parse_cases (req : Raw.Row) :
  Raw.Variant.parse req =
    match req !! "CPU"%string with
    | None => Raise KeyError
    | Some (Py.Str cpu) =>
        match req !! "RAM"%string with
        | None => Raise KeyError
        | Some (Py.Str ram) =>
            match find_first cpu_at (list_ascii_of_string cpu),
                  find_first ram_at (list_ascii_of_string ram) with
            | Some d, Some d' =>
                server_name ← Raw.getitem req "Server Name";
                ip_address ← Raw.getitem req "IP Address";
                cpu ← Raw.int_of_str d;
                ram ← Raw.int_of_str d';
                Ok (Some {| Raw.Variant.req_Server_Name := server_name;
                            Raw.Variant.req_IP_Address := ip_address;
                            Raw.Variant.req_CPU := cpu;
                            Raw.Variant.req_RAM := ram |})
            | _, _ => Ok None
            end
        | Some _ => Raise TypeError
        end
    | Some _ => Raise TypeError
    end.
Proof.
  unfold Raw.Variant.parse, Raw.getitem.
  destruct (req !! "CPU"%string) as [[| |cpu]|]; try done.
  cbn [mbind result_bind Raw.re_search].
  destruct (req !! "RAM"%string) as [[| |ram]|]; try done.
  cbn [mbind result_bind Raw.re_search].
  unfold Re.search. rewrite search_cpu, search_ram.
  destruct (find_first cpu_at _) as [d|]; [|done].
  destruct (find_first ram_at _) as [d'|]; [|done].
  cbn [fmap option_fmap option_map]. by rewrite !group_1_singleton.
Qed.

Lemma main_parse_cases (req : Raw.Row) :
  Raw.Main.parse req =
    match req !! "CPU"%string with
    | None => Raise KeyError
    | Some (Py.Str cpu) =>
        match req !! "RAM"%string with
        | None => Raise KeyError
        | Some (Py.Str ram) =>
            match find_first cpu_at (list_ascii_of_string cpu),
                  find_first ram_at (list_ascii_of_string ram) with
            | Some d, Some d' =>
                server_name ← Raw.getitem req "Server Name";
                ip_address ← Raw.getitem req "IP Address";
                storage ← Raw.getitem req "Storage";
                database ← Raw.getitem req "Database";
                cpu ← Raw.int_of_str d;
                ram ← Raw.int_of_str d';
                Ok (Some {| Raw.Main.req_Server_Name := server_name;
                            Raw.Main.req_IP_Address := ip_address;
                            Raw.Main.req_Storage := storage;
                            Raw.Main.req_Database := database;
                            Raw.Main.req_CPU := cpu;
                            Raw.Main.req_RAM := ram |})
            | _, _ => Ok None
            end
        | Some _ => Raise TypeError
        end
    | Some _ => Raise TypeError
    end.
Proof.
  unfold Raw.Main.parse, Raw.getitem.
  destruct (req !! "CPU"%string) as [[| |cpu]|]; try done.
  cbn [mbind result_bind Raw.re_search].
  destruct (req !! "RAM"%string) as [[| |ram]|]; try done.
  cbn [mbind result_bind Raw.re_search].
  unfold Re.search. rewrite search_cpu, search_ram.
  destruct (find_first cpu_at _) as [d|]; [|done].
  destruct (find_first ram_at _) as [d'|]; [|done].
  cbn [fmap option_fmap option_map]. by rewrite !group_1_singleton.
Qed.

Lemma row_counts_cases (req : Raw.Row) d d' :
  row_counts req d d' ↔
    match req !! "CPU"%string, req !! "RAM"%string with
    | Some (Py.Str cpu), Some (Py.Str ram) =>
        find_first cpu_at (list_ascii_of_string cpu) = Some d
        ∧ find_first ram_at (list_ascii_of_string ram) = Some d'
    | _, _ => False
    end.
Proof.
  unfold row_counts. split.
  - intros (cpu & ram & -> & -> & Hd & Hd').
    by rewrite (find_first_first_occurrence cpu_at cpu_head cpu_at_head),
               (find_first_first_occurrence ram_at ram_head ram_at_head).
  - destruct (req !! "CPU"%string) as [[| |cpu]|]; try done.
    destruct (req !! "RAM"%string) as [[| |ram]|]; try done.
    rewrite (find_first_first_occurrence cpu_at cpu_head cpu_at_head),
            (find_first_first_occurrence ram_at ram_head ram_at_head).
    intros [Hd Hd']. by exists cpu, ram.
Qed.

Lemma int_of_str_within d : within_limit d → Raw.int_of_str d = Ok (int_of_digits d).
Proof.
  unfold within_limit, Raw.int_of_str. intros H.
  destruct (Z.ltb_spec Raw.max_str_digits (Z.of_nat (length d))); [lia|done].
Qed.

Lemma int_of_str_Ok d n : Raw.int_of_str d = Ok n ↔ within_limit d ∧ n = int_of_digits d.
Proof.
  unfold within_limit, Raw.int_of_str.
  destruct (Z.ltb_spec Raw.max_str_digits (Z.of_nat (length d))); split.
  - done.
  - intros [? _]. lia.
  - intros [= <-]. split; [lia|done].
  - by intros [_ ->].
Qed.

Lemma int_of_str_Raise d e : Raw.int_of_str d = Raise e ↔ ¬ within_limit d ∧ e = ValueError.
Proof.
  unfold within_limit, Raw.int_of_str.
  destruct (Z.ltb_spec Raw.max_str_digits (Z.of_nat (length d))); split.
  - intros [= <-]. split; [lia|done].
  - by intros [_ ->].
  - done.
  - intros [? _]. lia.
Qed.

(** What the variant's parser makes of a row it reads. *)
Lemma variant_parse_None (req : Raw.Row) :
  Raw.Variant.parse req = Ok None ↔
  (∃ cpu ram, req !! "CPU"%string = Some (Py.Str cpu)
              ∧ req !! "RAM"%string = Some (Py.Str ram))
  ∧ ¬ ∃ d d', row_counts req d d'.
Proof.
  rewrite variant_parse_cases. setoid_rewrite row_counts_cases.
  unfold Raw.getitem.
  destruct (req !! "CPU"%string) as [[| |cpu]|];
    try (split; [done|by intros [(? & ? & ? & ?) _]]).
  destruct (req !! "RAM"%string) as [[| |ram]|];
    try (split; [done|by intros [(? & ? & ? & ?) _]]).
  destruct (find_first cpu_at _) as [d|].
  - destruct (find_first ram_at _) as [d'|].
    + split.
      * destruct (req !! "Server Name"%string); [|done].
        destruct (req !! "IP Address"%string); [|done].
        cbn. destruct (Raw.int_of_str d); [|done].
        cbn. by destruct (Raw.int_of_str d').
      * intros [_ []]. by exists d, d'.
    + split; [|done]. intros _. split; [eauto|]. by intros (? & ? & _ & ?).
  - split; [|done]. intros _. split; [eauto|]. by intros (? & ? & ? & _).
Qed.

Lemma variant_parse_Some (req : Raw.Row) r :
  Raw.Variant.parse req = Ok (Some r) ↔
  ∃ d d' server_name ip_address,
    row_counts req d d'
    ∧ req !! "Server Name"%string = Some server_name
    ∧ req !! "IP Address"%string = Some ip_address
    ∧ within_limit d ∧ within_limit d'
    ∧ r = {| Raw.Variant.req_Server_Name := server_name;
             Raw.Variant.req_IP_Address := ip_address;
             Raw.Variant.req_CPU := int_of_digits d;
             Raw.Variant.req_RAM := int_of_digits d' |}.
Proof.
  rewrite variant_parse_cases. setoid_rewrite row_counts_cases.
  unfold Raw.getitem.
  destruct (req !! "CPU"%string) as [[| |cpu]|];
    try (split; [done|by intros (? & ? & ? & ? & ? & _)]).
  destruct (req !! "RAM"%string) as [[| |ram]|];
    try (split; [done|by intros (? & ? & ? & ? & ? & _)]).
  destruct (find_first cpu_at _) as [d|];
    [|split; [done|by intros (? & ? & ? & ? & [? _] & _)]].
  destruct (find_first ram_at _) as [d'|];
    [|split; [done|by intros (? & ? & ? & ? & [_ ?] & _)]].
  split.
  - destruct (req !! "Server Name"%string) as [name|]; [|done].
    destruct (req !! "IP Address"%string) as [ip|]; [|done].
    cbn. destruct (Raw.int_of_str d) as [n|] eqn:Hn; [|done].
    cbn. destruct (Raw.int_of_str d') as [n'|] eqn:Hn'; [|done].
    cbn. intros [= <-]. apply int_of_str_Ok in Hn as [? ->], Hn' as [? ->].
    by exists d, d', name, ip.
  - intros (? & ? & name & ip & [[= <-] [= <-]] & -> & -> & Hd & Hd' & ->).
    cbn. by rewrite (int_of_str_within _ Hd), (int_of_str_within _ Hd').
Qed.

Lemma variant_parse_readable (req : Raw.Row) :
  (∃ r, Raw.Variant.parse req = Ok r) ↔ readable req.
Proof.
  unfold readable. split.
  - intros [[r|] H].
    + apply variant_parse_Some in H
        as (d & d' & name & ip & Hrow & Hname & Hip & Hd & Hd' & _).
      split.
      { destruct Hrow as (cpu & ram & ? & ? & _). eauto. }
      intros e e' Hrow'.
      assert (e = d ∧ e' = d') as [-> ->].
      { apply row_counts_cases in Hrow, Hrow'.
        destruct (req !! "CPU"%string) as [[| |cpu]|]; try done.
        destruct (req !! "RAM"%string) as [[| |ram]|]; try done.
        destruct Hrow as [? ?], Hrow' as [? ?]. split; congruence. }
      by rewrite Hname, Hip.
    + apply variant_parse_None in H as [Hcells Hno]. split; [done|].
      intros d d' Hrow. destruct Hno. eauto.
  - intros [(cpu & ram & Hcpu & Hram) Hall].
    destruct (find_first cpu_at (list_ascii_of_string cpu)) as [d|] eqn:Hd;
      [destruct (find_first ram_at (list_ascii_of_string ram)) as [d'|] eqn:Hd'|].
    + assert (row_counts req d d') as Hrow.
      { apply row_counts_cases. by rewrite Hcpu, Hram. }
      destruct (Hall _ _ Hrow) as ([name Hname] & [ip Hip] & ? & ?).
      eexists (Some _). apply variant_parse_Some. by exists d, d', name, ip.
    + exists None. apply variant_parse_None. split; [eauto|].
      intros (e & e' & Hrow). apply row_counts_cases in Hrow.
      rewrite Hcpu, Hram in Hrow. destruct Hrow. congruence.
    + exists None. apply variant_parse_None. split; [eauto|].
      intros (e & e' & Hrow). apply row_counts_cases in Hrow.
      rewrite Hcpu, Hram in Hrow. destruct Hrow. congruence.
Qed.

(** What the main file's parser makes of a row, beside the variant's. *)
Lemma main_parse_variant (req : Raw.Row) r :
  Raw.Main.parse req = Ok r → Raw.Variant.parse req = Ok (without_storage <$> r).
Proof.
  rewrite main_parse_cases, variant_parse_cases. unfold Raw.getitem.
  destruct (req !! "CPU"%string) as [[| |cpu]|]; try done.
  destruct (req !! "RAM"%string) as [[| |ram]|]; try done.
  destruct (find_first cpu_at _) as [d|]; [|by intros [= <-]].
  destruct (find_first ram_at _) as [d'|]; [|by intros [= <-]].
  destruct (req !! "Server Name"%string) as [name|]; [|done].
  destruct (req !! "IP Address"%string) as [ip|]; [|done].
  destruct (req !! "Storage"%string) as [storage|]; [|done].
  destruct (req !! "Database"%string) as [database|]; [|done].
  cbn. destruct (Raw.int_of_str d) as [n|]; [|done].
  cbn. destruct (Raw.int_of_str d') as [n'|]; [|done].
  cbn. by intros [= <-].
Qed.

Lemma variant_parse_main_None (req : Raw.Row) :
  Raw.Variant.parse req = Ok None → Raw.Main.parse req = Ok None.
Proof.
  rewrite main_parse_cases, variant_parse_cases. unfold Raw.getitem.
  destruct (req !! "CPU"%string) as [[| |cpu]|]; try done.
  destruct (req !! "RAM"%string) as [[| |ram]|]; try done.
  destruct (find_first cpu_at _) as [d|]; [|done].
  destruct (find_first ram_at _) as [d'|]; [|done].
  destruct (req !! "Server Name"%string) as [name|]; [|done].
  destruct (req !! "IP Address"%string) as [ip|]; [|done].
  cbn. destruct (Raw.int_of_str d) as [n|]; [|done].
  cbn. by destruct (Raw.int_of_str d') as [n'|].
Qed.

Lemma variant_parse_main_Some (req : Raw.Row) r :
  Raw.Variant.parse req = Ok (Some r) →
  match req !! "Storage"%string, req !! "Database"%string with
  | Some storage, Some database =>
      ∃ r', Raw.Main.parse req = Ok (Some r') ∧ without_storage r' = r
  | _, _ => Raw.Main.parse req = Raise KeyError
  end.
Proof.
  rewrite main_parse_cases, variant_parse_cases. unfold Raw.getitem.
  destruct (req !! "CPU"%string) as [[| |cpu]|]; try done.
  destruct (req !! "RAM"%string) as [[| |ram]|]; try done.
  destruct (find_first cpu_at _) as [d|]; [|done].
  destruct (find_first ram_at _) as [d'|]; [|done].
  destruct (req !! "Server Name"%string) as [name|]; [|done].
  destruct (req !! "IP Address"%string) as [ip|]; [|done].
  cbn. destruct (Raw.int_of_str d) as [n|]; [|done].
  cbn. destruct (Raw.int_of_str d') as [n'|]; [|done].
  cbn. intros [= <-].
  destruct (req !! "Storage"%string) as [storage|]; [|done].
  destruct (req !! "Database"%string) as [database|]; [|done].
  cbn. by eexists.
Qed.

(** Why the variant's parser raises. *)
Lemma variant_parse_Raise (req : Raw.Row) e :
  Raw.Variant.parse req = Raise e →
  (e = KeyError
   ∧ Exists (λ key, req !! key = None) ["CPU"; "RAM"; "Server Name"; "IP Address"]%string)
  ∨ (e = TypeError
     ∧ Exists (λ key, ∃ cell, req !! key = Some cell ∧ ∀ s, cell ≠ Py.Str s)
         ["CPU"; "RAM"]%string)
  ∨ (e = ValueError
     ∧ ∃ d d', row_counts req d d' ∧ (¬ within_limit d ∨ ¬ within_limit d')).
Proof.
  rewrite variant_parse_cases. setoid_rewrite row_counts_cases. unfold Raw.getitem.
  destruct (req !! "CPU"%string) as [[| |cpu]|] eqn:Hcpu.
  - intros [= <-]. right; left. split; [done|]. apply Exists_cons_hd. by eexists.
  - intros [= <-]. right; left. split; [done|]. apply Exists_cons_hd. by eexists.
  - destruct (req !! "RAM"%string) as [[| |ram]|] eqn:Hram.
    + intros [= <-]. right; left. split; [done|].
      apply Exists_cons_tl, Exists_cons_hd. by eexists.
    + intros [= <-]. right; left. split; [done|].
      apply Exists_cons_tl, Exists_cons_hd. by eexists.
    + destruct (find_first cpu_at _) as [d|]; [|done].
      destruct (find_first ram_at _) as [d'|]; [|done].
      destruct (req !! "Server Name"%string) as [name|] eqn:Hname.
      * destruct (req !! "IP Address"%string) as [ip|] eqn:Hip.
        -- cbn. destruct (Raw.int_of_str d) as [n|] eqn:Hd.
           ++ cbn. destruct (Raw.int_of_str d') as [n'|] eqn:Hd'; [done|].
              cbn. intros [= <-]. apply int_of_str_Raise in Hd' as [? ->].
              right; right. split; [done|]. exists d, d'. split; [done|by right].
           ++ cbn. intros [= <-]. apply int_of_str_Raise in Hd as [? ->].
              right; right. split; [done|]. exists d, d'. split; [done|by left].
        -- intros [= <-]. left. split; [done|]. by repeat constructor.
      * intros [= <-]. left. split; [done|].
        by apply Exists_cons_tl, Exists_cons_tl, Exists_cons_hd.
    + intros [= <-]. left. split; [done|]. by apply Exists_cons_tl, Exists_cons_hd.
  - intros [= <-]. left. split; [done|]. by apply Exists_cons_hd.
Qed.

(** ** A loop whose body reads one item *)

Section Loop.
Context {X R A : Type} (f : X → result R) (g : A → R → A).

Lemma loop_Ok xs acc res :
  Raw.loop (λ acc x, r ← f x; Ok (g acc r)) xs acc = Ok res ↔
  ∃ rs, Forall2 (λ x r, f x = Ok r) xs rs ∧ res = fold_left g rs acc.
Proof.
  revert acc. induction xs as [|x xs IH]; intros acc; cbn.
  - split.
    + intros [= <-]. exists []. by split.
    + intros (rs & ->%Forall2_nil_inv_l & ->). done.
  - destruct (f x) as [r|e] eqn:Hx; cbn.
    + rewrite IH. split.
      * intros (rs & Hrs & ->). exists (r :: rs). split; [by constructor|done].
      * intros (rs & Hrs & ->).
        apply Forall2_cons_inv_l in Hrs as (r' & rs' & Hr & Hrs & ->).
        exists rs'. split; [done|]. cbn. congruence.
    + split; [done|]. intros (rs & Hrs & _).
      apply Forall2_cons_inv_l in Hrs as (r' & rs' & Hr & _). congruence.
Qed.

Lemma loop_Raise xs acc e :
  Raw.loop (λ acc x, r ← f x; Ok (g acc r)) xs acc = Raise e ↔
  ∃ before x after,
    xs = before ++ x :: after
    ∧ Forall (λ x, ∃ r, f x = Ok r) before
    ∧ f x = Raise e.
Proof.
  revert acc. induction xs as [|x xs IH]; intros acc; cbn.
  - split; [done|]. intros (before & x & after & Heq & _). by destruct before.
  - destruct (f x) as [r|e'] eqn:Hx; cbn.
    + rewrite IH. split.
      * intros (before & y & after & -> & Hbefore & Hy).
        exists (x :: before), y, after. split; [done|]. split; [|done].
        constructor; [by exists r|done].
      * intros (before & y & after & Heq & Hbefore & Hy).
        destruct before as [|b before]; simplify_eq/=; [congruence|].
        apply Forall_cons in Hbefore as [_ Hbefore]. by exists before, y, after.
    + split.
      * intros [= <-]. exists [], x, xs. by repeat split.
      * intros (before & y & after & Heq & Hbefore & Hy).
        destruct before as [|b before]; simplify_eq/=; [congruence|].
        apply Forall_cons in Hbefore as [[r Hr] _]. congruence.
Qed.
End Loop.

Lemma fold_left_append_id {Y : Type} (rs : list (option Y)) (acc : list Y) :
  fold_left (λ acc r, match r with Some y => acc ++ [y] | None => acc end) rs acc
  = acc ++ omap id rs.
Proof. by apply fold_left_append_omap. Qed.

Lemma omap_id_fmap {Y W : Type} (h : Y → W) (rs : list (option Y)) :
  omap id (map (fmap h) rs) = map h (omap id rs).
Proof.
  induction rs as [|[y|] rs IH]; [done| |done].
  rewrite !omap_cons. cbn. by rewrite IH.
Qed.

Lemma variant_extract_Ok (requirements : list Raw.Row) filtered :
  Raw.Variant.extract_cpu_ram requirements = Ok filtered ↔
  ∃ rs, Forall2 (λ req r, Raw.Variant.parse req = Ok r) requirements rs
        ∧ filtered = omap id rs.
Proof.
  unfold Raw.Variant.extract_cpu_ram.
  rewrite (loop_Ok Raw.Variant.parse
             (λ acc r, match r with Some y => acc ++ [y] | None => acc end)).
  by setoid_rewrite fold_left_append_id.
Qed.

Lemma main_extract_Ok (requirements : list Raw.Row) filtered :
  Raw.Main.extract_cpu_ram requirements = Ok filtered ↔
  ∃ rs, Forall2 (λ req r, Raw.Main.parse req = Ok r) requirements rs
        ∧ filtered = omap id rs.
Proof.
  unfold Raw.Main.extract_cpu_ram.
  rewrite (loop_Ok Raw.Main.parse
             (λ acc r, match r with Some y => acc ++ [y] | None => acc end)).
  by setoid_rewrite fold_left_append_id.
Qed.

(** The main file's parser on the rows the variant reads: it stops with
    [KeyError] at the first row that counts and lacks a Storage or a Database
    cell. *)
Lemma variant_rows_main (requirements : list Raw.Row) rs :
  Forall2 (λ req r, Raw.Variant.parse req = Ok r) requirements rs →
  (Forall (λ req, (∃ d d', row_counts req d d') → has_storage_and_database req)
     requirements
   ∧ ∃ rs', Forall2 (λ req r, Raw.Main.parse req = Ok r) requirements rs'
            ∧ rs = map (fmap without_storage) rs')
  ∨ (Exists (λ req, (∃ d d', row_counts req d d') ∧ ¬ has_storage_and_database req)
       requirements
     ∧ ∃ before req after,
         requirements = before ++ req :: after
         ∧ Forall (λ req, ∃ r, Raw.Main.parse req = Ok r) before
         ∧ Raw.Main.parse req = Raise KeyError).
Proof.
  induction 1 as [|req r requirements rs Hreq _ IH].
  { left. split; [done|]. by exists []. }
  assert ((∃ d d', row_counts req d d') ∧ ¬ has_storage_and_database req
           ∧ Raw.Main.parse req = Raise KeyError
          ∨ ((∃ d d', row_counts req d d') → has_storage_and_database req)
            ∧ ∃ r', Raw.Main.parse req = Ok r' ∧ r = without_storage <$> r') as Hhead.
  { destruct r as [r|].
    - apply variant_parse_Some in Hreq as Hrow.
      destruct Hrow as (d & d' & _ & _ & Hrow & _).
      apply variant_parse_main_Some in Hreq. unfold has_storage_and_database.
      destruct (req !! "Storage"%string) as [storage|].
      + destruct (req !! "Database"%string) as [database|].
        * right. split; [done|]. destruct Hreq as (r' & Hr' & <-). by exists (Some r').
        * left. split; [eauto|]. split; [|done]. by intros [_ [? ?]].
      + left. split; [eauto|]. split; [|done]. by intros [[? ?] _].
    - apply variant_parse_None in Hreq as Hrow. destruct Hrow as [_ Hno].
      right. split; [done|]. exists None. split; [|done].
      by apply variant_parse_main_None. }
  destruct Hhead as [(Hrow & Hno & Hraise)|(Hgood & r' & Hr' & ->)].
  { right. split; [by apply Exists_cons_hd|]. by exists [], req, requirements. }
  destruct IH as [(Hall & rs' & Hrs' & ->)|(Hex & before & x & after & -> & Hbefore & Hx)].
  - left. split; [by constructor|]. exists (r' :: rs'). split; [by constructor|done].
  - right. split; [by apply Exists_cons_tl|].
    exists (req :: before), x, after. split; [done|]. split; [|done].
    constructor; [by exists r'|done].
Qed.

(** The main file's parser on a row of six strings. *)
Lemma main_parse_raw_dict (row : RawRequirement) :
  counts_within_limit row →
  Raw.Main.parse (raw_dict row) = Ok (as_cells <$> parse row).
Proof.
  intros Hlimit. rewrite main_parse_cases, parse_cases. unfold Raw.getitem.
  unfold counts_within_limit in Hlimit.
  setoid_rewrite <- (find_first_first_occurrence cpu_at cpu_head cpu_at_head) in Hlimit.
  setoid_rewrite <- (find_first_first_occurrence ram_at ram_head ram_at_head) in Hlimit.
  destruct row as [name ip cpu ram storage database]. cbn [raw_CPU raw_RAM] in *.
  replace (raw_dict _ !! "CPU"%string) with (Some (Py.Str cpu)) by by vm_compute.
  replace (raw_dict _ !! "RAM"%string) with (Some (Py.Str ram)) by by vm_compute.
  destruct (find_first cpu_at _) as [d|]; [|done].
  destruct (find_first ram_at _) as [d'|]; [|done].
  destruct (Hlimit d d') as [Hd Hd']; [done..|].
  replace (raw_dict _ !! "Server Name"%string) with (Some (Py.Str name)) by by vm_compute.
  replace (raw_dict _ !! "IP Address"%string) with (Some (Py.Str ip)) by by vm_compute.
  replace (raw_dict _ !! "Storage"%string) with (Some (Py.Str storage)) by by vm_compute.
  replace (raw_dict _ !! "Database"%string) with (Some (Py.Str database)) by by vm_compute.
  cbn. by rewrite (int_of_str_within _ Hd), (int_of_str_within _ Hd').
Qed.

(** X15. The variant reads every sheet the main file reads, and extracts the
    same entries from it, without their Storage and Database.  Where the
    variant reads a sheet, the main file reads it too unless a row that
    counts has no Storage or no Database cell: then, and only then, the main
    file's parser raises, and what it raises is [KeyError].  On a sheet of
    six-string rows whose counts are within the limit of [int], both parsers
    return what the parsers of the six-string model return. *)
Theorem variant_reads_what_main_reads (requirements : list Raw.Row) :
  (∀ filtered,
     Raw.Main.extract_cpu_ram requirements = Ok filtered →
     Raw.Variant.extract_cpu_ram requirements = Ok (map without_storage filtered))
  ∧ (∀ filtered,
       Raw.Variant.extract_cpu_ram requirements = Ok filtered →
       (Forall (λ req, (∃ d d', row_counts req d d') → has_storage_and_database req)
          requirements
        ∧ ∃ filtered', Raw.Main.extract_cpu_ram requirements = Ok filtered'
                       ∧ filtered = map without_storage filtered')
       ∨ (Exists (λ req, (∃ d d', row_counts req d d') ∧ ¬ has_storage_and_database req)
            requirements
          ∧ Raw.Main.extract_cpu_ram requirements = Raise KeyError))
  ∧ (∀ rows : list RawRequirement,
       requirements = map raw_dict rows →
       Forall counts_within_limit rows →
       Raw.Main.extract_cpu_ram requirements = Ok (map as_cells (extract_cpu_ram rows))
       ∧ Raw.Variant.extract_cpu_ram requirements
         = Ok (map without_storage (map as_cells (extract_cpu_ram rows)))).
Proof.
  assert (∀ filtered,
            Raw.Main.extract_cpu_ram requirements = Ok filtered →
            Raw.Variant.extract_cpu_ram requirements = Ok (map without_storage filtered))
    as Hmain.
  { intros filtered (rs & Hrs & ->)%main_extract_Ok. apply variant_extract_Ok.
    exists (map (fmap without_storage) rs). split; [|by rewrite omap_id_fmap].
    apply Forall2_fmap_r. eapply Forall2_impl; [done|].
    intros req r Hr. by apply main_parse_variant. }
  split; [done|]. split.
  - intros filtered (rs & Hrs & ->)%variant_extract_Ok.
    destruct (variant_rows_main _ _ Hrs)
      as [(Hall & rs' & Hrs' & ->)|(Hex & before & req & after & Heq & Hbefore & Hreq)].
    + left. split; [done|]. exists (omap id rs'). split; [|by rewrite omap_id_fmap].
      apply main_extract_Ok. by exists rs'.
    + right. split; [done|]. unfold Raw.Main.extract_cpu_ram.
      apply (loop_Raise Raw.Main.parse
               (λ acc r, match r with Some y => acc ++ [y] | None => acc end)).
      by exists before, req, after.
  - intros rows -> Hlimit.
    assert (Raw.Main.extract_cpu_ram (map raw_dict rows)
            = Ok (map as_cells (extract_cpu_ram rows))) as Heq.
    { apply main_extract_Ok. exists (map (λ row, as_cells <$> parse row) rows). split.
      - apply Forall2_fmap_l, Forall2_fmap_r, Forall_Forall2_diag.
        eapply Forall_impl; [done|]. intros row Hrow. by apply main_parse_raw_dict.
      - rewrite extract_cpu_ram_omap. clear Hmain Hlimit.
        induction rows as [|row rows IH]; [done|].
        cbn [map]. rewrite !omap_cons. destruct (parse row); cbn; by rewrite IH. }
    split; [done|]. (* the variant, through the first part *)
    revert Heq. generalize (map as_cells (extract_cpu_ram rows)). intros filtered Heq.
    by apply Hmain.
Qed.

Lemma variant_reads_witness :
  let sheet : list Raw.Row :=
    [ {[ "Server Name"%string := Py.Str "srv1"; "IP Address"%string := Py.Str "10.0.0.1";
         "CPU"%string := Py.Str "2 Cores"; "RAM"%string := Py.Str "4GB" ]} ] in
  let entry :=
    {| Raw.Variant.req_Server_Name := Py.Str "srv1";
       Raw.Variant.req_IP_Address := Py.Str "10.0.0.1";
       Raw.Variant.req_CPU := 2; Raw.Variant.req_RAM := 4 |} in
  Raw.Variant.extract_cpu_ram sheet = Ok [entry]
  ∧ Raw.Main.extract_cpu_ram sheet = Raise KeyError.
Proof.
  intros sheet entry.
  assert (H : Raw.Variant.extract_cpu_ram sheet = Ok [entry]) by (vm_compute; reflexivity).
  split; [exact H|].
  destruct (proj1 (proj2 (variant_reads_what_main_reads sheet)) _ H)
    as [[Hall _]|[_ Hraise]]; [|exact Hraise].
  apply Forall_cons in Hall as [Hrow _].
  destruct Hrow as [[x Hx] _]; [|vm_compute in Hx; discriminate].
  exists (list_ascii_of_string "2"), (list_ascii_of_string "4").
  apply row_counts_cases. vm_compute. done.
Defined.

(** ** The variant's handler on any sheet *)

Lemma ec2_monthly_cost_value hourly_price :
  EC2CostEstimation.monthly_cost hourly_price
  = Ok match hourly_price with
       | Some hourly_price => Py.Float (Py.round_float2 (hourly_price * 24 * 30))
       | None => Py.Str "Price Not Available"
       end.
Proof.
  destruct hourly_price as [h|]; [|done].
  unfold EC2CostEstimation.monthly_cost. apply monthly_cost_value.
Qed.

(** The pricing loop never raises. *)
Lemma variant_price_all_value env matched_instances :
  Raw.Variant.price_all env matched_instances
  = (map (λ m, Raw.Variant.GetPrice (Raw.Variant.mi_InstanceType m)) matched_instances,
     Ok (map (variant_record env) matched_instances)).
Proof.
  induction matched_instances as [|m ms IH]; [done|].
  cbn [Raw.Variant.price_all map]. rewrite ec2_monthly_cost_value, IH. done.
Qed.

Lemma variant_extract_readable (requirements : list Raw.Row) :
  (∃ filtered, Raw.Variant.extract_cpu_ram requirements = Ok filtered)
  ↔ Forall readable requirements.
Proof.
  split.
  - intros [filtered (rs & Hrs & _)%variant_extract_Ok].
    induction Hrs as [|req r requirements rs Hreq _ IH]; constructor; [|done].
    apply variant_parse_readable. by exists r.
  - intros Hall.
    assert (∃ rs, Forall2 (λ req r, Raw.Variant.parse req = Ok r) requirements rs)
      as [rs Hrs].
    { induction Hall as [|req requirements [r Hr]%variant_parse_readable _ [rs Hrs]].
      - by exists [].
      - exists (r :: rs). by constructor. }
    exists (omap id rs). apply variant_extract_Ok. by exists rs.
Qed.

Lemma variant_extract_Raise (requirements : list Raw.Row) e :
  Raw.Variant.extract_cpu_ram requirements = Raise e ↔
  ∃ before req after,
    requirements = before ++ req :: after
    ∧ Forall readable before
    ∧ Raw.Variant.parse req = Raise e.
Proof.
  unfold Raw.Variant.extract_cpu_ram.
  rewrite (loop_Raise Raw.Variant.parse
             (λ acc r, match r with Some y => acc ++ [y] | None => acc end)).
  do 3 (apply exist_proper; intros ?).
  rewrite (Forall_iff _ _ readable); [done|].
  intros req. apply variant_parse_readable.
Qed.

Lemma variant_lambda_handler_paths (env : Raw.Variant.Env) :
  Raw.Variant.lambda_handler env =
    match Raw.Variant.fetch_requirements_from_s3 env with
    | [] =>
        ([Raw.Variant.FetchInstanceTypes; Raw.Variant.FetchRequirements],
         {| statusCode := 500; body := Failed_to_fetch_requirements |})
    | _ :: _ =>
        match Raw.Variant.extract_cpu_ram (Raw.Variant.fetch_requirements_from_s3 env) with
        | Ok filtered_data =>
            let matched_instances :=
              Raw.Variant.find_best_match filtered_data
                (Raw.Variant.fetch_ec2_instance_types env) in
            let report := map (variant_record env) matched_instances in
            ([Raw.Variant.FetchInstanceTypes; Raw.Variant.FetchRequirements]
               ++ map (λ m, Raw.Variant.GetPrice (Raw.Variant.mi_InstanceType m))
                    matched_instances
               ++ [Raw.Variant.StoreResults report],
             if Raw.Variant.store_results_in_s3_csv env report
             then {| statusCode := 200; body := CSV_stored_successfully |}
             else {| statusCode := 500; body := Failed_to_upload_CSV |})
        | Raise e =>
            ([Raw.Variant.FetchInstanceTypes; Raw.Variant.FetchRequirements;
              Raw.Variant.LogError e],
             {| statusCode := 500; body := Unexpected_error e |})
        end
    end.
Proof.
  unfold Raw.Variant.lambda_handler, Raw.Variant.handle.
  destruct (Raw.Variant.fetch_requirements_from_s3 env) as [|req requirements]; [done|].
  destruct (Raw.Variant.extract_cpu_ram _) as [filtered_data|e]; [|done].
  rewrite variant_price_all_value. cbv zeta.
  by destruct (Raw.Variant.store_results_in_s3_csv env _).
Qed.

(** X16. The variant's handler on any sheet.  With an empty sheet it answers
    500 after the two fetches.  Where its parser reads the sheet, it asks the
    price of every matched entry once, in order, uploads one record per
    matched entry, whose monthly cost is the rounded price of 24 * 30 hours or
    the sentinel where there is no price, and answers 200 exactly when the
    upload worked: a missing price does not fail it.  Where its parser raises,
    it asks no price and uploads nothing, logs the exception and answers 500
    with it.  So it answers "Unexpected error" exactly when the sheet is not
    empty and has a row it cannot read; the exception is the one raised on the
    first such row: [KeyError] for a missing cell, [TypeError] for a CPU or a
    RAM cell that is no string, [ValueError] for a count beyond the limit of
    [int]. *)
Theorem variant_lambda_handler_fails_only_on_unreadable_rows (env : Raw.Variant.Env) :
  let requirements := Raw.Variant.fetch_requirements_from_s3 env in
  let response := (Raw.Variant.lambda_handler env).2 in
  (requirements = [] →
   Raw.Variant.lambda_handler env
   = ([Raw.Variant.FetchInstanceTypes; Raw.Variant.FetchRequirements],
      {| statusCode := 500; body := Failed_to_fetch_requirements |}))
  ∧ (∀ filtered_data,
       requirements ≠ [] →
       Raw.Variant.extract_cpu_ram requirements = Ok filtered_data →
       let matched_instances :=
         Raw.Variant.find_best_match filtered_data
           (Raw.Variant.fetch_ec2_instance_types env) in
       let report := map (variant_record env) matched_instances in
       Raw.Variant.lambda_handler env
       = ([Raw.Variant.FetchInstanceTypes; Raw.Variant.FetchRequirements]
            ++ map (λ m, Raw.Variant.GetPrice (Raw.Variant.mi_InstanceType m))
                 matched_instances
            ++ [Raw.Variant.StoreResults report],
          if Raw.Variant.store_results_in_s3_csv env report
          then {| statusCode := 200; body := CSV_stored_successfully |}
          else {| statusCode := 500; body := Failed_to_upload_CSV |}))
  ∧ (∀ e,
       requirements ≠ [] →
       Raw.Variant.extract_cpu_ram requirements = Raise e →
       Raw.Variant.lambda_handler env
       = ([Raw.Variant.FetchInstanceTypes; Raw.Variant.FetchRequirements;
           Raw.Variant.LogError e],
          {| statusCode := 500; body := Unexpected_error e |}))
  ∧ ((∃ e, body response = Unexpected_error e)
     ↔ requirements ≠ [] ∧ ¬ Forall readable requirements)
  ∧ (∀ e,
       body response = Unexpected_error e →
       ∃ before req after,
         requirements = before ++ req :: after
         ∧ Forall readable before
         ∧ ¬ readable req
         ∧ ((e = KeyError
             ∧ Exists (λ key, req !! key = None)
                 ["CPU"; "RAM"; "Server Name"; "IP Address"]%string)
            ∨ (e = TypeError
               ∧ Exists (λ key, ∃ cell, req !! key = Some cell ∧ ∀ s, cell ≠ Py.Str s)
                   ["CPU"; "RAM"]%string)
            ∨ (e = ValueError
               ∧ ∃ d d', row_counts req d d' ∧ (¬ within_limit d ∨ ¬ within_limit d')))).
Proof.
  intros requirements response.
  assert (∀ e, body response = Unexpected_error e
               ↔ requirements ≠ [] ∧ Raw.Variant.extract_cpu_ram requirements = Raise e)
    as Hfail.
  { intros e. subst response requirements. rewrite variant_lambda_handler_paths.
    destruct (Raw.Variant.fetch_requirements_from_s3 env) as [|req rest].
    { cbn. split; [done|]. by intros [? _]. }
    destruct (Raw.Variant.extract_cpu_ram _) as [filtered_data|e'].
    - cbn. destruct (Raw.Variant.store_results_in_s3_csv env _); cbn.
      + split; [done|]. by intros [_ ?].
      + split; [done|]. by intros [_ ?].
    - cbn. split.
      + by intros [= ->].
      + by intros [_ [= ->]]. }
  split; [|split; [|split; [|split]]].
  - subst requirements. intros Hempty. by rewrite variant_lambda_handler_paths, Hempty.
  - subst requirements. intros filtered_data Hne Hok.
    rewrite variant_lambda_handler_paths, Hok.
    by destruct (Raw.Variant.fetch_requirements_from_s3 env).
  - subst requirements. intros e Hne Hraise.
    rewrite variant_lambda_handler_paths, Hraise.
    by destruct (Raw.Variant.fetch_requirements_from_s3 env).
  - rewrite <- variant_extract_readable. setoid_rewrite Hfail. split.
    + intros (e & Hne & Hraise). split; [done|]. intros [filtered Hok]. congruence.
    + intros [Hne Hno].
      destruct (Raw.Variant.extract_cpu_ram requirements) as [filtered|e] eqn:Hout.
      * destruct Hno. by exists filtered.
      * by exists e.
  - intros e [_ Hraise]%Hfail.
    apply variant_extract_Raise in Hraise as (before & req & after & Heq & Hbefore & Hreq).
    exists before, req, after. split; [done|]. split; [done|]. split.
    + intros [r Hr]%variant_parse_readable. congruence.
    + by apply variant_parse_Raise.
Qed.

Lemma variant_lambda_handler_witness :
  let env :=
    {| Raw.Variant.fetch_ec2_instance_types :=
         [("t3.medium"%string, {| vCPUs := 2; MemoryMiB := 4 |})];
       Raw.Variant.fetch_requirements_from_s3 :=
         [ {[ "Server Name"%string := Py.Str "srv1";
              "IP Address"%string := Py.Str "10.0.0.1";
              "CPU"%string := Py.Str "2 Cores";
              "RAM"%string := Py.Float nan ]} ];
       Raw.Variant.get_instance_price := λ _, None;
       Raw.Variant.store_results_in_s3_csv := λ _, true |} in
  Raw.Variant.fetch_requirements_from_s3 env ≠ []
  ∧ Raw.Variant.extract_cpu_ram (Raw.Variant.fetch_requirements_from_s3 env)
    = Raise TypeError
  ∧ Raw.Variant.lambda_handler env
    = ([Raw.Variant.FetchInstanceTypes; Raw.Variant.FetchRequirements;
        Raw.Variant.LogError TypeError],
       {| statusCode := 500; body := Unexpected_error TypeError |}).
Proof.
  intros env.
  assert (Hne : Raw.Variant.fetch_requirements_from_s3 env ≠ []) by done.
  assert (Hraise : Raw.Variant.extract_cpu_ram (Raw.Variant.fetch_requirements_from_s3 env)
                   = Raise TypeError) by (vm_compute; reflexivity).
  split; [exact Hne|]. split; [exact Hraise|].
  exact (proj1 (proj2 (proj2
           (variant_lambda_handler_fails_only_on_unreadable_rows env))) _ Hne Hraise).
Defined.
(** ** How the cost functions fail *)

Lemma float_of_int_raise z e : Py.float_of_int z = Raise e → e = OverflowError.
Proof. unfold Py.float_of_int. destruct (is_infinity _); congruence. Qed.

Lemma float_of_int_0 : Py.float_of_int 0 = Ok 0%float.
Proof. by vm_compute. Qed.

Lemma add_running_total total x :
  running_total total → ∃ y, Py.add total (Py.Float x) = Ok (Py.Float y).
Proof.
  intros [->|[t ->]]; cbn [Py.add].
  - rewrite float_of_int_0. by eexists.
  - by eexists.
Qed.

Lemma round2_running_total total : running_total total → ∃ v, Py.round2 total = Ok v.
Proof. intros [->|[x ->]]; by eexists. Qed.

Lemma raw_storage_item_cases total_cost component :
  Raw.Main.storage_item total_cost component =
    match read_component component with
    | Some (d, u, t) =>
        lift (size_value ← Raw.int_of_str d;
              cost ← Py.mul (Py.Int (gigabytes size_value u)) (Py.Float (storage_rate t));
              Py.add total_cost cost)
    | None => IO [skip_message component] (Ok total_cost)
    end.
Proof.
  pose proof (read_component_heads component) as Hheads.
  unfold Raw.Main.storage_item, read_component, skip_message in *. cbv zeta.
  rewrite search_size, search_type.
  destruct (find_first size_at _) as [[d u]|] eqn:Hs; [|done].
  destruct (find_first type_at _) as [t|] eqn:Ht; [|done].
  destruct (Hheads d u t eq_refl) as [Hu Htype].
  cbn [fmap option_fmap option_map fst snd].
  rewrite group_1_of_2, group_2_of_2, group_1_singleton.
  rewrite (storage_type_lookup _ Htype).
  destruct (Raw.int_of_str d) as [n|e]; [|done].
  cbn. rewrite (size_in_gb_gigabytes _ _ Hu). done.
Qed.

Lemma fails_with_not_converts c e : fails_with c e → ¬ converts c.
Proof. intros [[? _]|(_ & ? & _)] [? ?]; done. Qed.

Lemma fails_with_unique c e e' : fails_with c e → fails_with c e' → e = e'.
Proof. intros [[? ->]|(? & _ & ->)] [[? ->]|(? & _ & ->)]; done. Qed.

(** The first component that fails is the same however the list is cut. *)
Lemma first_failure_unique before c after e before' c' after' e' :
  before ++ c :: after = before' ++ c' :: after' →
  Forall converts before → Forall converts before' →
  fails_with c e → fails_with c' e' → e = e'.
Proof.
  revert before'. induction before as [|b before IH]; intros [|b' before'] Heq Hb Hb' Hc Hc';
    simplify_eq/=.
  - by eapply fails_with_unique.
  - apply Forall_cons in Hb' as [Hb' _]. by apply fails_with_not_converts in Hc.
  - apply Forall_cons in Hb as [Hb _]. by apply fails_with_not_converts in Hc'.
  - apply Forall_cons in Hb as [_ Hb]. apply Forall_cons in Hb' as [_ Hb'].
    by eapply IH.
Qed.

(** One component of the storage text: it converts and adds a float to the
    total, or it fails. *)
Lemma raw_component_cases total d u t :
  running_total total →
  (converts (d, u, t)
   ∧ ∃ y, (size_value ← Raw.int_of_str d;
           cost ← Py.mul (Py.Int (gigabytes size_value u)) (Py.Float (storage_rate t));
           Py.add total cost) = Ok (Py.Float y))
  ∨ ∃ e, fails_with (d, u, t) e
         ∧ (size_value ← Raw.int_of_str d;
            cost ← Py.mul (Py.Int (gigabytes size_value u)) (Py.Float (storage_rate t));
            Py.add total cost) = Raise e.
Proof.
  intros Htotal. unfold converts, fails_with, overflows. cbn [fst snd].
  destruct (Raw.int_of_str d) as [n|e] eqn:Hn.
  - apply int_of_str_Ok in Hn as [Hd ->]. cbn [mbind result_bind Py.mul].
    destruct (Py.float_of_int _) as [x|e] eqn:Hx.
    + left. split; [split; [done|congruence]|]. cbn. by apply add_running_total.
    + apply float_of_int_raise in Hx as Heq. subst e.
      right. exists OverflowError. split; [|done]. right. done.
  - apply int_of_str_Raise in Hn as [Hd ->].
    right. exists ValueError. split; [|done]. by left.
Qed.

Lemma raw_for_each_storage_item components total_cost :
  running_total total_cost →
  match outcome (for_each Raw.Main.storage_item components total_cost) with
  | Ok total => running_total total ∧ Forall converts (omap read_component components)
  | Raise e =>
      ∃ before c after,
        omap read_component components = before ++ c :: after
        ∧ Forall converts before ∧ fails_with c e
  end.
Proof.
  revert total_cost. induction components as [|c rest IH]; intros total Htotal.
  { cbn. by split. }
  cbn [for_each]. rewrite io_bind_outcome, raw_storage_item_cases, omap_cons.
  destruct (read_component c) as [[[d u] t]|]; cbn [outcome lift].
  - destruct (raw_component_cases total d u t Htotal) as [[Hc [y ->]]|(e & He & ->)].
    + specialize (IH (Py.Float y)).
      destruct (outcome (for_each _ rest _)) as [total'|e].
      * destruct IH as [? ?]; [right; by eexists|]. split; [done|by constructor].
      * destruct IH as (before & c' & after & -> & Hbefore & Hc'); [right; by eexists|].
        exists ((d, u, t) :: before), c', after. split; [done|]. split; [|done].
        by constructor.
    + by exists [], (d, u, t), (omap read_component rest).
  - by apply IH.
Qed.

Lemma raw_calculate_storage_cost_Raise storage_str e :
  outcome (Raw.Main.calculate_storage_cost storage_str) = Raise e ↔
  ∃ before c after,
    omap read_component (split_plus (list_ascii_of_string storage_str))
    = before ++ c :: after
    ∧ Forall converts before ∧ fails_with c e.
Proof.
  unfold Raw.Main.calculate_storage_cost. cbv zeta. rewrite io_bind_outcome.
  pose proof (raw_for_each_storage_item
                (split_plus (list_ascii_of_string storage_str)) (Py.Int 0)) as Hloop.
  destruct (outcome (for_each _ _ _)) as [total|e'].
  - destruct Hloop as [Htotal Hall]; [by left|].
    destruct (round2_running_total _ Htotal) as [v Hv]. cbn [outcome lift]. rewrite Hv.
    split; [done|]. intros (before & c & after & Heq & _ & Hc).
    rewrite Heq in Hall. apply Forall_app in Hall as [_ Hall].
    apply Forall_cons in Hall as [Hconv _]. by apply fails_with_not_converts in Hc.
  - destruct Hloop as (before & c & after & Heq & Hbefore & Hc); [by left|]. split.
    + intros [= <-]. by exists before, c, after.
    + intros (before' & c' & after' & Heq' & Hbefore' & Hc'). f_equal.
      rewrite Heq in Heq'. by eapply first_failure_unique.
Qed.

Lemma raw_storage_item_within total_cost component :
  (∀ d u t, read_component component = Some (d, u, t) → within_limit d) →
  Raw.Main.storage_item total_cost component = storage_item total_cost component.
Proof.
  intros Hlimit. rewrite raw_storage_item_cases, storage_item_cases.
  destruct (read_component component) as [[[d u] t]|]; [|done].
  by rewrite (int_of_str_within d (Hlimit _ _ _ eq_refl)).
Qed.

Lemma raw_calculate_storage_cost_within storage_str :
  Forall (λ c : chars * chars * chars, within_limit c.1.1)
    (omap read_component (split_plus (list_ascii_of_string storage_str))) →
  Raw.Main.calculate_storage_cost storage_str = calculate_storage_cost storage_str.
Proof.
  unfold Raw.Main.calculate_storage_cost, calculate_storage_cost. cbv zeta.
  generalize (split_plus (list_ascii_of_string storage_str)), (Py.Int 0).
  intros components total Hall.
  assert (for_each Raw.Main.storage_item components total
          = for_each storage_item components total) as ->; [|done].
  revert total. induction components as [|c rest IH]; intros total; [done|].
  rewrite omap_cons in Hall. cbn [for_each].
  rewrite raw_storage_item_within.
  2:{ intros d u t Hc. rewrite Hc in Hall. by apply Forall_cons in Hall as [? _]. }
  assert (Forall (λ c : chars * chars * chars, within_limit c.1.1)
            (omap read_component rest)) as Hrest.
  { destruct (read_component c); [by apply Forall_cons in Hall as [_ ?]|done]. }
  unfold mbind, io_bind. destruct (outcome (storage_item total c)); [|done].
  by rewrite IH.
Qed.

Lemma raw_calculate_database_cost_cases database storage_str :
  Raw.Main.calculate_database_cost database storage_str =
    match database_cost_per_gb !! database with
    | None => Ok (Py.Float 0)
    | Some rate =>
        match find_first size_at (list_ascii_of_string storage_str) with
        | None => Ok (Py.Float 0)
        | Some (d, u) =>
            size_value ← Raw.int_of_str d;
            x ← Py.float_of_int (gigabytes size_value u);
            Ok (Py.Float (Py.round_float2 (x * rate)))
        end
    end.
Proof.
  unfold Raw.Main.calculate_database_cost.
  destruct (decide (database = "None")) as [->|Hnone].
  { by vm_compute. }
  rewrite (bool_decide_false _ Hnone). cbn [orb].
  destruct (database_cost_per_gb !! database) as [rate|] eqn:Hrate.
  2:{ by rewrite bool_decide_true. }
  rewrite bool_decide_false by done.
  unfold Re.search. rewrite search_size.
  destruct (find_first size_at _) as [[d u]|] eqn:Hfirst; [|done].
  cbn [fmap option_fmap option_map fst snd].
  rewrite group_1_of_2, group_2_of_2.
  destruct (find_first_head _ _ _ _ size_at_head Hfirst) as (n & post & _ & _ & Hu).
  destruct (Raw.int_of_str d) as [size_value|e]; [|done].
  cbn [mbind result_bind]. rewrite (size_in_gb_gigabytes _ _ Hu).
  cbn [Py.mul]. by destruct (Py.float_of_int _).
Qed.

Lemma raw_calculate_database_cost_Raise database storage_str e :
  Raw.Main.calculate_database_cost database storage_str = Raise e ↔
  ∃ rate d unit,
    (database, rate) ∈ database_rates
    ∧ first_occurrence size_head (list_ascii_of_string storage_str) (d, unit)
    ∧ fails_with (d, unit, []) e.
Proof.
  rewrite raw_calculate_database_cost_cases.
  destruct (database_cost_per_gb !! database) as [rate|] eqn:Hrate.
  2:{ split; [done|]. intros (rate' & d' & u' & Hin & _).
      apply database_cost_per_gb_rates in Hin. congruence. }
  apply database_cost_per_gb_rates in Hrate as Hin.
  destruct (find_first size_at _) as [[d u]|] eqn:Hfirst.
  2:{ split; [done|]. intros (rate' & d' & u' & _ & Hocc' & _).
      apply (find_first_first_occurrence size_at size_head size_at_head) in Hocc'.
      congruence. }
  apply (find_first_first_occurrence size_at size_head size_at_head) in Hfirst as Hocc.
  assert (∀ e', (∃ rate d' unit,
                   (database, rate) ∈ database_rates
                   ∧ first_occurrence size_head (list_ascii_of_string storage_str) (d', unit)
                   ∧ fails_with (d', unit, []) e')
                ↔ fails_with (d, u, []) e') as ->.
  { intros e'. split; [|by exists rate, d, u].
    intros (rate' & d' & u' & _ & Hocc' & Hfails).
    apply (find_first_first_occurrence size_at size_head size_at_head) in Hocc'.
    by simplify_eq. }
  unfold fails_with, overflows. cbn [fst snd].
  destruct (Raw.int_of_str d) as [n|e'] eqn:Hn.
  - apply int_of_str_Ok in Hn as [Hd ->]. cbn [mbind result_bind].
    destruct (Py.float_of_int _) as [x|e'] eqn:Hx.
    + split; [done|]. intros [[? _]|(_ & ? & _)]; done.
    + apply float_of_int_raise in Hx as Heq. subst e'. cbn. split.
      * intros [= <-]. by right.
      * intros [[? _]|(_ & _ & ->)]; done.
  - apply int_of_str_Raise in Hn as [Hd ->]. cbn. split.
    + intros [= <-]. by left.
    + intros [[_ ->]|(? & _)]; done.
Qed.

(** X17. How the two cost functions fail, under the limit of [int].
    [calculate_storage_cost] raises exactly when the size of a component that
    counts cannot be converted, and what it raises is decided by the first
    such component: [ValueError] when its digits are more than 4300,
    [OverflowError] when they are not and its gigabytes are beyond the range
    of a float.  [calculate_database_cost] raises exactly when the kind has a
    rate and the first size of the text cannot be converted, in the same two
    ways.  Neither raises anything else; in particular the lookup of the rate
    never raises [KeyError].  Where the digits of the sizes are within the
    limit, both functions are the functions taken without the limit. *)
Theorem cost_functions_fail_on_sizes_only (database storage_str : string) :
  let counted := omap read_component (split_plus (list_ascii_of_string storage_str)) in
  (∀ e, outcome (Raw.Main.calculate_storage_cost storage_str) = Raise e
        ↔ ∃ before c after,
            counted = before ++ c :: after
            ∧ Forall converts before ∧ fails_with c e)
  ∧ (∀ e, Raw.Main.calculate_database_cost database storage_str = Raise e
          ↔ ∃ rate d unit,
              (database, rate) ∈ database_rates
              ∧ first_occurrence size_head (list_ascii_of_string storage_str) (d, unit)
              ∧ fails_with (d, unit, []) e)
  ∧ (∀ e, outcome (Raw.Main.calculate_storage_cost storage_str) = Raise e
          ∨ Raw.Main.calculate_database_cost database storage_str = Raise e →
          e = ValueError ∨ e = OverflowError)
  ∧ (Forall (λ c : chars * chars * chars, within_limit c.1.1) counted →
     Raw.Main.calculate_storage_cost storage_str = calculate_storage_cost storage_str)
  ∧ ((∀ d unit,
        first_occurrence size_head (list_ascii_of_string storage_str) (d, unit) →
        within_limit d) →
     Raw.Main.calculate_database_cost database storage_str
     = calculate_database_cost database storage_str).
Proof.
  intros counted.
  split; [intros e; apply raw_calculate_storage_cost_Raise|].
  split; [intros e; apply raw_calculate_database_cost_Raise|].
  split; [|split].
  - assert (∀ c e, fails_with c e → e = ValueError ∨ e = OverflowError) as Hkinds.
    { intros c e [[_ ->]|(_ & _ & ->)]; [by left|by right]. }
    intros e [H|H].
    + apply raw_calculate_storage_cost_Raise in H as (_ & c & _ & _ & _ & Hc).
      by eapply Hkinds.
    + apply raw_calculate_database_cost_Raise in H as (_ & d & u & _ & _ & Hc).
      by eapply Hkinds.
  - apply raw_calculate_storage_cost_within.
  - intros Hlimit.
    rewrite raw_calculate_database_cost_cases, calculate_database_cost_cases.
    destruct (database_cost_per_gb !! database) as [rate|]; [|done].
    destruct (find_first size_at _) as [[d u]|] eqn:Hfirst; [|done].
    apply (find_first_first_occurrence size_at size_head size_at_head) in Hfirst.
    by rewrite (int_of_str_within d (Hlimit _ _ Hfirst)).
Qed.

Lemma cost_functions_fail_witness :
  let c := (repeat "1"%char 4301, list_ascii_of_string "GB", list_ascii_of_string "SSD") in
  omap read_component (split_plus (list_ascii_of_string endless_storage)) = [] ++ c :: []
  ∧ fails_with c ValueError
  ∧ outcome (Raw.Main.calculate_storage_cost endless_storage) = Raise ValueError.
Proof.
  intros c.
  assert (Hcounted : omap read_component (split_plus (list_ascii_of_string endless_storage))
                     = [] ++ c :: []) by (vm_compute; reflexivity).
  assert (Hfails : fails_with c ValueError).
  { left. split; [|reflexivity]. unfold within_limit. vm_compute. intros H. by apply H. }
  split; [exact Hcounted|]. split; [exact Hfails|].
  apply (proj1 (cost_functions_fail_on_sizes_only "MySQL" endless_storage) ValueError).
  exists [], c, []. split; [exact Hcounted|]. split; [constructor|exact Hfails].
Defined.
(** ** Components that are skipped *)

Lemma add_costs_cases total components :
  running_total total →
  (Exists overflows components ∧ add_costs total components = Raise OverflowError)
  ∨ (¬ Exists overflows components
     ∧ ∃ t, add_costs total components = Ok t ∧ running_total t).
Proof.
  revert total. induction components as [|[[d u] t] rest IH]; intros total Htotal.
  { right. split; [by intros ?%Exists_nil|]. by exists total. }
  cbn [add_costs component_cost Py.mul].
  destruct (Py.float_of_int (gigabytes (int_of_digits d) u)) as [x|e] eqn:Hx.
  - cbn. destruct (add_running_total total (x * storage_rate t) Htotal) as [y ->]. cbn.
    destruct (IH (Py.Float y)) as [[Hex ->]|(Hno & t' & -> & Ht')]; [right; by eexists|..].
    + left. split; [by apply Exists_cons_tl|done].
    + right. split; [|by exists t'].
      intros [Hov|?]%Exists_cons; [|done]. unfold overflows in Hov. cbn [fst snd] in Hov. congruence.
  - apply float_of_int_raise in Hx as Heq. subst e. left. split; [|done].
    by apply Exists_cons_hd.
Qed.

Lemma split_plus_cons s : ∃ piece pieces, split_plus s = piece :: pieces.
Proof.
  destruct s as [|c s]; cbn; [by eexists _, _|].
  destruct (Ascii.eqb c "+"); [by eexists _, _|].
  destruct (split_plus s); by eexists _, _.
Qed.

(** A plus sign ends a component, wherever it stands. *)
Lemma split_plus_app s t :
  split_plus (s ++ "+"%char :: t) = split_plus s ++ split_plus t.
Proof.
  induction s as [|c s IH]; [done|].
  cbn [app split_plus]. destruct (Ascii.eqb c "+"); [by rewrite IH|].
  rewrite IH. by destruct (split_plus_cons s) as (piece & pieces & ->).
Qed.

Lemma io_eta {A : Type} (m : io A) : IO (trace m) (outcome m) = m.
Proof. by destruct m. Qed.

Lemma for_each_app {S X : Type} (body : S → X → io S) (xs ys : list X) (st : S) :
  for_each body (xs ++ ys) st = (st' ← for_each body xs st; for_each body ys st').
Proof.
  revert st. induction xs as [|x xs IH]; intros st.
  { cbn. unfold mbind, io_bind. cbn. by rewrite io_eta. }
  cbn [app for_each]. unfold mbind, io_bind.
  destruct (body st x) as [t [st'|e]]; cbn [outcome trace]; [|done].
  rewrite IH. unfold mbind, io_bind.
  destruct (for_each body xs st') as [t' [st''|e]]; cbn [outcome trace]; [|done].
  by rewrite app_assoc.
Qed.

Section Skipped.
Context (storage_item : Py.val → chars → io Py.val).
Hypothesis skip : ∀ total_cost component,
  read_component component = None →
  storage_item total_cost component = IO [skip_message component] (Ok total_cost).
Hypothesis totals : ∀ components total,
  outcome (for_each storage_item components (Py.Int 0)) = Ok total → running_total total.

Lemma for_each_skipped components total_cost :
  Forall (λ c, read_component c = None) components →
  for_each storage_item components total_cost
  = IO (map skip_message components) (Ok total_cost).
Proof.
  induction 1 as [|c rest Hc _ IH]; [done|].
  cbn [for_each]. rewrite (skip _ _ Hc). unfold mbind, io_bind. cbn [outcome trace].
  by rewrite IH.
Qed.

Lemma skipped_before (s skipped : chars) :
  Forall (λ c, read_component c = None) (split_plus skipped) →
  (total_cost ← for_each storage_item (split_plus (skipped ++ "+"%char :: s)) (Py.Int 0);
   lift (Py.round2 total_cost))
  = let cost := total_cost ← for_each storage_item (split_plus s) (Py.Int 0);
                lift (Py.round2 total_cost) in
    IO (map skip_message (split_plus skipped) ++ trace cost) (outcome cost).
Proof.
  intros Hall. cbv zeta. rewrite split_plus_app, for_each_app, (for_each_skipped _ _ Hall).
  unfold mbind, io_bind. cbn [outcome trace].
  destruct (for_each storage_item (split_plus s) (Py.Int 0)) as [t [total|e]];
    cbn [outcome trace lift]; [|done].
  by rewrite app_assoc.
Qed.

Lemma skipped_after (s skipped : chars) :
  Forall (λ c, read_component c = None) (split_plus skipped) →
  (total_cost ← for_each storage_item (split_plus (s ++ "+"%char :: skipped)) (Py.Int 0);
   lift (Py.round2 total_cost))
  = let cost := total_cost ← for_each storage_item (split_plus s) (Py.Int 0);
                lift (Py.round2 total_cost) in
    IO (trace cost ++ match outcome cost with
                      | Ok _ => map skip_message (split_plus skipped)
                      | Raise _ => []
                      end)
       (outcome cost).
Proof.
  intros Hall. cbv zeta. rewrite split_plus_app, for_each_app.
  pose proof (totals (split_plus s)) as Htotal.
  unfold mbind, io_bind.
  destruct (for_each storage_item (split_plus s) (Py.Int 0)) as [t [total|e]];
    cbn [outcome trace lift] in *.
  - rewrite (for_each_skipped _ _ Hall). cbn [outcome trace].
    destruct (round2_running_total total (Htotal _ eq_refl)) as [v ->].
    by rewrite !app_nil_r.
  - by rewrite !app_nil_r.
Qed.
End Skipped.

(** X18. Components that are skipped change nothing but the diagnostics.
    Where every component of a text holds no size or no type, putting that
    text and a plus sign before or after a storage text leaves what
    [calculate_storage_cost] returns or raises as it is; the lines of the
    skipped components are printed before those of the storage text, or
    after them unless the storage text raises.  So an empty component, as a
    doubled or a trailing plus sign makes one, costs nothing and prints one
    line.  The same holds under the limit of [int]. *)
Theorem storage_cost_ignores_skipped_components (storage_str skipped : string) :
  Forall (λ c, ¬ occurs size_head (strip c) ∨ ¬ occurs type_head (strip c))
    (split_plus (list_ascii_of_string skipped)) →
  let lines := map skip_message (split_plus (list_ascii_of_string skipped)) in
  let before := String.append skipped (String.append "+" storage_str) in
  let after := String.append storage_str (String.append "+" skipped) in
  let cost := calculate_storage_cost storage_str in
  let cost' := Raw.Main.calculate_storage_cost storage_str in
  calculate_storage_cost before = IO (lines ++ trace cost) (outcome cost)
  ∧ calculate_storage_cost after
    = IO (trace cost ++ match outcome cost with Ok _ => lines | Raise _ => [] end)
         (outcome cost)
  ∧ Raw.Main.calculate_storage_cost before = IO (lines ++ trace cost') (outcome cost')
  ∧ Raw.Main.calculate_storage_cost after
    = IO (trace cost' ++ match outcome cost' with Ok _ => lines | Raise _ => [] end)
         (outcome cost').
Proof.
  intros Hall.
  assert (Forall (λ c, read_component c = None)
            (split_plus (list_ascii_of_string skipped))) as Hnone.
  { eapply Forall_impl; [done|]. intros c. apply read_component_None. }
  cbv zeta. unfold calculate_storage_cost, Raw.Main.calculate_storage_cost. cbv zeta.
  rewrite !list_ascii_of_string_app.
  change (list_ascii_of_string "+" ++ ?s) with ("+"%char :: s).
  assert (∀ total_cost component,
            read_component component = None →
            storage_item total_cost component
            = IO [skip_message component] (Ok total_cost)) as Hskip.
  { intros total c Hc. by rewrite storage_item_cases, Hc. }
  assert (∀ total_cost component,
            read_component component = None →
            Raw.Main.storage_item total_cost component
            = IO [skip_message component] (Ok total_cost)) as Hskip'.
  { intros total c Hc. by rewrite raw_storage_item_cases, Hc. }
  assert (∀ components total,
            outcome (for_each storage_item components (Py.Int 0)) = Ok total →
            running_total total) as Htotals.
  { intros components total. rewrite for_each_storage_item_outcome.
    destruct (add_costs_cases (Py.Int 0) (omap read_component components))
      as [[_ ->]|(_ & t & -> & Ht)]; [by left|done|]. by intros [= <-]. }
  assert (∀ components total,
            outcome (for_each Raw.Main.storage_item components (Py.Int 0)) = Ok total →
            running_total total) as Htotals'.
  { intros components total Hout.
    pose proof (raw_for_each_storage_item components (Py.Int 0)) as Hloop.
    rewrite Hout in Hloop. destruct Hloop as [? _]; [by left|done]. }
  split; [|split; [|split]].
  - apply (skipped_before storage_item Hskip _ _ Hnone).
  - apply (skipped_after storage_item Hskip Htotals _ _ Hnone).
  - apply (skipped_before Raw.Main.storage_item Hskip' _ _ Hnone).
  - apply (skipped_after Raw.Main.storage_item Hskip' Htotals' _ _ Hnone).
Qed.

Lemma storage_cost_ignores_skipped_witness :
  Forall (λ c, ¬ occurs size_head (strip c) ∨ ¬ occurs type_head (strip c))
    (split_plus (list_ascii_of_string " fast disk"))
  ∧ calculate_storage_cost "500GB SSD+ fast disk"
    = IO [Print "DEBUG: Skipping invalid storage entry: fast disk"] (Ok (Py.Float 40))
  ∧ calculate_storage_cost "500GB SSD+"
    = IO [Print "DEBUG: Skipping invalid storage entry: "] (Ok (Py.Float 40)).
Proof.
  assert (H : Forall (λ c, ¬ occurs size_head (strip c) ∨ ¬ occurs type_head (strip c))
                (split_plus (list_ascii_of_string " fast disk"))).
  { constructor; [|constructor]. apply read_component_None. vm_compute. reflexivity. }
  assert (H' : Forall (λ c, ¬ occurs size_head (strip c) ∨ ¬ occurs type_head (strip c))
                 (split_plus (list_ascii_of_string ""))).
  { constructor; [|constructor]. apply read_component_None. vm_compute. reflexivity. }
  split; [exact H|]. split.
  - refine (eq_trans (proj1 (proj2 (storage_cost_ignores_skipped_components
                                      "500GB SSD" " fast disk" H))) _).
    vm_compute. reflexivity.
  - refine (eq_trans (proj1 (proj2 (storage_cost_ignores_skipped_components
                                      "500GB SSD" "" H'))) _).
    vm_compute. reflexivity.
Defined.
